(** * The chat-session store of [useChatGPT]

    A shallow embedding of the React hook [useChatGPT]
    (src/examples/react/README.md, the TypeScript part that starts with
    [import { useState, useCallback, useEffect, useRef } from 'react']).

    The hook keeps four pieces of React state ([sessions],
    [currentSession], [isLoading], [error]) and one ref
    ([abortControllerRef]).  Every callback of the hook reads [sessions]
    and [currentSession] from the closure of the render that created it,
    and writes through the state setters; a setter called with a function
    ([setSessions(prev => ...)]) is applied to the state of the moment it
    runs.  The embedding keeps the two apart: a callback takes the
    rendered [Closure] it reads and the [Store] it writes. *)

From Stdlib Require Import List String Ascii ZArith QArith Bool Lia.
From Stdlib Require Import DecimalString DecimalPos DecimalZ.
Import ListNotations.
Local Open Scope string_scope.
Local Open Scope Z_scope.

Set Implicit Arguments.

(** ** Data model *)

(** A JavaScript [Date]: a time value in milliseconds since the epoch, or
    the Invalid Date. *)
Inductive Date : Type :=
| ValidDate (ms : Z)
| InvalidDate.

(** [role: 'user' | 'assistant' | 'system'] *)
Inductive Role : Type := user | assistant | system.

Definition Role_eqb (a b : Role) : bool :=
  match a, b with
  | user, user | assistant, assistant | system, system => true
  | _, _ => false
  end.


(** [interface ChatMessage]; [tokens?: number] is an optional integer
    count. *)
Record ChatMessage : Type := mkMessage {
  msg_id : string;
  role : Role;
  content : string;
  timestamp : Date;
  tokens : option Z
}.

(** [interface ChatSession] *)
Record ChatSession : Type := mkSession {
  id : string;
  title : string;
  messages : list ChatMessage;
  createdAt : Date;
  updatedAt : Date
}.

(** The React state of the hook. *)
Record Store : Type := mkStore {
  sessions : list ChatSession;
  currentSession : option ChatSession;
  isLoading : bool;
  error : option string
}.

(** What a callback sees of the state: the [sessions] and
    [currentSession] of the render that created it. *)
Record Closure : Type := mkClosure {
  cl_sessions : list ChatSession;
  cl_currentSession : option ChatSession
}.

(** The closure of a callback created by a render of [st]. *)
Definition render (st : Store) : Closure :=
  {| cl_sessions := sessions st; cl_currentSession := currentSession st |}.

(** The state before [loadSessionsFromStorage] has run. *)
Definition initialStore : Store :=
  {| sessions := []; currentSession := None; isLoading := false; error := None |}.

Definition setSessions (f : list ChatSession -> list ChatSession) (st : Store) : Store :=
  {| sessions := f (sessions st); currentSession := currentSession st;
     isLoading := isLoading st; error := error st |}.

Definition setCurrentSession (c : option ChatSession) (st : Store) : Store :=
  {| sessions := sessions st; currentSession := c;
     isLoading := isLoading st; error := error st |}.

Definition setIsLoading (b : bool) (st : Store) : Store :=
  {| sessions := sessions st; currentSession := currentSession st;
     isLoading := b; error := error st |}.

Definition setError (e : option string) (st : Store) : Store :=
  {| sessions := sessions st; currentSession := currentSession st;
     isLoading := isLoading st; error := e |}.

(** [sessions.find(s => s.id === sessionId)] *)
Definition findSession (sessionId : string) (l : list ChatSession) : option ChatSession :=
  find (fun s => String.eqb (id s) sessionId) l.

(** [prev.map(s => s.id === u.id ? u : s)] *)
Definition replaceSession (u : ChatSession) (l : list ChatSession) : list ChatSession :=
  map (fun s => if String.eqb (id s) (id u) then u else s) l.

(** [currentSession?.id === sessionId] *)
Definition currentIs (c : option ChatSession) (sessionId : string) : bool :=
  match c with
  | Some s => String.eqb (id s) sessionId
  | None => false
  end.

(** [sessionId ? ... : ...] on an optional string: an absent id and the
    empty string are both falsy. *)
Definition givenId (sessionId : option string) : option string :=
  match sessionId with
  | Some i => if String.eqb i "" then None else Some i
  | None => None
  end.

(** ** createNewSession *)

(** What the environment supplies to one call of [createNewSession]: the
    result of [generateId()], of [new Date().toLocaleDateString()] and of
    the two [new Date()]. *)
Record SessionEnv : Type := mkSessionEnv {
  se_id : string;
  se_localeDate : string;
  se_createdAt : Z;
  se_updatedAt : Z
}.

(** [title || `Chat ${...}`]: an absent or empty title is replaced. *)
Definition defaultTitle (t : option string) (e : SessionEnv) : string :=
  match t with
  | Some s => if String.eqb s "" then "Chat " ++ se_localeDate e else s
  | None => "Chat " ++ se_localeDate e
  end.

Definition newSession (t : option string) (e : SessionEnv) : ChatSession :=
  {| id := se_id e; title := defaultTitle t e; messages := [];
     createdAt := ValidDate (se_createdAt e);
     updatedAt := ValidDate (se_updatedAt e) |}.

Definition createNewSession (t : option string) (e : SessionEnv) (st : Store)
  : ChatSession * Store :=
  let session := newSession t e in
  (session,
   setCurrentSession (Some session) (setSessions (fun prev => session :: prev) st)).

(** ** selectSession, deleteSession, clearSession *)

Definition selectSession (cl : Closure) (sessionId : string) (st : Store) : Store :=
  match findSession sessionId (cl_sessions cl) with
  | Some session => setError None (setCurrentSession (Some session) st)
  | None => st
  end.

(** [prev[0] || null] *)
Definition firstOrNull (l : list ChatSession) : option ChatSession := hd_error l.

Definition deleteSession (cl : Closure) (sessionId : string) (st : Store) : Store :=
  let st1 :=
    setSessions (filter (fun s => negb (String.eqb (id s) sessionId))) st in
  if currentIs (cl_currentSession cl) sessionId
  then setCurrentSession (firstOrNull (sessions st1)) st1
  else st1.

Definition clearMessages (now : Z) (s : ChatSession) : ChatSession :=
  {| id := id s; title := title s; messages := [];
     createdAt := createdAt s; updatedAt := ValidDate now |}.

(** [{ ...prev, messages: [] }]: the copy held as current session keeps its
    [updatedAt]. *)
Definition emptied (s : ChatSession) : ChatSession :=
  {| id := id s; title := title s; messages := [];
     createdAt := createdAt s; updatedAt := updatedAt s |}.

Definition clearSession (cl : Closure) (sessionId : string) (now : Z) (st : Store) : Store :=
  let st1 :=
    setSessions
      (map (fun session =>
              if String.eqb (id session) sessionId
              then clearMessages now session else session)) st in
  let st2 :=
    if currentIs (cl_currentSession cl) sessionId
    then setCurrentSession (option_map emptied (currentSession st1)) st1
    else st1 in
  setError None st2.

(** ** getTotalTokensUsed *)

(** [message.tokens || 0] *)
Definition tokensOrZero (m : ChatMessage) : Z :=
  match tokens m with
  | Some n => n
  | None => 0
  end.

(** [session.messages.reduce((t, m) => t + (m.tokens || 0), 0)] *)
Definition sessionTokens (s : ChatSession) : Z :=
  fold_left (fun sessionTotal message => sessionTotal + tokensOrZero message)
            (messages s) 0.

Definition getTotalTokensUsed (cl : Closure) (sessionId : option string) : Z :=
  let targetSessions :=
    match givenId sessionId with
    | Some i => filter (fun s => String.eqb (id s) i) (cl_sessions cl)
    | None => cl_sessions cl
    end in
  fold_left (fun total session => total + sessionTokens session) targetSessions 0.

(** ** Strings of the platform used by the hook *)

(** [hay.includes(needle)] *)
Fixpoint includes (needle hay : string) : bool :=
  if String.prefix needle hay then true
  else match hay with
       | EmptyString => false
       | String _ rest => includes needle rest
       end.

(** Decimal text of an integer, as a template literal prints a status. *)
Definition Z_toString (z : Z) : string :=
  NilZero.string_of_int (Z.to_int z).

(** White space removed by [String.prototype.trim], for the characters a
    byte string can hold: tab, line feed, vertical tab, form feed,
    carriage return and space. *)
Definition isWhiteSpace (c : ascii) : bool :=
  let n := nat_of_ascii c in
  (Nat.eqb n 9 || Nat.eqb n 10 || Nat.eqb n 11 || Nat.eqb n 12
   || Nat.eqb n 13 || Nat.eqb n 32)%bool.

Fixpoint trimStart (s : string) : string :=
  match s with
  | EmptyString => EmptyString
  | String c rest => if isWhiteSpace c then trimStart rest else s
  end.

Fixpoint trimEnd (s : string) : string :=
  match s with
  | EmptyString => EmptyString
  | String c rest =>
      match trimEnd rest with
      | EmptyString => if isWhiteSpace c then EmptyString else String c EmptyString
      | t => String c t
      end
  end.

Definition trim (s : string) : string := trimEnd (trimStart s).

(** ** The remote call *)

(** The options of the hook with their defaults. *)
Record Options : Type := mkOptions {
  apiKey : string;
  model : string;
  maxTokens : Z;
  temperature : Q;
  persistSessions : bool;
  autoSave : bool
}.

Definition defaultOptions (key : string) : Options :=
  {| apiKey := key; model := "gpt-3.5-turbo"; maxTokens := 1000;
     temperature := (7 # 10)%Q; persistSessions := true; autoSave := true |}.

(** One entry of [apiMessages]: role and content only. *)
Record ApiMessage : Type := mkApiMessage {
  api_role : Role;
  api_content : string
}.

(** The POST issued by [fetch]: the bearer token and the JSON body. *)
Record Request : Type := mkRequest {
  req_bearer : string;
  req_model : string;
  req_messages : list ApiMessage;
  req_max_tokens : Z;
  req_temperature : Q;
  req_stream : bool
}.

(** A JavaScript error as the [catch] block inspects it. *)
Record JsError : Type := mkJsError {
  err_name : string;
  err_message : string
}.

(** The JSON of a response body, with the parts the hook reads; every
    part may be missing, as the optional chaining of the source allows:
    [data.choices[0]?.message?.content], [data.usage?.total_tokens],
    [errorData.error?.message].  The texts are strings and the token
    count is a number, as the provider's API gives them. *)
Record Choice : Type := mkChoice {
  choice_content : option (option string)   (* message, then content *)
}.

Record JsonData : Type := mkJsonData {
  choices : option (list Choice);
  usage_total_tokens : option (option Z);   (* usage, then total_tokens *)
  error_message : option (option string)    (* error, then message *)
}.

(** [{}] *)
Definition emptyObject : JsonData :=
  {| choices := None; usage_total_tokens := None; error_message := None |}.

(** The outcome of [response.json()]: a rejection (the body is not JSON,
    or the signal was aborted while it was read), or the value read.  An
    object is given with the parts the hook reads.  A number, a string, a
    boolean or an array has none of these parts and is the object with
    every part missing.  [null] is apart, because reading a property of it
    throws: [thrown] is the message of the TypeError the engine raises
    when the hook reads [errorData.error] or [data.choices] of it. *)
Inductive JsonResult : Type :=
| JsonRejected (e : JsError)
| JsonResolved (data : JsonData)
| JsonNull (thrown : string).

Record Response : Type := mkResponse {
  ok : bool;
  status : Z;
  statusText : string;
  json : JsonResult
}.

(** The outcome of [await fetch(...)]; a response arrives whole, with the
    outcome of reading its body. *)
Inductive FetchResult : Type :=
| FetchRejected (e : JsError)
| FetchResolved (r : Response).

(** The rejection of a [fetch] whose signal was aborted. *)
Definition abortError : JsError :=
  {| err_name := "AbortError"; err_message := "The user aborted a request." |}.

(** [a || b] on optional strings: undefined and the empty string are
    falsy. *)
Definition orElse (a : option string) (b : string) : string :=
  match a with
  | Some s => if String.eqb s "" then b else s
  | None => b
  end.

Definition join {A : Type} (a : option (option A)) : option A :=
  match a with
  | Some x => x
  | None => None
  end.

Definition rateLimitMessage : string :=
  "Límite de rate excedido. Intenta nuevamente en unos momentos".
Definition apiKeyMessage : string := "API key inválida o no configurada".
Definition quotaMessage : string :=
  "Cuota de API agotada. Verifica tu billing en OpenAI".
Definition connectionMessage : string :=
  "Error de conexión. Verifica tu conexión a internet".
Definition unknownErrorMessage : string :=
  "Error desconocido al comunicarse con la API".

Definition handleApiError (e : JsError) : string :=
  if includes "API key" (err_message e) then apiKeyMessage
  else if includes "429" (err_message e) then rateLimitMessage
  else if includes "insufficient_quota" (err_message e) then quotaMessage
  else if (String.eqb (err_name e) "TypeError"
           && includes "fetch" (err_message e))%bool then connectionMessage
  else orElse (Some (err_message e)) unknownErrorMessage.

(** ** sendMessage *)

(** What the environment supplies when a message is created and its
    session is updated: [generateId()] and the two [new Date()]. *)
Record MessageEnv : Type := mkMessageEnv {
  me_id : string;
  me_timestamp : Z;
  me_updatedAt : Z
}.

(** [{ ...s, messages: [...s.messages, m], updatedAt: new Date() }] *)
Definition withMessage (s : ChatSession) (m : ChatMessage) (now : Z) : ChatSession :=
  {| id := id s; title := title s; messages := messages s ++ [m];
     createdAt := createdAt s; updatedAt := ValidDate now |}.

(** The session [sendMessage] works on: the one found by a given id,
    else the current one of the closure. *)
Definition resolveTarget (cl : Closure) (sessionId : option string) : option ChatSession :=
  match givenId sessionId with
  | Some i => findSession i (cl_sessions cl)
  | None => cl_currentSession cl
  end.

Definition userMessage (content : string) (me : MessageEnv) : ChatMessage :=
  {| msg_id := me_id me; role := user; content := content;
     timestamp := ValidDate (me_timestamp me); tokens := None |}.

(** [setSessions(prev => prev.map(...))] and the guarded
    [setCurrentSession], as the three branches of [sendMessage] do them:
    the guard reads the closure's [currentSession]. *)
Definition putSession (cur : option ChatSession) (u : ChatSession) (st : Store) : Store :=
  let st1 := setSessions (replaceSession u) st in
  if currentIs cur (id u) then setCurrentSession (Some u) st1 else st1.

(** The part of [sendMessage] that runs before [fetch] is called, on the
    React state: it returns [updatedSession] and the new state. *)
Definition sendMessage_sync (cl : Closure) (content : string)
    (sessionId : option string) (se : SessionEnv) (me : MessageEnv) (st : Store)
  : ChatSession * Store :=
  let '(targetSession, st0) :=
    match resolveTarget cl sessionId with
    | Some t => (t, st)
    | None => createNewSession None se st
    end in
  let updatedSession := withMessage targetSession (userMessage content me) (me_updatedAt me) in
  let st1 := putSession (cl_currentSession cl) updatedSession st0 in
  (updatedSession, setError None (setIsLoading true st1)).

Definition apiMessages (s : ChatSession) : list ApiMessage :=
  map (fun msg => {| api_role := role msg; api_content := content msg |}) (messages s).

Definition buildRequest (o : Options) (updatedSession : ChatSession) : Request :=
  {| req_bearer := apiKey o; req_model := model o;
     req_messages := apiMessages updatedSession;
     req_max_tokens := maxTokens o; req_temperature := temperature o;
     req_stream := false |}.

(** What [fetch] resolves to before the body is read. *)
Record ResponseHead : Type := mkResponseHead {
  h_ok : bool;
  h_status : Z;
  h_statusText : string
}.

(** A call of [sendMessage] suspended at an [await]: the controller
    created for it, the [currentSession] of its closure, its
    [updatedSession] and the request it issued.  [p_head] is empty while
    the call waits at [await fetch(...)], and holds the response once the
    call waits at [await response.json()]. *)
Record Pending : Type := mkPending {
  p_controller : nat;
  p_current : option ChatSession;
  p_updated : ChatSession;
  p_request : Request;
  p_head : option ResponseHead
}.

(** The [catch] block. *)
Definition sendMessage_catch (p : Pending) (e : JsError) (me : MessageEnv) (st : Store)
  : option ChatMessage * Store :=
  let st1 := setIsLoading false st in
  if String.eqb (err_name e) "AbortError" then (None, st1)
  else
    let errorMessage := handleApiError e in
    let st2 := setError (Some errorMessage) st1 in
    let errorResponseMessage :=
      {| msg_id := me_id me; role := assistant;
         content := "Error: " ++ errorMessage;
         timestamp := ValidDate (me_timestamp me); tokens := None |} in
    let errorSession := withMessage (p_updated p) errorResponseMessage (me_updatedAt me) in
    (Some errorResponseMessage, putSession (p_current p) errorSession st2).

(** [data.choices[0]?.message?.content] on a [choices] array. *)
Definition firstContent (cs : list Choice) : option string :=
  match hd_error cs with
  | Some c => join (choice_content c)
  | None => None
  end.

(** What [errorData] is bound to by
    [await response.json().catch(() => ({}))]: the rejection is replaced
    by [{}], the value read is kept, [null] included. *)
Inductive ErrorData : Type :=
| ErrorObject (data : JsonData)
| ErrorNull (thrown : string).

Definition errorDataOf (response : Response) : ErrorData :=
  match json response with
  | JsonRejected _ => ErrorObject emptyObject
  | JsonResolved d => ErrorObject d
  | JsonNull thrown => ErrorNull thrown
  end.

(** [`HTTP ${response.status}: ${response.statusText}`] *)
Definition statusLine (response : Response) : string :=
  "HTTP " ++ Z_toString (status response) ++ ": " ++ statusText response.

(** What the branch [!response.ok] throws:
    [new Error(errorData.error?.message || `HTTP ...`)], or, when
    [errorData] is [null], the TypeError of reading [errorData.error]. *)
Definition failureError (response : Response) : JsError :=
  match errorDataOf response with
  | ErrorObject errorData =>
      {| err_name := "Error";
         err_message :=
           orElse (join (error_message errorData)) (statusLine response) |}
  | ErrorNull thrown => {| err_name := "TypeError"; err_message := thrown |}
  end.

(** The part of [sendMessage] that runs once [fetch] has settled, on the
    fetch result and, for a response, the outcome of reading its body.
    [engineMessage] is the text of the TypeError the engine raises when
    [data.choices] is undefined and [data.choices[0]] is read; a body that
    is [null] brings the text of its own TypeError. *)
Definition sendMessage_settle (engineMessage : string) (p : Pending) (r : FetchResult)
    (me : MessageEnv) (st : Store) : option ChatMessage * Store :=
  match r with
  | FetchRejected e => sendMessage_catch p e me st
  | FetchResolved response =>
      if negb (ok response) then sendMessage_catch p (failureError response) me st
      else
        match json response with
        | JsonRejected e => sendMessage_catch p e me st
        | JsonNull thrown =>
            sendMessage_catch p
              {| err_name := "TypeError"; err_message := thrown |} me st
        | JsonResolved data =>
            match choices data with
            | None =>
                sendMessage_catch p
                  {| err_name := "TypeError"; err_message := engineMessage |} me st
            | Some cs =>
                let assistantMessage :=
                  {| msg_id := me_id me; role := assistant;
                     content := orElse (firstContent cs) "No response";
                     timestamp := ValidDate (me_timestamp me);
                     tokens := join (usage_total_tokens data) |} in
                let finalSession :=
                  withMessage (p_updated p) assistantMessage (me_updatedAt me) in
                let st1 := putSession (p_current p) finalSession st in
                (Some assistantMessage, setIsLoading false st1)
            end
        end
  end.

(** ** Persistence *)

(** The JSON form of a message and of a session, as [JSON.stringify]
    writes them: a [Date] becomes what its [toJSON] returns (an ISO-8601
    string, or [null] for the Invalid Date) and an undefined [tokens] is
    left out. *)
Record StoredMessage : Type := mkStoredMessage {
  sm_id : string;
  sm_role : Role;
  sm_content : string;
  sm_timestamp : option string;
  sm_tokens : option Z
}.

Record StoredSession : Type := mkStoredSession {
  ss_id : string;
  ss_title : string;
  ss_messages : list StoredMessage;
  ss_createdAt : option string;
  ss_updatedAt : option string
}.

(** A string, seen through [JSON.parse]: text that does not parse, the
    JSON of an array of sessions, or the JSON of one session object.
    Layout (the indentation asked of [JSON.stringify]) is not kept, and
    JSON of any other shape is not represented. *)
Inductive Text : Type :=
| NotJson (s : string)
| JsonSessions (l : list StoredSession)
| JsonSession (s : StoredSession).

(** [localStorage], with the key ['chat-sessions'] as its one slot:
    [refuses v] is the exception [setItem] raises when asked to store
    [v], if any; [attempts] lists the values [setItem] was called with,
    latest first. *)
Record LocalStorage : Type := mkLocalStorage {
  slot : option Text;
  refuses : Text -> option JsError;
  attempts : list Text
}.

(** [localStorage.setItem('chat-sessions', v)]: the exception, if any, and
    the storage afterwards. *)
Definition setItem (v : Text) (ls : LocalStorage) : option JsError * LocalStorage :=
  match refuses ls v with
  | Some e =>
      (Some e, {| slot := slot ls; refuses := refuses ls; attempts := v :: attempts ls |})
  | None =>
      (None, {| slot := Some v; refuses := refuses ls; attempts := v :: attempts ls |})
  end.

(** The largest time value of a [Date]. *)
Definition maxTime : Z := 8640000000000000.

Definition isTimeValue (d : Date) : bool :=
  match d with
  | ValidDate t => (- maxTime <=? t) && (t <=? maxTime)
  | InvalidDate => false
  end.

Section Platform.

(** [Date.prototype.toISOString] on a time value and [new Date(s)] on a
    string, both of the platform. *)
Variable toISOString : Z -> string.
Variable Date_parse : string -> Date.

(** [Date.prototype.toJSON] *)
Definition Date_toJSON (d : Date) : option string :=
  match d with
  | ValidDate t => Some (toISOString t)
  | InvalidDate => None
  end.

(** [new Date(v)] on a value read from JSON: [null] gives the epoch. *)
Definition newDate (v : option string) : Date :=
  match v with
  | Some s => Date_parse s
  | None => ValidDate 0
  end.

Definition stringifyMessage (m : ChatMessage) : StoredMessage :=
  {| sm_id := msg_id m; sm_role := role m; sm_content := content m;
     sm_timestamp := Date_toJSON (timestamp m); sm_tokens := tokens m |}.

(** [JSON.stringify(session)] *)
Definition stringifySession (s : ChatSession) : StoredSession :=
  {| ss_id := id s; ss_title := title s;
     ss_messages := map stringifyMessage (messages s);
     ss_createdAt := Date_toJSON (createdAt s);
     ss_updatedAt := Date_toJSON (updatedAt s) |}.

(** [JSON.stringify(sessions)] *)
Definition stringifySessions (l : list ChatSession) : Text :=
  JsonSessions (map stringifySession l).

(** [{ ...msg, timestamp: new Date(msg.timestamp) }] *)
Definition reviveMessage (m : StoredMessage) : ChatMessage :=
  {| msg_id := sm_id m; role := sm_role m; content := sm_content m;
     timestamp := newDate (sm_timestamp m); tokens := sm_tokens m |}.

(** The function mapped over the parsed array by
    [loadSessionsFromStorage]. *)
Definition reviveSession (s : StoredSession) : ChatSession :=
  {| id := ss_id s; title := ss_title s;
     messages := map reviveMessage (ss_messages s);
     createdAt := newDate (ss_createdAt s);
     updatedAt := newDate (ss_updatedAt s) |}.

Definition loadError : string := "Error loading sessions from storage:".
Definition saveError : string := "Error saving sessions to storage:".
Definition retryError : string := "Failed to save even reduced sessions:".

(** [loadSessionsFromStorage]: the new state and the lines written by
    [console.error].  [stored] is the result of [getItem]. *)
Definition loadSessionsFromStorage (stored : option Text) (st : Store)
  : Store * list string :=
  match stored with
  | None => (st, [])
  | Some (NotJson s) =>
      if String.eqb s "" then (st, [])
      else (setSessions (fun _ => []) st, [loadError])
  | Some (JsonSession _) =>
      (setSessions (fun _ => []) st, [loadError])
  | Some (JsonSessions l) =>
      let parsedSessions := map reviveSession l in
      let st1 := setSessions (fun _ => parsedSessions) st in
      (match parsedSessions with
       | first :: _ => setCurrentSession (Some first) st1
       | [] => st1
       end, [])
  end.

(** [saveSessionsToStorage]: the new state, the storage and the lines
    written by [console.error]. *)
Definition saveSessionsToStorage (cl : Closure) (st : Store) (ls : LocalStorage)
  : Store * LocalStorage * list string :=
  match setItem (stringifySessions (cl_sessions cl)) ls with
  | (None, ls1) => (st, ls1, [])
  | (Some e, ls1) =>
      if String.eqb (err_name e) "QuotaExceededError" then
        let recentSessions := firstn 10 (cl_sessions cl) in
        let st1 := setSessions (fun _ => recentSessions) st in
        match setItem (stringifySessions recentSessions) ls1 with
        | (None, ls2) => (st1, ls2, [saveError])
        | (Some _, ls2) => (st1, ls2, [saveError; retryError])
        end
      else (st, ls1, [saveError])
  end.

(** ** exportSession *)

Inductive Format : Type := Fjson | Fmarkdown.

(** [toLocaleString] of the platform. *)
Variable toLocaleString : Date -> string.

(** [role.toUpperCase()] *)
Definition Role_toUpperCase (r : Role) : string :=
  match r with
  | user => "USER"
  | assistant => "ASSISTANT"
  | system => "SYSTEM"
  end.

Definition newline : string := String (ascii_of_nat 10) EmptyString.

Definition markdownBlock (message : ChatMessage) : string :=
  let roleIcon := match role message with user => "👤" | _ => "🤖" end in
  "## " ++ roleIcon ++ " " ++ Role_toUpperCase (role message) ++ newline ++ newline
  ++ content message ++ newline ++ newline
  ++ "*" ++ toLocaleString (timestamp message) ++ "*" ++ newline ++ newline
  ++ "---" ++ newline ++ newline.

Definition markdownOf (session : ChatSession) : string :=
  fold_left (fun markdown message => markdown ++ markdownBlock message)
    (messages session)
    ("# " ++ title session ++ newline ++ newline
     ++ "*Creado: " ++ toLocaleString (createdAt session) ++ "*" ++ newline ++ newline).

Definition exportSession (cl : Closure) (sessionId : string) (format : Format) : Text :=
  match findSession sessionId (cl_sessions cl) with
  | None => NotJson ""
  | Some session =>
      match format with
      | Fmarkdown => NotJson (markdownOf session)
      | Fjson => JsonSession (stringifySession session)
      end
  end.

End Platform.

(** ** The auto-save effect

    [useEffect(() => { if (autoSave && persistSessions &&
    sessions.length > 0) { const timeoutId = setTimeout(() =>
    saveSessionsToStorage(), 1000); return () => clearTimeout(timeoutId) }
    }, [sessions, autoSave, persistSessions])].  The effect runs again
    after every render in which [sessions] is another array, and every
    [setSessions] of the hook is given a fresh array ([prev.map],
    [prev.filter], a spread, [slice], the parsed list).  Running again,
    it clears the timeout it had set and sets a new one if its condition
    holds. *)

(** The state of the hook with the storage, the lines written by
    [console.error], and whether a timeout of the effect is pending. *)
Record Saver : Type := mkSaver {
  sv_store : Store;
  sv_storage : LocalStorage;
  sv_console : list string;
  sv_timeout : bool
}.

Section AutoSave.

Variable options : Options.
Variable toISOString : Z -> string.

(** The condition under which the effect sets a timeout. *)
Definition autoSaveCondition (st : Store) : bool :=
  autoSave options && persistSessions options && (0 <? List.length (sessions st))%nat.

(** [saveSessionsToStorage] reaches [setSessions(recentSessions)]: its
    first [setItem] throws an error named QuotaExceededError. *)
Definition truncates (cl : Closure) (ls : LocalStorage) : bool :=
  match fst (setItem (stringifySessions toISOString (cl_sessions cl)) ls) with
  | Some e => String.eqb (err_name e) "QuotaExceededError"
  | None => false
  end.

(** The timeout fires, one second after the last change of [sessions].
    The timeout is set anew at every change of [sessions], so the
    [saveSessionsToStorage] that runs is the one of the render that shows
    the sessions of the state it finds.  The effect runs again if that
    run has called [setSessions]. *)
Definition timeoutFires (v : Saver) : Saver :=
  if sv_timeout v then
    let cl := render (sv_store v) in
    let '(st, ls, lines) :=
      saveSessionsToStorage toISOString cl (sv_store v) (sv_storage v) in
    {| sv_store := st; sv_storage := ls;
       sv_console := (sv_console v ++ lines)%list;
       sv_timeout := truncates cl (sv_storage v) && autoSaveCondition st |}
  else v.

(** The timeout fires [n] times, nothing else happening in between. *)
Fixpoint timeoutFiresTimes (n : nat) (v : Saver) : Saver :=
  match n with
  | O => v
  | S n' => timeoutFiresTimes n' (timeoutFires v)
  end.

End AutoSave.

(** ** The hook as a machine *)

(** The React state together with [abortControllerRef]: controllers are
    numbered in the order [new AbortController()] created them;
    [aborted] lists those whose [abort()] was called; [inflight] lists the
    calls of [sendMessage] suspended at an [await]. *)
Record Hook : Type := mkHook {
  store : Store;
  abortControllerRef : option nat;
  aborted : list nat;
  inflight : list Pending;
  controllers : nat
}.

Definition initialHook : Hook :=
  {| store := initialStore; abortControllerRef := None; aborted := [];
     inflight := []; controllers := 0%nat |}.

Definition withStore (st : Store) (h : Hook) : Hook :=
  {| store := st; abortControllerRef := abortControllerRef h;
     aborted := aborted h; inflight := inflight h; controllers := controllers h |}.

Definition isAborted (h : Hook) (c : nat) : bool := existsb (Nat.eqb c) (aborted h).

(** [if (abortControllerRef.current) abortControllerRef.current.abort()] *)
Definition abortPrevious (h : Hook) : list nat :=
  match abortControllerRef h with
  | Some c => c :: aborted h
  | None => aborted h
  end.

(** The requests not cancelled and not yet answered. *)
Definition liveRequests (h : Hook) : list Pending :=
  filter (fun p => negb (isAborted h (p_controller p))) (inflight h).

(** What reaches a waiting call: the rejection of [fetch], the response
    [fetch] resolves to, or the outcome of [response.json()]. *)
Inductive Arrival : Type :=
| FetchRejects (e : JsError)
| FetchResolves (hd : ResponseHead)
| JsonSettles (j : JsonResult).

(** A resumed call either waits again or returns. *)
Inductive Progress : Type :=
| StillWaiting
| Returned (result : option ChatMessage).

Definition pendingOf (k : nat) (h : Hook) : option Pending :=
  find (fun p => Nat.eqb (p_controller p) k) (inflight h).

Definition withHead (hd : ResponseHead) (p : Pending) : Pending :=
  {| p_controller := p_controller p; p_current := p_current p;
     p_updated := p_updated p; p_request := p_request p; p_head := Some hd |}.

Definition responseOf (hd : ResponseHead) (j : JsonResult) : Response :=
  {| ok := h_ok hd; status := h_status hd; statusText := h_statusText hd; json := j |}.

Section Machine.

Variable options : Options.
Variable engineMessage : string.

(** A call of [sendMessage], up to the point where it waits for
    [fetch]. *)
Definition sendMessage_call (cl : Closure) (content : string)
    (sessionId : option string) (se : SessionEnv) (me : MessageEnv) (h : Hook) : Hook :=
  let '(updatedSession, st1) := sendMessage_sync cl content sessionId se me (store h) in
  let c := controllers h in
  {| store := st1;
     abortControllerRef := Some c;
     aborted := abortPrevious h;
     inflight :=
       inflight h ++
       [{| p_controller := c; p_current := cl_currentSession cl;
           p_updated := updatedSession;
           p_request := buildRequest options updatedSession;
           p_head := None |}];
     controllers := S c |}.

(** The call [p] runs to its end on the fetch result [r] and leaves the
    waiting calls. *)
Definition finish (p : Pending) (r : FetchResult) (me : MessageEnv) (h : Hook)
  : Progress * Hook :=
  let '(result, st1) := sendMessage_settle engineMessage p r me (store h) in
  (Returned result,
   {| store := st1;
      abortControllerRef := abortControllerRef h;
      aborted := aborted h;
      inflight :=
        filter (fun q => negb (Nat.eqb (p_controller q) (p_controller p))) (inflight h);
      controllers := controllers h |}).

(** The call [p] has its response and waits for the body. *)
Definition waitForBody (p : Pending) (hd : ResponseHead) (h : Hook) : Progress * Hook :=
  (StillWaiting,
   {| store := store h;
      abortControllerRef := abortControllerRef h;
      aborted := aborted h;
      inflight :=
        map (fun q => if Nat.eqb (p_controller q) (p_controller p) then withHead hd q else q)
            (inflight h);
      controllers := controllers h |}).

(** The call that created controller [k] is resumed by [a].  A signal
    aborted while the call waits makes the awaited promise reject with
    an AbortError, at [await fetch(...)] and at [await response.json()]
    alike.  [None] when no such call is waiting for such an arrival. *)
Definition sendMessage_resume (k : nat) (a : Arrival) (me : MessageEnv) (h : Hook)
  : option (Progress * Hook) :=
  match pendingOf k h with
  | None => None
  | Some p =>
      let cancelled := isAborted h (p_controller p) in
      match p_head p, a with
      | None, FetchRejects e =>
          Some (finish p (FetchRejected (if cancelled then abortError else e)) me h)
      | None, FetchResolves hd =>
          if cancelled then Some (finish p (FetchRejected abortError) me h)
          else Some (waitForBody p hd h)
      | Some hd, JsonSettles j =>
          Some (finish p
                  (FetchResolved
                     (responseOf hd (if cancelled then JsonRejected abortError else j)))
                  me h)
      | _, _ => None
      end
  end.

(** The events of the hook: a call of one of its callbacks, or an
    arrival for a waiting [sendMessage]. *)
Inductive Event : Type :=
| Ecreate (t : option string) (se : SessionEnv)
| Esend (content : string) (sessionId : option string) (se : SessionEnv) (me : MessageEnv)
| Earrive (k : nat) (a : Arrival) (me : MessageEnv)
| Eselect (sessionId : string)
| Edelete (sessionId : string)
| Eclear (sessionId : string) (now : Z).

(** One event; [cl] is the closure of the callback called. *)
Definition step (cl : Closure) (e : Event) (h : Hook) : Hook :=
  match e with
  | Ecreate t se => withStore (snd (createNewSession t se (store h))) h
  | Esend content sessionId se me => sendMessage_call cl content sessionId se me h
  | Earrive k a me =>
      match sendMessage_resume k a me h with
      | Some (_, h1) => h1
      | None => h
      end
  | Eselect i => withStore (selectSession cl i (store h)) h
  | Edelete i => withStore (deleteSession cl i (store h)) h
  | Eclear i now => withStore (clearSession cl i now (store h)) h
  end.

(** The hooks reached from the initial one, whatever closure each
    callback was created with. *)
Inductive reachable : Hook -> Prop :=
| reachable_init : reachable initialHook
| reachable_step : forall h cl e, reachable h -> reachable (step cl e h).

(** A run in which every callback is the one of the latest render. *)
Fixpoint run (es : list Event) (h : Hook) : Hook :=
  match es with
  | [] => h
  | e :: rest => run rest (step (render (store h)) e h)
  end.

(** The whole answer [r] reaches the call of controller [k] with nothing
    in between: the value the call returns and the hook afterwards. *)
Definition deliver (k : nat) (r : FetchResult) (me : MessageEnv) (h : Hook)
  : option (option ChatMessage * Hook) :=
  match r with
  | FetchRejected e =>
      match sendMessage_resume k (FetchRejects e) me h with
      | Some (Returned result, h1) => Some (result, h1)
      | _ => None
      end
  | FetchResolved response =>
      let hd := {| h_ok := ok response; h_status := status response;
                   h_statusText := statusText response |} in
      match sendMessage_resume k (FetchResolves hd) me h with
      | Some (Returned result, h1) => Some (result, h1)
      | Some (StillWaiting, h1) =>
          match sendMessage_resume k (JsonSettles (json response)) me h1 with
          | Some (Returned result, h2) => Some (result, h2)
          | _ => None
          end
      | None => None
      end
  end.

(** A whole exchange with no other event in between: the call and the
    answer to it. *)
Definition sendMessage (cl : Closure) (content : string) (sessionId : option string)
    (se : SessionEnv) (me : MessageEnv) (r : FetchResult) (me' : MessageEnv) (h : Hook)
  : option ChatMessage * Hook :=
  let h1 := sendMessage_call cl content sessionId se me h in
  match deliver (controllers h) r me' h1 with
  | Some res => res
  | None => (None, h1)
  end.

End Machine.

(** ** The active session and the session set *)

Definition hasId (i : string) (l : list ChatSession) : bool :=
  existsb (fun s => String.eqb (id s) i) l.

(** The active-session reference, when set, names a session of the set. *)
Definition activeInSet (st : Store) : bool :=
  match currentSession st with
  | Some c => hasId (id c) (sessions st)
  | None => true
  end.


(** ** Sample data *)

Module Sample.

Definition options : Options := defaultOptions "sk-test".

(** The text V8 gives to the TypeError of [undefined[0]]. *)
Definition engineMessage : string :=
  "Cannot read properties of undefined (reading '0')".

Definition sessionEnv (i : string) (t : Z) : SessionEnv :=
  {| se_id := i; se_localeDate := "1/1/2025"; se_createdAt := t; se_updatedAt := t |}.

Definition messageEnv (i : string) (t : Z) : MessageEnv :=
  {| me_id := i; me_timestamp := t; me_updatedAt := t |}.

(** A 200 response with one choice and a token count. *)
Definition completion (text : string) (n : Z) : FetchResult :=
  FetchResolved
    {| ok := true; status := 200; statusText := "OK";
       json := JsonResolved
                 {| choices := Some [{| choice_content := Some (Some text) |}];
                    usage_total_tokens := Some (Some n);
                    error_message := None |} |}.

(** The events by which the whole answer [r] reaches the call of
    controller [k]. *)
Definition answer (k : nat) (r : FetchResult) (me : MessageEnv) : list Event :=
  match r with
  | FetchRejected e => [Earrive k (FetchRejects e) me]
  | FetchResolved response =>
      [Earrive k (FetchResolves {| h_ok := ok response; h_status := status response;
                                   h_statusText := statusText response |}) me;
       Earrive k (JsonSettles (json response)) me]
  end.

Definition plainSession (i : string) : ChatSession :=
  {| id := i; title := i; messages := [];
     createdAt := ValidDate 0; updatedAt := ValidDate 0 |}.

(** A platform for examples: dates are printed as decimal numbers. *)
Definition decimalDate (t : Z) : string := Z_toString t.

Definition parseDecimal (s : string) : Date :=
  match NilZero.int_of_string s with
  | Some d => ValidDate (Z.of_int d)
  | None => InvalidDate
  end.

Definition quotaExceeded : JsError :=
  {| err_name := "QuotaExceededError"; err_message := "quota" |}.

(** A storage that is full: every [setItem] raises. *)
Definition fullStorage : LocalStorage :=
  {| slot := None; refuses := fun _ => Some quotaExceeded; attempts := [] |}.

(** A session without messages, created and last updated at the given
    times. *)
Definition sessionAt (i : string) (created updated : Z) : ChatSession :=
  {| id := i; title := i; messages := [];
     createdAt := ValidDate created; updatedAt := ValidDate updated |}.

(** Eleven sessions, the newest first; the oldest one was used last. *)
Definition elevenOldestUsedLast : list ChatSession :=
  [sessionAt "s11" 11 11; sessionAt "s10" 10 10; sessionAt "s9" 9 9;
   sessionAt "s8" 8 8; sessionAt "s7" 7 7; sessionAt "s6" 6 6;
   sessionAt "s5" 5 5; sessionAt "s4" 4 4; sessionAt "s3" 3 3;
   sessionAt "s2" 2 2; sessionAt "s1" 1 50].

Definition elevenSessions : list ChatSession :=
  map plainSession ["s1"; "s2"; "s3"; "s4"; "s5"; "s6"; "s7"; "s8"; "s9"; "s10"; "s11"].

(** A failure response without a JSON body. *)
Definition failure (code : Z) (text : string) : FetchResult :=
  FetchResolved
    {| ok := false; status := code; statusText := text;
       json := JsonRejected {| err_name := "SyntaxError"; err_message := "Unexpected end of JSON input" |} |}.

(** A failure response whose body is [{ error: { message } }]. *)
Definition failureWith (code : Z) (text message : string) : FetchResult :=
  FetchResolved
    {| ok := false; status := code; statusText := text;
       json := JsonResolved
                 {| choices := None; usage_total_tokens := None;
                    error_message := Some (Some message) |} |}.

(** A failure response whose body is [null], on an engine that words the
    TypeError as V8 does. *)
Definition failureNull (code : Z) (text : string) : FetchResult :=
  FetchResolved
    {| ok := false; status := code; statusText := text;
       json := JsonNull "Cannot read properties of null (reading 'error')" |}.


(** The call waiting after the first message on a fresh hook. *)
Definition firstCall : Hook :=
  sendMessage_call options (render initialStore) "hola" None
    (sessionEnv "s1" 1) (messageEnv "u1" 2) initialHook.

End Sample.


(** ** Reading a store *)

Definition messagesOf (i : string) (st : Store) : option (list ChatMessage) :=
  option_map messages (findSession i (sessions st)).

Definition messageIds (l : list ChatMessage) : list string := map msg_id l.

Definition sumZ (l : list Z) : Z := fold_right Z.add 0 l.

(** The token counts found on the assistant messages of a session. *)
Definition assistantTokens (s : ChatSession) : list Z :=
  map tokensOrZero (filter (fun m => Role_eqb (role m) assistant) (messages s)).

(** Only assistant messages carry a token count. *)
Definition tokensOnAssistantOnly (s : ChatSession) : Prop :=
  forall m, In m (messages s) -> role m <> assistant -> tokens m = None.

(** The sessions [getTotalTokensUsed] adds up. *)
Definition selected (cl : Closure) (sessionId : option string) : list ChatSession :=
  match givenId sessionId with
  | Some i => filter (fun s => String.eqb (id s) i) (cl_sessions cl)
  | None => cl_sessions cl
  end.

(** ** Reading a call *)

(** The session a call of [sendMessage] works on: the resolved one, or
    the one it creates. *)
Definition targetOf (cl : Closure) (sessionId : option string) (se : SessionEnv) : ChatSession :=
  match resolveTarget cl sessionId with
  | Some t => t
  | None => newSession None se
  end.

(** The text of [errorData.error?.message] of a failure response, empty
    when the body gives none or is [null]. *)
Definition providerMessage (response : Response) : string :=
  match errorDataOf response with
  | ErrorObject errorData => orElse (join (error_message errorData)) ""
  | ErrorNull _ => ""
  end.

(** The body of the response is the JSON [null]. *)
Definition bodyIsNull (response : Response) : bool :=
  match json response with
  | JsonNull _ => true
  | _ => false
  end.


(** The name of the error that reaches the [catch] block of
    [sendMessage] for an answer, if one does. *)
Definition thrownName (r : FetchResult) : option string :=
  match r with
  | FetchRejected e => Some (err_name e)
  | FetchResolved response =>
      if negb (ok response) then Some (err_name (failureError response))
      else match json response with
           | JsonRejected e => Some (err_name e)
           | JsonNull _ => Some "TypeError"
           | JsonResolved data =>
               match choices data with
               | None => Some "TypeError"
               | Some _ => None
               end
           end
  end.

(** The answer makes [sendMessage] take its AbortError branch. *)
Definition isCancelled (r : FetchResult) : bool :=
  match thrownName r with
  | Some n => String.eqb n "AbortError"
  | None => false
  end.

(** ** Controllers and waiting calls *)

(** Controllers are numbered below the next one to be created, no two
    waiting calls share a controller, and a waiting call whose controller
    was not aborted is the one the ref holds. *)
Definition orderly (h : Hook) : Prop :=
  (forall p, In p (inflight h) -> (p_controller p < controllers h)%nat)
  /\ (forall c, In c (aborted h) -> (c < controllers h)%nat)
  /\ (forall c, abortControllerRef h = Some c -> (c < controllers h)%nat)
  /\ NoDup (map p_controller (inflight h))
  /\ (forall p, In p (inflight h) -> isAborted h (p_controller p) = false ->
        abortControllerRef h = Some (p_controller p)).

(** The whole answers to two waiting calls, one after the other: the values the
    two calls return, and the hook afterwards. *)
Definition answerBoth (engineMessage : string)
    (first second : nat * FetchResult * MessageEnv) (h : Hook)
  : option (option ChatMessage * option ChatMessage * Hook) :=
  let '(k1, r1, e1) := first in
  let '(k2, r2, e2) := second in
  match deliver engineMessage k1 r1 e1 h with
  | None => None
  | Some (res1, h1) =>
      match deliver engineMessage k2 r2 e2 h1 with
      | None => None
      | Some (res2, h2) => Some (res1, res2, h2)
      end
  end.

(** ** Dates that survive serialization *)

Definition messageDatesValid (m : ChatMessage) : bool := isTimeValue (timestamp m).

Definition sessionDatesValid (s : ChatSession) : bool :=
  isTimeValue (createdAt s) && isTimeValue (updatedAt s)
  && forallb messageDatesValid (messages s).

(** A session holding one exchange. *)
Definition answeredSession : ChatSession :=
  {| id := "s1"; title := "Chat 1/1/2025";
     messages :=
       [{| msg_id := "u1"; role := user; content := "hola";
           timestamp := ValidDate 1735689600000; tokens := None |};
        {| msg_id := "a1"; role := assistant; content := "uno";
           timestamp := ValidDate 1735689601500; tokens := Some 42 |}];
     createdAt := ValidDate 1735689600000; updatedAt := ValidDate 1735689601500 |}.

(** A stored session whose one message has a timestamp that is no date. *)
Definition foreignStored : StoredSession :=
  {| ss_id := "s1"; ss_title := "importada";
     ss_messages :=
       [{| sm_id := "m1"; sm_role := user; sm_content := "hola";
           sm_timestamp := Some "ayer"; sm_tokens := None |}];
     ss_createdAt := Some "0"; ss_updatedAt := Some "0" |}.

(** A session is created and a first message sent in it; the call has
    received a 429 response and reads its body when a second message is
    sent.  Every callback is the one of the latest render. *)
Definition supersededAtBody : Hook :=
  run Sample.options Sample.engineMessage
    [Ecreate None (Sample.sessionEnv "s1" 1);
     Esend "hola" None (Sample.sessionEnv "s2" 2) (Sample.messageEnv "u1" 2);
     Earrive 0%nat (FetchResolves {| h_ok := false; h_status := 429;
                                    h_statusText := "Too Many Requests" |})
       (Sample.messageEnv "a1" 3);
     Esend "otra" None (Sample.sessionEnv "s3" 4) (Sample.messageEnv "u2" 4)]
    initialHook.

(** ** Further readings of a store *)

(** The hook after [createNewSession] on a fresh hook, and after a first
    message sent from the render that follows. *)
Definition createdHook : Hook :=
  step Sample.options Sample.engineMessage (render initialStore)
    (Ecreate None (Sample.sessionEnv "s1" 1)) initialHook.

Definition createdThenSent : Hook :=
  sendMessage_call Sample.options (render (store createdHook)) "hola" None
    (Sample.sessionEnv "s2" 2) (Sample.messageEnv "u1" 2) createdHook.

(** The hook holds eleven sessions, the storage is full, and the
    timeout of the auto-save effect is pending. *)
Definition savingOnFullStorage : Saver :=
  {| sv_store := {| sessions := Sample.elevenOldestUsedLast;
                    currentSession := None; isLoading := false; error := None |};
     sv_storage := Sample.fullStorage;
     sv_console := []; sv_timeout := true |}.

(** The session a call resolves, when it resolves one, has its id in the
    set. *)
Definition targetInSet (cl : Closure) (sessionId : option string) (st : Store) : bool :=
  match resolveTarget cl sessionId with
  | Some t => hasId (id t) (sessions st)
  | None => true
  end.

(** The sessions whose id is not [i], in their order. *)
Definition others (i : string) (l : list ChatSession) : list ChatSession :=
  filter (fun s => negb (String.eqb (id s) i)) l.

Definition sessionIds_of (l : list ChatSession) : list string := map id l.

Definition sessionIds (st : Store) : list string := sessionIds_of (sessions st).


(** * The Angular service [ChatService]

    The service of src/examples/scala/build.sbt (the TypeScript part that
    starts with [import { Injectable } from '@angular/core']).  Its state
    is held in [BehaviorSubject]s whose [value] every method reads at the
    moment it runs; every method that changes the sessions writes them to
    [localStorage] at once. *)

Module ChatService.

(** What [sendMessage] returns: an observable that, each time it is
    subscribed to, posts [i_request] and handles the answer for the
    session [i_session] (the [session] of the call). *)
Record Issued : Type := mkIssued {
  i_session : string;
  i_request : Request
}.

(** The state of the service: the values of [_currentSession],
    [_sessions], [_isLoading] and [_error], the [localStorage] it writes
    to, the lines written by [console.error], and the observables
    [sendMessage] has returned so far. *)
Record Service : Type := mkService {
  _sessions : list ChatSession;
  _currentSession : option ChatSession;
  _isLoading : bool;
  _error : option string;
  localStorage : LocalStorage;
  console : list string;
  issued : list Issued
}.

(** An error as [handleError] inspects it: [error.error?.error?.message],
    [error.status] and [error.message]. *)
Record HttpFailure : Type := mkHttpFailure {
  hf_provider : option string;
  hf_status : option Z;
  hf_message : string
}.

Definition API_KEY : string := "your-openai-api-key".

(** The part of [handleError] that follows the test of the provider's
    message. *)
Definition byStatus (e : HttpFailure) : string :=
  match hf_status e with
  | Some 401 => "API key inválida o expirada"
  | Some 429 => "Límite de rate excedido. Intenta nuevamente en unos momentos"
  | Some 0 => "Error de conexión. Verifica tu conexión a internet"
  | _ => orElse (Some (hf_message e)) "Error desconocido"
  end.

Definition handleError (e : HttpFailure) : string :=
  match hf_provider e with
  | Some m => if String.eqb m "" then byStatus e else m
  | None => byStatus e
  end.

(** [sessionId ? this._sessions.value.find(...) : this._currentSession.value] *)
Definition resolved (sessionId : option string) (s : Service) : option ChatSession :=
  match givenId sessionId with
  | Some i => findSession i (_sessions s)
  | None => _currentSession s
  end.

Section Platform.

Variable toISOString : Z -> string.
Variable Date_parse : string -> Date.

Definition saveSessionsToStorage (s : Service) : Service :=
  match setItem (stringifySessions toISOString (_sessions s)) (localStorage s) with
  | (None, ls) =>
      {| _sessions := _sessions s; _currentSession := _currentSession s;
         _isLoading := _isLoading s; _error := _error s;
         localStorage := ls; console := console s; issued := issued s |}
  | (Some _, ls) =>
      {| _sessions := _sessions s; _currentSession := _currentSession s;
         _isLoading := _isLoading s; _error := _error s;
         localStorage := ls; console := (console s ++ [saveError])%list;
         issued := issued s |}
  end.

(** [this._sessions.next(l)] and [this._currentSession.next(c)] *)
Definition next (l : list ChatSession) (c : option ChatSession) (s : Service) : Service :=
  {| _sessions := l; _currentSession := c;
     _isLoading := _isLoading s; _error := _error s;
     localStorage := localStorage s; console := console s; issued := issued s |}.

Definition setFlags (loading : bool) (e : option string) (s : Service) : Service :=
  {| _sessions := _sessions s; _currentSession := _currentSession s;
     _isLoading := loading; _error := e;
     localStorage := localStorage s; console := console s; issued := issued s |}.

Definition loadSessionsFromStorage (s : Service) : Service :=
  match slot (localStorage s) with
  | None => s
  | Some (NotJson t) =>
      if String.eqb t "" then s
      else
        {| _sessions := []; _currentSession := _currentSession s;
           _isLoading := _isLoading s; _error := _error s;
           localStorage := localStorage s;
           console := (console s ++ [loadError])%list; issued := issued s |}
  | Some (JsonSession _) =>
      {| _sessions := []; _currentSession := _currentSession s;
         _isLoading := _isLoading s; _error := _error s;
         localStorage := localStorage s;
         console := (console s ++ [loadError])%list; issued := issued s |}
  | Some (JsonSessions l) =>
      next (map (reviveSession Date_parse) l) (_currentSession s) s
  end.

(** The service as its constructor leaves it, on a given storage. *)
Definition construct (ls : LocalStorage) : Service :=
  loadSessionsFromStorage
    {| _sessions := []; _currentSession := None; _isLoading := false; _error := None;
       localStorage := ls; console := []; issued := [] |}.

Definition createNewSession (t : option string) (se : SessionEnv) (s : Service)
  : ChatSession * Service :=
  let session := newSession t se in
  (session,
   saveSessionsToStorage (next (session :: _sessions s) (Some session) s)).

(** [{ ...currentSession, messages: [...currentSession.messages, message] }] *)
Definition appended (c : ChatSession) (m : ChatMessage) : ChatSession :=
  {| id := id c; title := title c; messages := messages c ++ [m];
     createdAt := createdAt c; updatedAt := updatedAt c |}.

Definition addMessageToSession (sessionId : string) (message : ChatMessage) (now : Z)
    (s : Service) : Service :=
  let sessions :=
    map (fun session => if String.eqb (id session) sessionId
                        then withMessage session message now else session)
        (_sessions s) in
  let current :=
    match _currentSession s with
    | Some c => if String.eqb (id c) sessionId then Some (appended c message) else Some c
    | None => None
    end in
  saveSessionsToStorage (next sessions current s).

(** [sendMessage], up to the observable it returns. *)
Definition sendMessage (content : string) (sessionId : option string)
    (se : SessionEnv) (me : MessageEnv) (s : Service) : Issued * Service :=
  let '(session, s0) :=
    match resolved sessionId s with
    | Some t => (t, s)
    | None => createNewSession None se s
    end in
  let s1 := addMessageToSession (id session) (userMessage content me) (me_updatedAt me) s0 in
  let s2 := setFlags true None s1 in
  let observable :=
    {| i_session := id session;
       i_request :=
         {| req_bearer := API_KEY; req_model := "gpt-3.5-turbo";
            req_messages := apiMessages session;
            req_max_tokens := 1000; req_temperature := (7 # 10)%Q;
            req_stream := false |} |} in
  (observable,
   {| _sessions := _sessions s2; _currentSession := _currentSession s2;
      _isLoading := _isLoading s2; _error := _error s2;
      localStorage := localStorage s2; console := console s2;
      issued := (issued s2 ++ [observable])%list |}).

(** The [catchError] of the pipe. *)
Definition sendMessage_catchError (i : Issued) (e : HttpFailure) (me : MessageEnv)
    (s : Service) : ChatMessage * Service :=
  let s1 := setFlags false (Some (handleError e)) s in
  let errorMessage :=
    {| msg_id := me_id me; role := assistant;
       content := "Error: " ++ handleError e;
       timestamp := ValidDate (me_timestamp me); tokens := None |} in
  (errorMessage, addMessageToSession (i_session i) errorMessage (me_updatedAt me) s1).

(** What the request of a subscription ends with: a 2xx body, or an
    error. *)
Inductive Outcome : Type :=
| Responds (data : JsonData)
| Fails (e : HttpFailure).

(** The pipe of the observable on one outcome: [map], [tap] and
    [catchError].  [engineMessage] is the text of the TypeError raised by
    [response.choices[0]] when [choices] is undefined. *)
Definition sendMessage_pipe (engineMessage : string) (i : Issued) (o : Outcome)
    (me : MessageEnv) (s : Service) : ChatMessage * Service :=
  match o with
  | Fails e => sendMessage_catchError i e me s
  | Responds data =>
      match choices data with
      | None =>
          sendMessage_catchError i
            {| hf_provider := None; hf_status := None; hf_message := engineMessage |} me s
      | Some cs =>
          let assistantMessage :=
            {| msg_id := me_id me; role := assistant;
               content := orElse (firstContent cs) "No response";
               timestamp := ValidDate (me_timestamp me);
               tokens := join (usage_total_tokens data) |} in
          let s1 := addMessageToSession (i_session i) assistantMessage (me_updatedAt me) s in
          (assistantMessage, setFlags false (_error s1) s1)
      end
  end.

Definition selectSession (sessionId : string) (s : Service) : Service :=
  match findSession sessionId (_sessions s) with
  | Some session => next (_sessions s) (Some session) s
  | None => s
  end.

Definition deleteSession (sessionId : string) (s : Service) : Service :=
  let sessions := filter (fun x => negb (String.eqb (id x) sessionId)) (_sessions s) in
  let s1 := next sessions (_currentSession s) s in
  let s2 :=
    if currentIs (_currentSession s) sessionId
    then next sessions (firstOrNull sessions) s1 else s1 in
  saveSessionsToStorage s2.

Definition clearSession (sessionId : string) (now : Z) (s : Service) : Service :=
  let sessions :=
    map (fun session => if String.eqb (id session) sessionId
                        then clearMessages now session else session)
        (_sessions s) in
  let current :=
    match _currentSession s with
    | Some c => if String.eqb (id c) sessionId then Some (emptied c) else Some c
    | None => None
    end in
  saveSessionsToStorage (next sessions current s).

(** The events of the service: a call of one of its methods, or an
    outcome reaching a subscription to the [k]-th observable returned. *)
Inductive Event : Type :=
| Ecreate (t : option string) (se : SessionEnv)
| Esend (content : string) (sessionId : option string) (se : SessionEnv) (me : MessageEnv)
| Eemit (k : nat) (o : Outcome) (me : MessageEnv)
| Eselect (sessionId : string)
| Edelete (sessionId : string)
| Eclear (sessionId : string) (now : Z).

Definition step (engineMessage : string) (e : Event) (s : Service) : Service :=
  match e with
  | Ecreate t se => snd (createNewSession t se s)
  | Esend content sessionId se me => snd (sendMessage content sessionId se me s)
  | Eemit k o me =>
      match nth_error (issued s) k with
      | Some i => snd (sendMessage_pipe engineMessage i o me s)
      | None => s
      end
  | Eselect i => selectSession i s
  | Edelete i => deleteSession i s
  | Eclear i now => clearSession i now s
  end.

Fixpoint run (engineMessage : string) (es : list Event) (s : Service) : Service :=
  match es with
  | [] => s
  | e :: rest => run engineMessage rest (step engineMessage e s)
  end.

End Platform.

(** The active copy shows the messages of the stored session of its id. *)
Definition inStep (s : Service) : Prop :=
  match _currentSession s with
  | Some c => option_map messages (findSession (id c) (_sessions s)) = Some (messages c)
  | None => True
  end.

(** The slot holds the JSON of the sessions. *)
Definition mirrored (toISOString : Z -> string) (s : Service) : Prop :=
  slot (localStorage s) = Some (stringifySessions toISOString (_sessions s)).

(** The storage accepts every write. *)
Definition accepting (s : Service) : Prop :=
  forall v, refuses (localStorage s) v = None.

(** The events that call a method which changes the sessions. *)
Definition changesSessions (s : Service) (e : Event) : bool :=
  match e with
  | Ecreate _ _ | Esend _ _ _ _ | Edelete _ | Eclear _ _ => true
  | Eemit k _ _ => match nth_error (issued s) k with Some _ => true | None => false end
  | Eselect _ => false
  end.

End ChatService.

(** A service with one stored session, which is the active one. *)
Definition sampleService : ChatService.Service :=
  {| ChatService._sessions := [answeredSession; Sample.plainSession "s0"];
     ChatService._currentSession := Some answeredSession;
     ChatService._isLoading := false; ChatService._error := None;
     ChatService.localStorage :=
       {| slot := None; refuses := fun _ => None; attempts := [] |};
     ChatService.console := []; ChatService.issued := [] |}.

(** * The Java class [CopilotExamples]

    The Java part of src/examples/react/README.md (the file that starts
    with [package com.example.copilot]). *)

Module CopilotExamples.

(** A Java [int] is a 32-bit integer in two's complement: arithmetic
    wraps around. *)
Definition wrap32 (z : Z) : Z := (z + 2147483648) mod 4294967296 - 2147483648.

Definition isInt (z : Z) : Prop := -2147483648 <= z <= 2147483647.

(** How a method that loops ends: with a value, with the
    ArithmeticException of a division by zero, or not within the steps
    allowed to the model. *)
Inductive Run (A : Type) : Type :=
| Done (a : A)
| ArithmeticException
| OutOfSteps.

Arguments Done {A} a.
Arguments ArithmeticException {A}.
Arguments OutOfSteps {A}.

(** [for (int i = ...; i * i <= n; i += 6) { if (n % i == 0 || n % (i + 2) == 0)
    return false; } return true;] with [%] the remainder of Java, which
    truncates. *)
Fixpoint isPrime_loop (steps : nat) (i n : Z) : Run bool :=
  match steps with
  | O => OutOfSteps
  | S steps' =>
      if wrap32 (i * i) <=? n then
        if i =? 0 then ArithmeticException
        else if Z.rem n i =? 0 then Done false
        else if wrap32 (i + 2) =? 0 then ArithmeticException
        else if Z.rem n (wrap32 (i + 2)) =? 0 then Done false
        else isPrime_loop steps' (wrap32 (i + 6)) n
      else Done true
  end.

Definition isPrime (steps : nat) (n : Z) : Run bool :=
  if n <=? 1 then Done false
  else if n <=? 3 then Done true
  else if (Z.rem n 2 =? 0) || (Z.rem n 3 =? 0) then Done false
  else isPrime_loop steps 5 n.

(** The square of 46337, the last value of [i] whose square is an
    [int]. *)
Definition squareLimit : Z := 2147117569.

Definition MAX_VALUE : Z := 2147483647.

(** Trial division by [d], [d + 1], ..., used to establish that a given
    number is prime; not part of the program. *)
Fixpoint noDivisorFrom (count : nat) (d n : Z) : bool :=
  match count with
  | O => true
  | S count' => negb (n mod d =? 0) && noDivisorFrom count' (d + 1) n
  end.

(** [class Book]; the ISBN is kept as given. *)
Record Book : Type := mkBook {
  book_title : string;
  book_author : string;
  book_isbn : string;
  book_year : Z
}.

Section Library.

(** [String.toLowerCase] of the platform. *)
Variable toLowerCase : string -> string.

(** [Book.matchesKeyword] *)
Definition matchesKeyword (b : Book) (keyword : string) : bool :=
  let lowerKeyword := toLowerCase keyword in
  includes lowerKeyword (toLowerCase (book_title b))
  || includes lowerKeyword (toLowerCase (book_author b)).

(** [Library.addBook] on the list of books: [books.add(book)]. *)
Definition addBook (b : Book) (books : list Book) : list Book := (books ++ [b])%list.

Definition getTotalBooks (books : list Book) : Z := Z.of_nat (List.length books).

(** [Library.searchByKeyword] *)
Definition searchByKeyword (books : list Book) (keyword : string) : list Book :=
  filter (fun book => matchesKeyword book keyword) books.

End Library.

(** [String.toLowerCase] on the letters of ASCII, for examples. *)
Definition lowerAscii (c : ascii) : ascii :=
  let n := nat_of_ascii c in
  if (65 <=? n)%nat && (n <=? 90)%nat then ascii_of_nat (n + 32) else c.

Fixpoint toLowerCaseAscii (s : string) : string :=
  match s with
  | EmptyString => EmptyString
  | String c rest => String (lowerAscii c) (toLowerCaseAscii rest)
  end.

Definition cleanCode : Book :=
  mkBook "Clean Code" "Robert C. Martin" "9780132350884" 2008.

Definition sicp : Book :=
  mkBook "Structure and Interpretation" "Abelson" "0262510871" 1996.

End CopilotExamples.
(** * Properties *)

Unset Implicit Arguments.

Lemma hasId_replaceSession (i : string) (u : ChatSession) (l : list ChatSession) :
  hasId i (replaceSession u l) = hasId i l.
Proof.
  induction l as [|s l IH]; simpl; [reflexivity|].
  rewrite IH. destruct (String.eqb (id s) (id u)) eqn:E; [|reflexivity].
  apply String.eqb_eq in E. rewrite E. reflexivity.
Qed.

Lemma findSession_some (i : string) (l : list ChatSession) (s : ChatSession) :
  findSession i l = Some s -> In s l /\ id s = i.
Proof.
  unfold findSession. intros H. apply find_some in H.
  destruct H as [Hin He]. apply String.eqb_eq in He. auto.
Qed.

Lemma hasId_In (s : ChatSession) (l : list ChatSession) :
  In s l -> hasId (id s) l = true.
Proof.
  intros H. unfold hasId. apply existsb_exists. exists s. split; [assumption|].
  apply String.eqb_refl.
Qed.

Lemma hasId_findSession (i : string) (l : list ChatSession) (s : ChatSession) :
  findSession i l = Some s -> hasId (id s) l = true.
Proof. intros H. apply findSession_some in H. apply hasId_In, H. Qed.

Lemma hasId_filter_other (i j : string) (l : list ChatSession) :
  String.eqb i j = false ->
  hasId i (filter (fun s => negb (String.eqb (id s) j)) l) = hasId i l.
Proof.
  intros Hij. induction l as [|s l IH]; simpl; [reflexivity|].
  destruct (String.eqb (id s) j) eqn:E; simpl.
  - rewrite IH. apply String.eqb_eq in E. rewrite E.
    rewrite String.eqb_sym, Hij. reflexivity.
  - rewrite IH. reflexivity.
Qed.

Lemma hasId_clear (i sessionId : string) (now : Z) (l : list ChatSession) :
  hasId i (map (fun session =>
                  if String.eqb (id session) sessionId
                  then clearMessages now session else session) l) = hasId i l.
Proof.
  induction l as [|s l IH]; simpl; [reflexivity|].
  rewrite IH. destruct (String.eqb (id s) sessionId); reflexivity.
Qed.

Lemma currentIs_id (c : option ChatSession) (i : string) :
  currentIs c i = true -> exists s, c = Some s /\ id s = i.
Proof.
  destruct c as [s|]; simpl; [|discriminate].
  intros H. apply String.eqb_eq in H. eauto.
Qed.

(** [putSession] keeps the reference inside the set when the session it
    writes is one of the set. *)
Lemma putSession_activeInSet (cur : option ChatSession) (u : ChatSession) (st : Store) :
  activeInSet st = true -> hasId (id u) (sessions st) = true ->
  activeInSet (putSession cur u st) = true.
Proof.
  intros Hinv Hu. unfold putSession.
  destruct (currentIs cur (id u)); unfold activeInSet; simpl.
  - rewrite hasId_replaceSession. exact Hu.
  - unfold activeInSet in Hinv. destruct (currentSession st); [|reflexivity].
    rewrite hasId_replaceSession. exact Hinv.
Qed.

Lemma putSession_sessions (cur : option ChatSession) (u : ChatSession) (st : Store) :
  sessions (putSession cur u st) = replaceSession u (sessions st).
Proof. unfold putSession. destruct (currentIs cur (id u)); reflexivity. Qed.

Lemma createNewSession_activeInSet (t : option string) (e : SessionEnv) (st : Store) :
  activeInSet (snd (createNewSession t e st)) = true.
Proof. unfold activeInSet. simpl. rewrite String.eqb_refl. reflexivity. Qed.

Lemma selectSession_activeInSet (i : string) (st : Store) :
  activeInSet st = true -> activeInSet (selectSession (render st) i st) = true.
Proof.
  intros Hinv. unfold selectSession. simpl.
  destruct (findSession i (sessions st)) as [s|] eqn:E; [|exact Hinv].
  unfold activeInSet. simpl. eapply hasId_findSession, E.
Qed.

Lemma deleteSession_activeInSet (i : string) (st : Store) :
  activeInSet st = true -> activeInSet (deleteSession (render st) i st) = true.
Proof.
  intros Hinv. unfold deleteSession. simpl.
  destruct (currentIs (currentSession st) i) eqn:E.
  - unfold activeInSet. simpl.
    destruct (filter _ (sessions st)) as [|s l] eqn:F; simpl; [reflexivity|].
    rewrite String.eqb_refl. reflexivity.
  - unfold activeInSet in *. simpl.
    destruct (currentSession st) as [c|]; [|reflexivity].
    simpl in E. rewrite hasId_filter_other; assumption.
Qed.

Lemma clearSession_activeInSet (i : string) (now : Z) (st : Store) :
  activeInSet st = true -> activeInSet (clearSession (render st) i now st) = true.
Proof.
  intros Hinv. unfold clearSession, activeInSet in *. simpl.
  destruct (currentIs (currentSession st) i); simpl;
    destruct (currentSession st) as [c|]; simpl; try reflexivity;
    rewrite hasId_clear; exact Hinv.
Qed.

Lemma resolveTarget_render_hasId (st : Store) (sessionId : option string) (t : ChatSession) :
  activeInSet st = true ->
  resolveTarget (render st) sessionId = Some t ->
  hasId (id t) (sessions st) = true.
Proof.
  intros Hinv. unfold resolveTarget. simpl.
  destruct (givenId sessionId) as [i|].
  - apply hasId_findSession.
  - intros E. unfold activeInSet in Hinv. rewrite E in Hinv. exact Hinv.
Qed.

(** The synchronous part of [sendMessage], called from the latest render,
    keeps the reference inside the set and leaves [updatedSession] in the
    set. *)
Lemma sendMessage_sync_activeInSet (content : string) (sessionId : option string)
    (se : SessionEnv) (me : MessageEnv) (st : Store) :
  activeInSet st = true ->
  activeInSet (snd (sendMessage_sync (render st) content sessionId se me st)) = true
  /\ hasId (id (fst (sendMessage_sync (render st) content sessionId se me st)))
           (sessions (snd (sendMessage_sync (render st) content sessionId se me st))) = true.
Proof.
  intros Hinv. unfold sendMessage_sync.
  destruct (resolveTarget (render st) sessionId) as [t|] eqn:E.
  - pose proof (resolveTarget_render_hasId st sessionId t Hinv E) as Ht.
    cbn [fst snd]. split.
    + apply putSession_activeInSet; [exact Hinv | exact Ht].
    + cbn [sessions setError setIsLoading].
      rewrite putSession_sessions, hasId_replaceSession. exact Ht.
  - cbn [fst snd createNewSession]. split.
    + apply (putSession_activeInSet (cl_currentSession (render st))).
      * apply (createNewSession_activeInSet None se st).
      * simpl. rewrite String.eqb_refl. reflexivity.
    + cbn [fst snd sessions setError setIsLoading].
      rewrite putSession_sessions, hasId_replaceSession. simpl.
      rewrite String.eqb_refl. reflexivity.
Qed.

Lemma sendMessage_catch_activeInSet (p : Pending) (e : JsError) (me : MessageEnv) (st : Store) :
  activeInSet st = true -> hasId (id (p_updated p)) (sessions st) = true ->
  activeInSet (snd (sendMessage_catch p e me st)) = true.
Proof.
  intros Hinv Hu. unfold sendMessage_catch.
  destruct (String.eqb (err_name e) "AbortError"); cbn [snd].
  - exact Hinv.
  - apply putSession_activeInSet; [exact Hinv | exact Hu].
Qed.

(** The resumed part keeps the reference inside the set as long as
    [updatedSession] is still one of the set when the answer arrives. *)
Lemma sendMessage_settle_activeInSet (em : string) (p : Pending) (r : FetchResult)
    (me : MessageEnv) (st : Store) :
  activeInSet st = true -> hasId (id (p_updated p)) (sessions st) = true ->
  activeInSet (snd (sendMessage_settle em p r me st)) = true.
Proof.
  intros Hinv Hu. unfold sendMessage_settle.
  destruct r as [e|resp]; [apply sendMessage_catch_activeInSet; assumption|].
  destruct (negb (ok resp)); [apply sendMessage_catch_activeInSet; assumption|].
  destruct (json resp) as [e|data|thrown];
    [apply sendMessage_catch_activeInSet; assumption|
    |apply sendMessage_catch_activeInSet; assumption].
  destruct (choices data) as [cs|]; [|apply sendMessage_catch_activeInSet; assumption].
  cbn [snd]. apply (putSession_activeInSet (p_current p)); assumption.
Qed.

(** The reference after [deleteSession] of the active session: the first
    session left, or none. *)
Lemma deleteSession_of_active (st : Store) (c : ChatSession) :
  currentSession st = Some c ->
  currentSession (deleteSession (render st) (id c) st)
  = hd_error (filter (fun s => negb (String.eqb (id s) (id c))) (sessions st)).
Proof.
  intros Hc. unfold deleteSession. simpl. rewrite Hc. simpl.
  rewrite String.eqb_refl. reflexivity.
Qed.

(** Every callback called from the latest render, and every exchange that
    no other event interrupts, keeps the reference inside the set. *)
Lemma uninterrupted_operations_keep_activeInSet (st : Store) :
  activeInSet st = true ->
  (forall t se, activeInSet (snd (createNewSession t se st)) = true)
  /\ (forall i, activeInSet (selectSession (render st) i st) = true)
  /\ (forall i, activeInSet (deleteSession (render st) i st) = true)
  /\ (forall i now, activeInSet (clearSession (render st) i now st) = true)
  /\ (forall content sessionId se me em c req r me',
        let '(u, st1) := sendMessage_sync (render st) content sessionId se me st in
        activeInSet st1 = true
        /\ activeInSet
             (snd (sendMessage_settle em
                     {| p_controller := c; p_current := currentSession st;
                        p_updated := u; p_request := req;
              p_head := None |} r me' st1)) = true).
Proof.
  intros Hinv. repeat split.
  - intros. apply createNewSession_activeInSet.
  - intros. apply selectSession_activeInSet, Hinv.
  - intros. apply deleteSession_activeInSet, Hinv.
  - intros. apply clearSession_activeInSet, Hinv.
  - intros content sessionId se me em c req r me'.
    pose proof (sendMessage_sync_activeInSet content sessionId se me st Hinv) as [H1 H2].
    destruct (sendMessage_sync (render st) content sessionId se me st) as [u st1].
    cbn [fst snd] in H1, H2. split; [exact H1|].
    apply sendMessage_settle_activeInSet; [exact H1 | exact H2].
Qed.

(** C3 (the code breaks the invariant): a session is created and made
    active, a message is sent, the session is deleted while the request is
    pending, and the answer arrives.  Before the answer the set is empty
    and no session is active; the resumed [sendMessage] then makes the
    deleted session the active one again, although it is not in the set. *)
Theorem answer_after_delete_restores_deleted_session :
  let h := run Sample.options Sample.engineMessage
             [Ecreate None (Sample.sessionEnv "s1" 1);
              Esend "hola" None (Sample.sessionEnv "s2" 2) (Sample.messageEnv "u1" 2);
              Edelete "s1"] initialHook in
  let h' := run Sample.options Sample.engineMessage
              (Sample.answer 0%nat (Sample.completion "respuesta" 42)
                 (Sample.messageEnv "a1" 3)) h in
  activeInSet (store h) = true
  /\ sessions (store h) = [] /\ currentSession (store h) = None
  /\ sessions (store h') = []
  /\ option_map id (currentSession (store h')) = Some "s1"
  /\ activeInSet (store h') = false.
Proof. vm_compute. repeat split; reflexivity. Qed.

(** The truncation of [saveSessionsToStorage] has the same defect: with
    eleven sessions, the eleventh active and the storage full, the ten
    first sessions are kept and the reference is left on the eleventh. *)
Lemma quota_truncation_leaves_reference_outside_set :
  let st := {| sessions := Sample.elevenSessions;
               currentSession := Some (Sample.plainSession "s11");
               isLoading := false; error := None |} in
  let st' := fst (fst (saveSessionsToStorage Sample.decimalDate (render st) st
                         Sample.fullStorage)) in
  activeInSet st = true
  /\ List.length (sessions st') = 10%nat
  /\ option_map id (currentSession st') = Some "s11"
  /\ activeInSet st' = false.
Proof. vm_compute. repeat split; reflexivity. Qed.

(** ** Token totals *)

Lemma fold_left_add_sumZ {A : Type} (f : A -> Z) (l : list A) (a : Z) :
  fold_left (fun acc x => acc + f x) l a = a + sumZ (map f l).
Proof.
  revert a. induction l as [|x l IH]; intros a; simpl.
  - unfold sumZ. simpl. lia.
  - rewrite IH. unfold sumZ. simpl. lia.
Qed.

Lemma sessionTokens_sum (s : ChatSession) :
  sessionTokens s = sumZ (map tokensOrZero (messages s)).
Proof. unfold sessionTokens. rewrite fold_left_add_sumZ. lia. Qed.

Lemma sessionTokens_assistant (s : ChatSession) :
  tokensOnAssistantOnly s -> sessionTokens s = sumZ (assistantTokens s).
Proof.
  rewrite sessionTokens_sum. unfold tokensOnAssistantOnly, assistantTokens.
  destruct s as [i t ms c u]. simpl.
  induction ms as [|m ms IH]; intros H; [reflexivity|].
  simpl. destruct (Role_eqb (role m) assistant) eqn:E; simpl.
  - unfold sumZ in *. simpl. rewrite IH; [reflexivity|].
    intros m' Hin. apply H. right. exact Hin.
  - assert (Hm : tokens m = None).
    { apply H; [left; reflexivity|]. intros R. rewrite R in E. discriminate. }
    unfold sumZ in *. simpl. unfold tokensOrZero at 1. rewrite Hm.
    rewrite IH; [reflexivity|]. intros m' Hin. apply H. right. exact Hin.
Qed.

(** [getTotalTokensUsed] adds, over the selected sessions, the token
    counts of their messages, a missing count being zero; where only
    assistant messages carry a count, that is the sum over the assistant
    messages. *)
Lemma getTotalTokensUsed_sum (cl : Closure) (sessionId : option string) :
  getTotalTokensUsed cl sessionId
  = sumZ (map (fun s => sumZ (map tokensOrZero (messages s))) (selected cl sessionId))
  /\ ((forall s, In s (selected cl sessionId) -> tokensOnAssistantOnly s) ->
      getTotalTokensUsed cl sessionId
      = sumZ (map (fun s => sumZ (assistantTokens s)) (selected cl sessionId))).
Proof.
  unfold getTotalTokensUsed. fold (selected cl sessionId).
  rewrite fold_left_add_sumZ. split.
  - rewrite Z.add_0_l. f_equal. apply map_ext. intros s. apply sessionTokens_sum.
  - intros H. rewrite Z.add_0_l. f_equal. apply map_ext_in.
    intros s Hin. apply sessionTokens_assistant, H, Hin.
Qed.

(** C8 (the code misses the total): on a fresh hook, a first message is
    sent and answered with 42 tokens, then a second one is sent and
    answered with 58 tokens, both without a session id.  The second call
    works on the copy that [createNewSession] left as current session,
    whose message list is still empty, and the session written back holds
    the second exchange only: the total is 42 after the first exchange
    and 58, not 100, after the second. *)
Theorem two_exchanges_total_58 :
  let first :=
    Esend "hola" None (Sample.sessionEnv "s1" 1) (Sample.messageEnv "u1" 2)
    :: Sample.answer 0%nat (Sample.completion "uno" 42) (Sample.messageEnv "a1" 3) in
  let second :=
    Esend "otra" None (Sample.sessionEnv "s2" 4) (Sample.messageEnv "u2" 5)
    :: Sample.answer 1%nat (Sample.completion "dos" 58) (Sample.messageEnv "a2" 6) in
  let h1 := run Sample.options Sample.engineMessage first initialHook in
  let h2 := run Sample.options Sample.engineMessage second h1 in
  map id (sessions (store h1)) = ["s1"]
  /\ getTotalTokensUsed (render (store h1)) (Some "s1") = 42
  /\ map id (sessions (store h2)) = ["s1"]
  /\ option_map messageIds (messagesOf "s1" (store h2)) = Some ["u2"; "a2"]
  /\ getTotalTokensUsed (render (store h2)) (Some "s1") = 58.
Proof. vm_compute. repeat split; reflexivity. Qed.

(** The same two exchanges on a session created beforehand by
    [createNewSession], whose copy as current session is kept up to date,
    give 100. *)
Lemma two_exchanges_total_100_after_createNewSession :
  let h := run Sample.options Sample.engineMessage
             (Ecreate None (Sample.sessionEnv "s1" 1)
              :: Esend "hola" None (Sample.sessionEnv "s2" 1) (Sample.messageEnv "u1" 2)
              :: Sample.answer 0%nat (Sample.completion "uno" 42) (Sample.messageEnv "a1" 3)
              ++ Esend "otra" None (Sample.sessionEnv "s3" 4) (Sample.messageEnv "u2" 5)
              :: Sample.answer 1%nat (Sample.completion "dos" 58) (Sample.messageEnv "a2" 6))%list
             initialHook in
  option_map messageIds (messagesOf "s1" (store h)) = Some ["u1"; "a1"; "u2"; "a2"]
  /\ getTotalTokensUsed (render (store h)) (Some "s1") = 100.
Proof. vm_compute. split; reflexivity. Qed.

(** ** The user message *)

(** Two calls made from the same render, the second before any answer:
    the second call starts from the same copy as the first, and the
    session it writes no longer holds the first user message. *)
Lemma second_call_from_same_render_drops_first_message :
  let h0 := run Sample.options Sample.engineMessage
              [Ecreate None (Sample.sessionEnv "s1" 1)] initialHook in
  let cl := render (store h0) in
  let h1 := sendMessage_call Sample.options cl "hola" None
              (Sample.sessionEnv "s2" 2) (Sample.messageEnv "u1" 2) h0 in
  let h2 := sendMessage_call Sample.options cl "otra" None
              (Sample.sessionEnv "s3" 3) (Sample.messageEnv "u2" 3) h1 in
  option_map messageIds (messagesOf "s1" (store h1)) = Some ["u1"]
  /\ option_map messageIds (messagesOf "s1" (store h2)) = Some ["u2"].
Proof. vm_compute. split; reflexivity. Qed.

(** C1 (the code drops earlier messages): after a first exchange on a
    fresh hook the session holds the user message and the answer, while
    the copy kept as current session is still empty.  The next call
    resolves that copy as its target: the session of the set is replaced
    by one holding the new user message alone, and the request carries
    that message alone. *)
Theorem second_send_replaces_earlier_messages :
  let h1 := run Sample.options Sample.engineMessage
              (Esend "hola" None (Sample.sessionEnv "s1" 1) (Sample.messageEnv "u1" 2)
               :: Sample.answer 0%nat (Sample.completion "uno" 42) (Sample.messageEnv "a1" 3))
              initialHook in
  let h2 := sendMessage_call Sample.options (render (store h1)) "otra" None
              (Sample.sessionEnv "s2" 4) (Sample.messageEnv "u2" 5) h1 in
  trim "otra" = "otra"
  /\ option_map messageIds (messagesOf "s1" (store h1)) = Some ["u1"; "a1"]
  /\ option_map messageIds (option_map messages (currentSession (store h1))) = Some []
  /\ option_map messageIds (messagesOf "s1" (store h2)) = Some ["u2"]
  /\ map (fun p => map api_content (req_messages (p_request p))) (inflight h2)
     = [["otra"]].
Proof. vm_compute. repeat split; reflexivity. Qed.

Lemma sendMessage_sync_updated (cl : Closure) (content : string) (sessionId : option string)
    (se : SessionEnv) (me : MessageEnv) (st : Store) :
  fst (sendMessage_sync cl content sessionId se me st)
  = withMessage (targetOf cl sessionId se) (userMessage content me) (me_updatedAt me).
Proof.
  unfold sendMessage_sync, targetOf.
  destruct (resolveTarget cl sessionId); reflexivity.
Qed.

Lemma sendMessage_sync_sessions (cl : Closure) (content : string) (sessionId : option string)
    (se : SessionEnv) (me : MessageEnv) (st : Store) :
  sessions (snd (sendMessage_sync cl content sessionId se me st))
  = replaceSession (fst (sendMessage_sync cl content sessionId se me st))
      (match resolveTarget cl sessionId with
       | Some _ => sessions st
       | None => newSession None se :: sessions st
       end).
Proof.
  unfold sendMessage_sync.
  destruct (resolveTarget cl sessionId);
    cbn [fst snd sessions setError setIsLoading createNewSession];
    rewrite putSession_sessions; reflexivity.
Qed.

Lemma sendMessage_sync_flags (cl : Closure) (content : string) (sessionId : option string)
    (se : SessionEnv) (me : MessageEnv) (st : Store) :
  isLoading (snd (sendMessage_sync cl content sessionId se me st)) = true
  /\ error (snd (sendMessage_sync cl content sessionId se me st)) = None.
Proof.
  unfold sendMessage_sync. destruct (resolveTarget cl sessionId); split; reflexivity.
Qed.

Lemma apiMessages_withMessage (t : ChatSession) (m : ChatMessage) (now : Z) :
  apiMessages (withMessage t m now)
  = (apiMessages t ++ [{| api_role := role m; api_content := content m |}])%list.
Proof. unfold apiMessages. simpl. rewrite map_app. reflexivity. Qed.

(** The [catch] block, for an error that is not an AbortError. *)
Lemma sendMessage_catch_appends (p : Pending) (e : JsError) (me : MessageEnv) (st : Store) :
  String.eqb (err_name e) "AbortError" = false ->
  exists m,
    fst (sendMessage_catch p e me st) = Some m
    /\ role m = assistant
    /\ content m = "Error: " ++ handleApiError e
    /\ sessions (snd (sendMessage_catch p e me st))
       = replaceSession (withMessage (p_updated p) m (me_updatedAt me)) (sessions st)
    /\ isLoading (snd (sendMessage_catch p e me st)) = false
    /\ error (snd (sendMessage_catch p e me st)) = Some (handleApiError e).
Proof.
  intros H. unfold sendMessage_catch. rewrite H. cbv zeta. cbn [fst snd].
  eexists. split; [reflexivity|]. rewrite putSession_sessions.
  unfold putSession. destruct (currentIs _ _); repeat split; reflexivity.
Qed.

(** An answer that is not a cancellation makes the resumed call append
    one assistant message to its [updatedSession], write the result over
    the sessions of that id, and return the message. *)
Lemma sendMessage_settle_appends (em : string) (p : Pending) (r : FetchResult)
    (me : MessageEnv) (st : Store) :
  isCancelled r = false ->
  exists m,
    fst (sendMessage_settle em p r me st) = Some m
    /\ role m = assistant
    /\ sessions (snd (sendMessage_settle em p r me st))
       = replaceSession (withMessage (p_updated p) m (me_updatedAt me)) (sessions st)
    /\ isLoading (snd (sendMessage_settle em p r me st)) = false.
Proof.
  assert (C : forall e, String.eqb (err_name e) "AbortError" = false ->
    exists m,
      fst (sendMessage_catch p e me st) = Some m
      /\ role m = assistant
      /\ sessions (snd (sendMessage_catch p e me st))
         = replaceSession (withMessage (p_updated p) m (me_updatedAt me)) (sessions st)
      /\ isLoading (snd (sendMessage_catch p e me st)) = false).
  { intros e He. destruct (sendMessage_catch_appends p e me st He)
      as (m & H1 & H2 & _ & H4 & H5 & _). exists m. auto. }
  unfold isCancelled, thrownName, sendMessage_settle.
  destruct r as [e|resp]; [apply C|].
  destruct (negb (ok resp)); [apply C|].
  destruct (json resp) as [e|data|thrown]; [apply C| |intros _; apply C; reflexivity].
  destruct (choices data) as [cs|]; [|intros _; apply C; reflexivity].
  intros _. cbv zeta. cbn [fst snd sessions isLoading setIsLoading].
  eexists. split; [reflexivity|]. rewrite putSession_sessions.
  repeat split.
Qed.

(** A cancellation leaves the sessions as they are and returns nothing. *)
Lemma sendMessage_settle_cancelled (em : string) (p : Pending) (r : FetchResult)
    (me : MessageEnv) (st : Store) :
  isCancelled r = true ->
  sendMessage_settle em p r me st = (None, setIsLoading false st).
Proof.
  unfold isCancelled, thrownName, sendMessage_settle, sendMessage_catch.
  destruct r as [e|resp].
  - intros H. rewrite H. reflexivity.
  - destruct (negb (ok resp)); [intros H; rewrite H; reflexivity|].
    destruct (json resp) as [e|data|thrown].
    + intros H. rewrite H. reflexivity.
    + destruct (choices data); simpl; discriminate.
    + simpl. discriminate.
Qed.

Lemma findSession_replaceSession (u : ChatSession) (l : list ChatSession) :
  findSession (id u) l <> None -> findSession (id u) (replaceSession u l) = Some u.
Proof.
  unfold findSession, replaceSession.
  induction l as [|s l IH]; simpl; [intros H; contradiction H; reflexivity|].
  destruct (String.eqb (id s) (id u)) eqn:E; simpl.
  - rewrite String.eqb_refl. reflexivity.
  - rewrite E. exact IH.
Qed.


(** ** Content that is blank *)


(** ** Failures of the remote call *)

Lemma includes_429_statusLine (text : string) :
  includes "429" ("HTTP " ++ Z_toString 429 ++ ": " ++ text) = true.
Proof. reflexivity. Qed.

Lemma includes_API_key_statusLine (text : string) :
  includes "API key" ("HTTP " ++ Z_toString 429 ++ ": " ++ text)
  = includes "API key" text.
Proof. reflexivity. Qed.

(** C5 (counterexample): a 429 answer whose body carries an error message
    of the provider.  The appended message and the error state carry that
    message, not the rate-limit string. *)
Lemma status_429_with_provider_message :
  let r := Sample.failureWith 429 "Too Many Requests" "Rate limit reached for requests" in
  let res := deliver Sample.engineMessage 0%nat r (Sample.messageEnv "a1" 3)
               Sample.firstCall in
  option_map (fun x => option_map content (fst x)) res
    = Some (Some "Error: Rate limit reached for requests")
  /\ option_map (fun x => error (store (snd x))) res
    = Some (Some "Rate limit reached for requests")
  /\ "Error: Rate limit reached for requests" <> "Error: " ++ rateLimitMessage
  /\ "Rate limit reached for requests" <> rateLimitMessage.
Proof. vm_compute. repeat split; try reflexivity; discriminate. Qed.

Lemma orElse_empty (a : option string) (b : string) :
  orElse a "" = "" -> orElse a b = b.
Proof.
  unfold orElse. destruct a as [x|]; [|reflexivity].
  destruct (String.eqb x "") eqn:E; [reflexivity|].
  intros H. subst x. discriminate.
Qed.

Lemma orElse_nonempty (a : option string) (b : string) :
  orElse a "" <> "" -> orElse a b = orElse a "".
Proof.
  unfold orElse. destruct a as [x|]; [|intros H; exfalso; apply H; reflexivity].
  destruct (String.eqb x ""); [intros H; exfalso; apply H; reflexivity | reflexivity].
Qed.

(** What the failure branch throws for a body that is not [null]: an
    Error carrying the provider's message, or the status line when the
    body gives none. *)
Lemma failureError_message (response : Response) :
  bodyIsNull response = false ->
  err_name (failureError response) = "Error"
  /\ (providerMessage response = "" ->
      err_message (failureError response) = statusLine response)
  /\ (providerMessage response <> "" ->
      err_message (failureError response) = providerMessage response).
Proof.
  unfold bodyIsNull, failureError, providerMessage, errorDataOf.
  destruct (json response) as [e|data|thrown]; [| |discriminate]; intros _;
    (split; [reflexivity|]); cbn [err_message]; split;
    solve [apply orElse_empty | apply orElse_nonempty].
Qed.

(** An Error whose message names no cause that [handleApiError] knows is
    reported by its message. *)
Lemma handleApiError_plain (m : string) :
  m <> "" ->
  includes "API key" m = false -> includes "429" m = false ->
  includes "insufficient_quota" m = false ->
  handleApiError {| err_name := "Error"; err_message := m |} = m.
Proof.
  intros Hm H1 H2 H3. unfold handleApiError. cbn [err_message err_name].
  rewrite H1, H2, H3. cbn [String.eqb andb].
  change ("Error" =? "TypeError")%string with false. cbn [andb].
  unfold orElse. destruct (String.eqb m "") eqn:E; [|reflexivity].
  apply String.eqb_eq in E. contradiction.
Qed.

(** C5 (amended): for an answer with status 429 whose body is not the JSON
    [null], the call appends an assistant message and writes it over the
    sessions of its target.  When the body gives no error message (it is
    unreadable, or has no [error.message], or an empty one) and the status
    text does not contain [API key], the message is [Error: ] followed by
    the rate-limit string, the rate-limit string is recorded as the error
    of the store, and neither is the unknown-error string.  When the body
    gives an error message, the message is [Error: ] followed by what
    [handleApiError] makes of the provider's text, which is also recorded
    as the error: the provider's text itself, unless it contains
    [API key], [429] or [insufficient_quota]. *)
Theorem status_429_without_body_message (em : string) (p : Pending) (response : Response)
    (me : MessageEnv) (st : Store) :
  ok response = false ->
  status response = 429 ->
  bodyIsNull response = false ->
  let out := sendMessage_settle em p (FetchResolved response) me st in
  exists m,
    fst out = Some m
    /\ role m = assistant
    /\ sessions (snd out)
       = replaceSession (withMessage (p_updated p) m (me_updatedAt me)) (sessions st)
    /\ (providerMessage response = "" ->
        includes "API key" (statusText response) = false ->
        content m = "Error: " ++ rateLimitMessage
        /\ error (snd out) = Some rateLimitMessage
        /\ content m <> "Error: " ++ unknownErrorMessage
        /\ rateLimitMessage <> unknownErrorMessage)
    /\ (providerMessage response <> "" ->
        let text := handleApiError {| err_name := "Error";
                                      err_message := providerMessage response |} in
        content m = "Error: " ++ text
        /\ error (snd out) = Some text
        /\ (includes "API key" (providerMessage response) = false ->
            includes "429" (providerMessage response) = false ->
            includes "insufficient_quota" (providerMessage response) = false ->
            text = providerMessage response)).
Proof.
  intros Hok Hstatus Hnull out.
  destruct (failureError_message response Hnull) as (Hname & Hnone & Hsome).
  assert (Hout : out = sendMessage_catch p (failureError response) me st).
  { unfold out, sendMessage_settle. rewrite Hok. reflexivity. }
  assert (Hshape : failureError response
                   = {| err_name := "Error";
                        err_message := err_message (failureError response) |}).
  { destruct (failureError response) as [n t]. cbn in Hname |- *. rewrite Hname.
    reflexivity. }
  destruct (sendMessage_catch_appends p (failureError response) me st)
    as (m & H1 & H2 & H3 & H4 & _ & H6); [rewrite Hname; reflexivity|].
  rewrite <- Hout in H1, H4, H6.
  exists m. split; [exact H1|]. split; [exact H2|]. split; [exact H4|]. split.
  - intros Hbody Hkey.
    assert (Hh : handleApiError (failureError response) = rateLimitMessage).
    { rewrite Hshape, (Hnone Hbody). unfold handleApiError, statusLine.
      cbn [err_message]. rewrite Hstatus, includes_API_key_statusLine, Hkey,
        includes_429_statusLine. reflexivity. }
    rewrite Hh in H3, H6. split; [exact H3|]. split; [exact H6|].
    split; [rewrite H3; vm_compute; discriminate | vm_compute; discriminate].
  - intros Hbody text.
    assert (Hh : handleApiError (failureError response) = text).
    { rewrite Hshape, (Hsome Hbody). reflexivity. }
    rewrite Hh in H3, H6. split; [exact H3|]. split; [exact H6|].
    intros K1 K2 K3. apply handleApiError_plain; assumption.
Qed.

Lemma status_429_without_body_message_witness :
  exists m,
    fst (sendMessage_settle Sample.engineMessage
           {| p_controller := 0%nat; p_current := None;
              p_updated := Sample.plainSession "s1";
              p_request := buildRequest Sample.options (Sample.plainSession "s1");
              p_head := None |}
           (Sample.failure 429 "Too Many Requests") (Sample.messageEnv "a1" 3)
           initialStore) = Some m
    /\ content m = "Error: " ++ rateLimitMessage.
Proof.
  destruct (status_429_without_body_message Sample.engineMessage
              {| p_controller := 0%nat; p_current := None;
                 p_updated := Sample.plainSession "s1";
                 p_request := buildRequest Sample.options (Sample.plainSession "s1");
              p_head := None |}
              {| ok := false; status := 429; statusText := "Too Many Requests";
                 json := JsonRejected {| err_name := "SyntaxError";
                                         err_message := "Unexpected end of JSON input" |} |}
              (Sample.messageEnv "a1" 3) initialStore
              eq_refl eq_refl eq_refl)
    as (m & H1 & _ & _ & H4 & _).
  exists m. split; [exact H1 | exact (proj1 (H4 eq_refl eq_refl))].
Defined.

(** A 429 answer whose body is the JSON [null]: reading [errorData.error]
    throws, and the call appends and records the engine's text for that
    TypeError, not the rate-limit string. *)
Lemma status_429_with_null_body :
  let res := deliver Sample.engineMessage 0%nat (Sample.failureNull 429 "Too Many Requests")
               (Sample.messageEnv "a1" 3) Sample.firstCall in
  option_map (fun x => option_map content (fst x)) res
    = Some (Some "Error: Cannot read properties of null (reading 'error')")
  /\ option_map (fun x => error (store (snd x))) res
    = Some (Some "Cannot read properties of null (reading 'error')").
Proof. vm_compute. split; reflexivity. Qed.




(** ** One request at a time *)

Lemma isAborted_In (h : Hook) (c : nat) : isAborted h c = true <-> In c (aborted h).
Proof.
  unfold isAborted. rewrite existsb_exists. split.
  - intros (x & Hin & E). apply Nat.eqb_eq in E. subst. exact Hin.
  - intros Hin. exists c. split; [exact Hin | apply Nat.eqb_refl].
Qed.

Lemma isAborted_fresh (h : Hook) (c : nat) :
  (forall x, In x (aborted h) -> (x < c)%nat) -> isAborted h c = false.
Proof.
  intros H. destruct (isAborted h c) eqn:E; [|reflexivity].
  apply isAborted_In in E. apply H in E. lia.
Qed.

Lemma NoDup_map_filter {A B : Type} (f : A -> B) (g : A -> bool) (l : list A) :
  NoDup (map f l) -> NoDup (map f (filter g l)).
Proof.
  induction l as [|x l IH]; simpl; intros H; [constructor|].
  inversion H as [|? ? Hnot Hnd]; subst.
  destruct (g x); simpl; [|apply IH, Hnd].
  constructor; [|apply IH, Hnd].
  intros Hin. apply Hnot. apply in_map_iff in Hin. destruct Hin as (y & Hy & Hin).
  apply filter_In in Hin. apply in_map_iff. exists y. tauto.
Qed.

(** Among pairwise different keys at most one equals a given key. *)
Lemma at_most_one_with_key {A : Type} (f : A -> nat) (g : A -> bool) (c : nat)
    (l : list A) :
  NoDup (map f l) ->
  (forall p, In p l -> g p = true -> f p = c) ->
  (List.length (filter g l) <= 1)%nat.
Proof.
  induction l as [|x l IH]; simpl; intros Hnd H; [lia|].
  inversion Hnd as [|? ? Hnot Hnd']; subst.
  destruct (g x) eqn:E.
  - assert (Hnil : filter g l = []).
    { destruct (filter g l) as [|y l'] eqn:F; [reflexivity|]. exfalso.
      assert (Hy : In y (filter g l)) by (rewrite F; left; reflexivity).
      apply filter_In in Hy. destruct Hy as [Hy Hg].
      apply Hnot. apply in_map_iff. exists y. split; [|exact Hy].
      rewrite (H x), (H y); auto. }
    rewrite Hnil. simpl. lia.
  - apply IH; [exact Hnd'|]. intros p Hp. apply H. right. exact Hp.
Qed.

Lemma orderly_initialHook : orderly initialHook.
Proof.
  unfold orderly, initialHook. simpl. repeat split; try contradiction.
  - intros c H. discriminate.
  - constructor.
Qed.

Lemma orderly_withStore (st : Store) (h : Hook) : orderly h -> orderly (withStore st h).
Proof. unfold orderly, withStore, isAborted. simpl. tauto. Qed.

Section MachineFacts.

Variable options : Options.
Variable engineMessage : string.

Lemma sendMessage_call_fields (cl : Closure) (content : string) (sessionId : option string)
    (se : SessionEnv) (me : MessageEnv) (h : Hook) :
  let h' := sendMessage_call options cl content sessionId se me h in
  let u := withMessage (targetOf cl sessionId se) (userMessage content me) (me_updatedAt me) in
  abortControllerRef h' = Some (controllers h)
  /\ aborted h' = abortPrevious h
  /\ inflight h'
     = (inflight h ++ [{| p_controller := controllers h; p_current := cl_currentSession cl;
                          p_updated := u; p_request := buildRequest options u;
              p_head := None |}])%list
  /\ controllers h' = S (controllers h)
  /\ store h' = snd (sendMessage_sync cl content sessionId se me (store h)).
Proof.
  cbv zeta. unfold sendMessage_call.
  rewrite <- (sendMessage_sync_updated cl content sessionId se me (store h)).
  destruct (sendMessage_sync cl content sessionId se me (store h)) as [u st1].
  repeat split.
Qed.

Lemma abortPrevious_below (h : Hook) (c : nat) :
  orderly h -> In c (abortPrevious h) -> (c < controllers h)%nat.
Proof.
  intros (_ & Ha & Hr & _) Hin. unfold abortPrevious in Hin.
  destruct (abortControllerRef h) as [r|] eqn:E.
  - destruct Hin as [<-|Hin]; [apply Hr; reflexivity | apply Ha, Hin].
  - apply Ha, Hin.
Qed.

Lemma orderly_sendMessage_call (cl : Closure) (content : string) (sessionId : option string)
    (se : SessionEnv) (me : MessageEnv) (h : Hook) :
  orderly h -> orderly (sendMessage_call options cl content sessionId se me h).
Proof.
  intros Ho.
  destruct (sendMessage_call_fields cl content sessionId se me h)
    as (Hr & Ha & Hi & Hc & _).
  pose proof Ho as (H1 & H2 & H3 & H4 & H5).
  unfold orderly. rewrite Hr, Hi, Hc.
  split; [|split; [|split; [|split]]].
  - intros p Hp. apply in_app_or in Hp. destruct Hp as [Hp|[<-|[]]].
    + apply H1 in Hp. lia.
    + simpl. lia.
  - intros c Hin. rewrite Ha in Hin. apply (abortPrevious_below h c Ho) in Hin. lia.
  - intros c [= <-]. lia.
  - rewrite map_app. simpl.
    apply NoDup_app.
    + exact H4.
    + constructor; [intros []|constructor].
    + intros x Hx [E|[]]. apply in_map_iff in Hx. destruct Hx as (p & Ep & Hp).
      apply H1 in Hp. lia.
  - intros p Hp Hlive. apply in_app_or in Hp. destruct Hp as [Hp|[<-|[]]]; [|reflexivity].
    exfalso.
    assert (Hn : isAborted h (p_controller p) = false).
    { destruct (isAborted h (p_controller p)) eqn:E; [|reflexivity].
      apply isAborted_In in E.
      assert (In (p_controller p)
                 (aborted (sendMessage_call options cl content sessionId se me h))).
      { rewrite Ha. unfold abortPrevious. destruct (abortControllerRef h); [right|]; exact E. }
      apply isAborted_In in H. rewrite H in Hlive. discriminate. }
    specialize (H5 p Hp Hn).
    assert (In (p_controller p)
               (aborted (sendMessage_call options cl content sessionId se me h))).
    { rewrite Ha. unfold abortPrevious. rewrite H5. left. reflexivity. }
    apply isAborted_In in H. rewrite H in Hlive. discriminate.
Qed.

Lemma orderly_finish (p : Pending) (r : FetchResult) (me : MessageEnv) (h : Hook) :
  orderly h -> orderly (snd (finish engineMessage p r me h)).
Proof.
  intros (H1 & H2 & H3 & H4 & H5). unfold finish.
  destruct (sendMessage_settle engineMessage p r me (store h)) as [x st1].
  unfold orderly, isAborted. simpl.
  split; [|split; [|split; [|split]]].
  - intros q Hq. apply filter_In in Hq. apply H1, Hq.
  - exact H2.
  - exact H3.
  - apply NoDup_map_filter, H4.
  - intros q Hq. apply filter_In in Hq. apply H5, Hq.
Qed.

Lemma map_controller_withHead (k : nat) (hd : ResponseHead) (l : list Pending) :
  map p_controller
      (map (fun q => if Nat.eqb (p_controller q) k then withHead hd q else q) l)
  = map p_controller l.
Proof.
  rewrite map_map. apply map_ext. intros q.
  destruct (Nat.eqb (p_controller q) k); reflexivity.
Qed.

Lemma orderly_waitForBody (p : Pending) (hd : ResponseHead) (h : Hook) :
  orderly h -> orderly (snd (waitForBody p hd h)).
Proof.
  intros (H1 & H2 & H3 & H4 & H5). unfold waitForBody, orderly, isAborted. simpl.
  assert (Hin : forall q,
             In q (map (fun q => if Nat.eqb (p_controller q) (p_controller p)
                                 then withHead hd q else q) (inflight h)) ->
             exists q0, In q0 (inflight h) /\ p_controller q = p_controller q0).
  { intros q Hq. apply in_map_iff in Hq. destruct Hq as (q0 & E & Hq0).
    exists q0. split; [exact Hq0|]. subst q.
    destruct (Nat.eqb (p_controller q0) (p_controller p)); reflexivity. }
  split; [|split; [|split; [|split]]].
  - intros q Hq. destruct (Hin q Hq) as (q0 & Hq0 & E). rewrite E. apply H1, Hq0.
  - exact H2.
  - exact H3.
  - rewrite map_controller_withHead. exact H4.
  - intros q Hq. destruct (Hin q Hq) as (q0 & Hq0 & E). rewrite E. apply H5, Hq0.
Qed.

Lemma orderly_sendMessage_resume_all (k : nat) (a : Arrival) (me : MessageEnv) (h : Hook) :
  orderly h ->
  match sendMessage_resume engineMessage k a me h with
  | Some (_, h') => orderly h'
  | None => True
  end.
Proof.
  intros Ho.
  assert (F : forall p r, orderly (snd (finish engineMessage p r me h)))
    by (intros; apply orderly_finish, Ho).
  assert (W : forall p hd, orderly (snd (waitForBody p hd h)))
    by (intros; apply orderly_waitForBody, Ho).
  unfold sendMessage_resume.
  destruct (pendingOf k h) as [p|]; [|exact I].
  destruct (p_head p) as [hd|]; destruct a as [e|hd'|j]; try exact I.
  - specialize (F p (FetchResolved
                       (responseOf hd (if isAborted h (p_controller p)
                                       then JsonRejected abortError else j)))).
    destruct (finish engineMessage p _ me h) as [pr h']. exact F.
  - specialize (F p (FetchRejected (if isAborted h (p_controller p)
                                    then abortError else e))).
    destruct (finish engineMessage p _ me h) as [pr h']. exact F.
  - destruct (isAborted h (p_controller p)).
    + specialize (F p (FetchRejected abortError)).
      destruct (finish engineMessage p _ me h) as [pr h']. exact F.
    + specialize (W p hd').
      destruct (waitForBody p hd' h) as [pr h']. exact W.
Qed.

Lemma orderly_sendMessage_resume (k : nat) (a : Arrival) (me : MessageEnv)
    (h : Hook) (pr : Progress) (h' : Hook) :
  orderly h -> sendMessage_resume engineMessage k a me h = Some (pr, h') -> orderly h'.
Proof.
  intros Ho E. pose proof (orderly_sendMessage_resume_all k a me h Ho) as H.
  rewrite E in H. exact H.
Qed.

Lemma orderly_step (cl : Closure) (e : Event) (h : Hook) :
  orderly h -> orderly (step options engineMessage cl e h).
Proof.
  intros Ho. destruct e; simpl; try (apply orderly_withStore, Ho).
  - apply orderly_sendMessage_call, Ho.
  - destruct (sendMessage_resume engineMessage k a me h) as [[pr h']|] eqn:E;
      [|exact Ho].
    eapply orderly_sendMessage_resume; eauto.
Qed.

Lemma reachable_orderly (h : Hook) : reachable options engineMessage h -> orderly h.
Proof.
  induction 1 as [|h cl e _ IH]; [apply orderly_initialHook | apply orderly_step, IH].
Qed.

(** In an orderly hook at most one waiting call has a controller that
    was not aborted. *)
Lemma orderly_one_live (h : Hook) : orderly h -> (List.length (liveRequests h) <= 1)%nat.
Proof.
  intros (_ & _ & _ & Hnd & H5). unfold liveRequests.
  destruct (abortControllerRef h) as [c|] eqn:E.
  - apply (at_most_one_with_key p_controller _ c); [exact Hnd|].
    intros p Hp Hlive. apply negb_true_iff in Hlive.
    specialize (H5 p Hp Hlive). congruence.
  - apply (at_most_one_with_key p_controller _ 0%nat); [exact Hnd|].
    intros p Hp Hlive. apply negb_true_iff in Hlive.
    specialize (H5 p Hp Hlive). discriminate.
Qed.

End MachineFacts.

Lemma find_filter_implied {A : Type} (f g : A -> bool) (l : list A) :
  (forall x, f x = true -> g x = true) -> find f (filter g l) = find f l.
Proof.
  intros H. induction l as [|x l IH]; simpl; [reflexivity|].
  destruct (g x) eqn:G; simpl.
  - rewrite IH. reflexivity.
  - destruct (f x) eqn:F; [|exact IH]. apply H in F. congruence.
Qed.

Lemma find_app_skip {A : Type} (f : A -> bool) (l l' : list A) :
  (forall x, In x l -> f x = false) -> find f (l ++ l') = find f l'.
Proof.
  intros H. induction l as [|x l IH]; simpl; [reflexivity|].
  rewrite (H x (or_introl eq_refl)). apply IH. intros y Hy. apply H. right. exact Hy.
Qed.

(** What the resumed call returns does not depend on the state it finds. *)
Lemma sendMessage_settle_result (em : string) (p : Pending) (r : FetchResult)
    (me : MessageEnv) (st st' : Store) :
  fst (sendMessage_settle em p r me st) = fst (sendMessage_settle em p r me st').
Proof.
  assert (C : forall e, fst (sendMessage_catch p e me st) = fst (sendMessage_catch p e me st')).
  { intros e. unfold sendMessage_catch.
    destruct (String.eqb (err_name e) "AbortError"); reflexivity. }
  unfold sendMessage_settle. destruct r as [e|resp]; [apply C|].
  destruct (negb (ok resp)); [apply C|].
  destruct (json resp) as [e|data|thrown]; [apply C| |apply C].
  destruct (choices data); [reflexivity | apply C].
Qed.

Lemma pendingOf_controller (k : nat) (h : Hook) (p : Pending) :
  pendingOf k h = Some p -> p_controller p = k.
Proof.
  unfold pendingOf. intros H. apply find_some in H. destruct H as [_ H].
  apply Nat.eqb_eq, H.
Qed.

Lemma sendMessage_settle_withHead (em : string) (hd : ResponseHead) (p : Pending)
    (r : FetchResult) (me : MessageEnv) (st : Store) :
  sendMessage_settle em (withHead hd p) r me st = sendMessage_settle em p r me st.
Proof. reflexivity. Qed.

Lemma find_withHead (k : nat) (hd : ResponseHead) (l : list Pending) :
  find (fun p => Nat.eqb (p_controller p) k)
       (map (fun q => if Nat.eqb (p_controller q) k then withHead hd q else q) l)
  = option_map (withHead hd) (find (fun p => Nat.eqb (p_controller p) k) l).
Proof.
  induction l as [|q l IH]; simpl; [reflexivity|].
  destruct (Nat.eqb (p_controller q) k) eqn:E; simpl; rewrite E; [reflexivity | exact IH].
Qed.

Lemma filter_withHead (k : nat) (hd : ResponseHead) (l : list Pending) :
  filter (fun q => negb (Nat.eqb (p_controller q) k))
         (map (fun q => if Nat.eqb (p_controller q) k then withHead hd q else q) l)
  = filter (fun q => negb (Nat.eqb (p_controller q) k)) l.
Proof.
  induction l as [|q l IH]; simpl; [reflexivity|].
  destruct (Nat.eqb (p_controller q) k) eqn:E; simpl; rewrite E; simpl; rewrite IH;
    reflexivity.
Qed.

Lemma responseOf_head (response : Response) :
  responseOf {| h_ok := ok response; h_status := status response;
                h_statusText := statusText response |} (json response) = response.
Proof. destruct response; reflexivity. Qed.

Section TwoCalls.

Variable engineMessage : string.

Lemma finish_unfold (p : Pending) (r : FetchResult) (me : MessageEnv) (h : Hook) :
  finish engineMessage p r me h
  = (Returned (fst (sendMessage_settle engineMessage p r me (store h))),
     {| store := snd (sendMessage_settle engineMessage p r me (store h));
        abortControllerRef := abortControllerRef h;
        aborted := aborted h;
        inflight :=
          filter (fun q => negb (Nat.eqb (p_controller q) (p_controller p))) (inflight h);
        controllers := controllers h |}).
Proof.
  unfold finish. destruct (sendMessage_settle engineMessage p r me (store h)); reflexivity.
Qed.

(** The answer to a call that waits at [fetch] with its controller
    aborted: whatever the network sends, the call returns null and only
    the loading flag changes. *)
Lemma deliver_aborted (k : nat) (r : FetchResult) (me : MessageEnv)
    (h : Hook) (p : Pending) :
  pendingOf k h = Some p -> p_head p = None -> isAborted h (p_controller p) = true ->
  exists h',
    deliver engineMessage k r me h = Some (None, h')
    /\ store h' = setIsLoading false (store h)
    /\ aborted h' = aborted h
    /\ inflight h' = filter (fun q => negb (Nat.eqb (p_controller q) k)) (inflight h).
Proof.
  intros Hp Hh Ha. pose proof (pendingOf_controller k h p Hp) as Hk.
  unfold deliver, sendMessage_resume.
  destruct r as [e|response]; rewrite Hp, Hh, Ha, finish_unfold;
    rewrite sendMessage_settle_cancelled by reflexivity;
    cbn [fst snd]; rewrite Hk; eexists; (split; [reflexivity|]); repeat split.
Qed.

(** The whole answer to a call that waits at [fetch] with its controller
    not aborted, the answer not being a cancellation. *)
Lemma deliver_live (k : nat) (r : FetchResult) (me : MessageEnv)
    (h : Hook) (p : Pending) :
  pendingOf k h = Some p -> p_head p = None -> isAborted h (p_controller p) = false ->
  isCancelled r = false ->
  exists m h',
    deliver engineMessage k r me h = Some (Some m, h')
    /\ fst (sendMessage_settle engineMessage p r me (store h)) = Some m
    /\ role m = assistant
    /\ sessions (store h')
       = replaceSession (withMessage (p_updated p) m (me_updatedAt me)) (sessions (store h))
    /\ aborted h' = aborted h
    /\ inflight h' = filter (fun q => negb (Nat.eqb (p_controller q) k)) (inflight h).
Proof.
  intros Hp Hh Ha Hr. pose proof (pendingOf_controller k h p Hp) as Hk.
  destruct (sendMessage_settle_appends engineMessage p r me (store h) Hr)
    as (m & H1 & H2 & H3 & _).
  exists m. unfold deliver, sendMessage_resume.
  destruct r as [e|response].
  - rewrite Hp, Hh, Ha, finish_unfold. rewrite H1, Hk.
    eexists. split; [reflexivity|]. cbn [store aborted inflight]. repeat split; assumption.
  - rewrite Hp, Hh, Ha. unfold waitForBody.
    unfold pendingOf at 1. cbn [inflight]. rewrite Hk, find_withHead.
    fold (pendingOf k h). rewrite Hp. cbn [option_map p_head withHead].
    match goal with
    | |- context [isAborted ?g ?c] => change (isAborted g c) with (isAborted h (p_controller p))
    end.
    rewrite Ha, responseOf_head, finish_unfold.
    cbn [store inflight aborted abortControllerRef controllers p_controller withHead].
    rewrite sendMessage_settle_withHead, H1, Hk, filter_withHead.
    eexists. split; [reflexivity|]. cbn [store aborted inflight]. repeat split; assumption.
Qed.

End TwoCalls.

(** Two calls waiting at [fetch], the first one aborted and the second
    one not: in either order of the answers the first returns nothing,
    the second returns one assistant message, and the sessions end as the
    second call writes them. *)
Lemma answerBoth_superseded (em : string) (g : Hook) (k1 k2 : nat) (p1 p2 : Pending)
    (r1 r2 : FetchResult) (e1 e2 : MessageEnv) :
  k1 <> k2 ->
  pendingOf k1 g = Some p1 -> pendingOf k2 g = Some p2 ->
  p_head p1 = None -> p_head p2 = None ->
  isAborted g k1 = true -> isAborted g k2 = false ->
  isCancelled r2 = false ->
  exists m hA hB,
    role m = assistant
    /\ answerBoth em (k1, r1, e1) (k2, r2, e2) g = Some (None, Some m, hA)
    /\ answerBoth em (k2, r2, e2) (k1, r1, e1) g = Some (Some m, None, hB)
    /\ sessions (store hA)
       = replaceSession (withMessage (p_updated p2) m (me_updatedAt e2)) (sessions (store g))
    /\ sessions (store hB) = sessions (store hA).
Proof.
  intros Hne Hp1 Hp2 Hh1 Hh2 Ha1 Ha2 Hr2.
  pose proof (pendingOf_controller k1 g p1 Hp1) as Hc1.
  pose proof (pendingOf_controller k2 g p2 Hp2) as Hc2.
  assert (Hk12 : forall x : Pending,
             Nat.eqb (p_controller x) k2 = true ->
             negb (Nat.eqb (p_controller x) k1) = true).
  { intros x Hx. apply Nat.eqb_eq in Hx. apply negb_true_iff, Nat.eqb_neq. lia. }
  assert (Hk21 : forall x : Pending,
             Nat.eqb (p_controller x) k1 = true ->
             negb (Nat.eqb (p_controller x) k2) = true).
  { intros x Hx. apply Nat.eqb_eq in Hx. apply negb_true_iff, Nat.eqb_neq. lia. }
  (* first order: the aborted call is answered first *)
  destruct (deliver_aborted em k1 r1 e1 g p1 Hp1 Hh1)
    as (gA & EA & SA & AA & IA); [rewrite Hc1; exact Ha1|].
  assert (Hp2A : pendingOf k2 gA = Some p2).
  { unfold pendingOf. rewrite IA, find_filter_implied by exact Hk12. exact Hp2. }
  assert (Ha2A : isAborted gA (p_controller p2) = false).
  { unfold isAborted. rewrite AA, Hc2. exact Ha2. }
  destruct (deliver_live em k2 r2 e2 gA p2 Hp2A Hh2 Ha2A Hr2)
    as (m & hA & EhA & Fm & Rm & ShA & _ & _).
  (* second order: the live call is answered first *)
  assert (Ha2g : isAborted g (p_controller p2) = false) by (rewrite Hc2; exact Ha2).
  destruct (deliver_live em k2 r2 e2 g p2 Hp2 Hh2 Ha2g Hr2)
    as (m' & gB & EB & Fm' & _ & SB & AB & IB).
  assert (Hmm : m' = m).
  { rewrite (sendMessage_settle_result em p2 r2 e2 (store g) (store gA)) in Fm'.
    congruence. }
  subst m'.
  assert (Hp1B : pendingOf k1 gB = Some p1).
  { unfold pendingOf. rewrite IB, find_filter_implied by exact Hk21. exact Hp1. }
  assert (Ha1B : isAborted gB (p_controller p1) = true).
  { unfold isAborted. rewrite AB, Hc1. exact Ha1. }
  destruct (deliver_aborted em k1 r1 e1 gB p1 Hp1B Hh1 Ha1B)
    as (hB & EhB & ShB & _ & _).
  exists m, hA, hB. split; [exact Rm|].
  split; [unfold answerBoth; rewrite EA, EhA; reflexivity|].
  split; [unfold answerBoth; rewrite EB, EhB; reflexivity|].
  split.
  - rewrite ShA, SA. reflexivity.
  - rewrite ShB, ShA, SA. simpl. exact SB.
Qed.

Lemma filter_none {A : Type} (g : A -> bool) (l : list A) :
  (forall x, In x l -> g x = false) -> filter g l = [].
Proof.
  intros H. induction l as [|x l IH]; simpl; [reflexivity|].
  rewrite (H x (or_introl eq_refl)). apply IH. intros y Hy. apply H. right. exact Hy.
Qed.

(** After a call, the only waiting call that is not aborted is the one
    just made. *)
Lemma sendMessage_call_live (options : Options) (cl : Closure) (content : string)
    (sessionId : option string) (se : SessionEnv) (me : MessageEnv) (h : Hook) :
  orderly h ->
  map p_controller (liveRequests (sendMessage_call options cl content sessionId se me h))
  = [controllers h].
Proof.
  intros Ho.
  destruct (sendMessage_call_fields options cl content sessionId se me h)
    as (_ & Ha & Hi & _ & _).
  pose proof Ho as (H1 & H2 & H3 & _ & H5).
  unfold liveRequests. rewrite Hi, filter_app.
  rewrite filter_none.
  - simpl. rewrite isAborted_fresh; [reflexivity|].
    intros x Hx. rewrite Ha in Hx. apply (abortPrevious_below h x Ho), Hx.
  - intros p Hp. apply negb_false_iff, isAborted_In. rewrite Ha.
    unfold abortPrevious.
    destruct (isAborted h (p_controller p)) eqn:E.
    + apply isAborted_In in E. destruct (abortControllerRef h); [right|]; exact E.
    + rewrite (H5 p Hp E). left. reflexivity.
Qed.

(** C4 (the code does not silence a superseded call that reads a failure
    body): a session is created and a first message sent in it;  the
    call has received a 429 response and waits for its body when a second
    message is sent.  The second call aborts the controller of the first
    and is the only live request.  Whatever the body read of the first
    call then gives (aborted, it is rejected with an AbortError, which
    [.catch(() => ({}))] turns into an empty object), the first call does
    not return null: it returns an error message, which it writes into
    the session in place of the second user message, and records the
    rate-limit error.  The answer to the second call then writes the
    session with both user messages and its assistant message, and leaves
    the error of the first call in the store. *)
Theorem superseded_while_reading_failure_body (j : JsonResult) :
  isAborted supersededAtBody 0%nat = true
  /\ map p_controller (liveRequests supersededAtBody) = [1%nat]
  /\ option_map messageIds (messagesOf "s1" (store supersededAtBody)) = Some ["u1"; "u2"]
  /\ match sendMessage_resume Sample.engineMessage 0%nat (JsonSettles j)
             (Sample.messageEnv "a1" 5) supersededAtBody with
     | Some (Returned (Some m), g) =>
         role m = assistant
         /\ content m = "Error: " ++ rateLimitMessage
         /\ error (store g) = Some rateLimitMessage
         /\ isLoading (store g) = false
         /\ map p_controller (liveRequests g) = [1%nat]
         /\ option_map messageIds (messagesOf "s1" (store g)) = Some ["u1"; "a1"]
         /\ match deliver Sample.engineMessage 1%nat (Sample.completion "dos" 58)
                    (Sample.messageEnv "a2" 6) g with
            | Some (Some m2, g2) =>
                content m2 = "dos"
                /\ error (store g2) = Some rateLimitMessage
                /\ option_map messageIds (messagesOf "s1" (store g2))
                   = Some ["u1"; "u2"; "a2"]
            | _ => False
            end
     | _ => False
     end.
Proof. vm_compute. repeat split; reflexivity. Qed.

(** ** Storage *)

Lemma decimal_round_trip (t : Z) :
  Sample.parseDecimal (Sample.decimalDate t) = ValidDate t.
Proof.
  unfold Sample.parseDecimal, Sample.decimalDate, Z_toString.
  rewrite NilZero.isi.
  - rewrite DecimalZ.of_to. reflexivity.
  - destruct t; simpl; try discriminate.
    intros [= H]. exact (DecimalPos.Unsigned.to_uint_nonnil p H).
  - destruct t; simpl; try discriminate.
    intros [= H]. exact (DecimalPos.Unsigned.to_uint_nonnil p H).
Qed.

Section Storage.

Variable toISOString : Z -> string.
Variable Date_parse : string -> Date.

(** The platform reads back the ISO-8601 text it prints for a time
    value. *)
Hypothesis Date_parse_toISOString :
  forall t, isTimeValue (ValidDate t) = true -> Date_parse (toISOString t) = ValidDate t.

Lemma newDate_toJSON (d : Date) :
  isTimeValue d = true -> newDate Date_parse (Date_toJSON toISOString d) = d.
Proof.
  destruct d as [t|]; simpl; [|discriminate]. intros H.
  apply Date_parse_toISOString. exact H.
Qed.

Lemma reviveMessage_stringifyMessage (m : ChatMessage) :
  messageDatesValid m = true ->
  reviveMessage Date_parse (stringifyMessage toISOString m) = m.
Proof.
  intros H. destruct m as [i r c t n]. unfold reviveMessage, stringifyMessage. simpl.
  rewrite newDate_toJSON by exact H. reflexivity.
Qed.

Lemma reviveMessages_stringifyMessages (l : list ChatMessage) :
  forallb messageDatesValid l = true ->
  map (reviveMessage Date_parse) (map (stringifyMessage toISOString) l) = l.
Proof.
  induction l as [|m l IH]; simpl; [reflexivity|].
  intros H. apply andb_true_iff in H. destruct H as [Hm Hl].
  rewrite reviveMessage_stringifyMessage by exact Hm. rewrite IH by exact Hl. reflexivity.
Qed.

Lemma reviveSession_stringifySession (s : ChatSession) :
  sessionDatesValid s = true ->
  reviveSession Date_parse (stringifySession toISOString s) = s.
Proof.
  unfold sessionDatesValid. intros H.
  apply andb_true_iff in H. destruct H as [H Hm].
  apply andb_true_iff in H. destruct H as [Hc Hu].
  destruct s as [i t ms c u]. unfold reviveSession, stringifySession. simpl in *.
  rewrite reviveMessages_stringifyMessages by exact Hm.
  rewrite !newDate_toJSON by assumption. reflexivity.
Qed.

Lemma reviveSessions_stringifySessions (l : list ChatSession) :
  forallb sessionDatesValid l = true ->
  map (reviveSession Date_parse) (map (stringifySession toISOString) l) = l.
Proof.
  induction l as [|s l IH]; simpl; [reflexivity|].
  intros H. apply andb_true_iff in H. destruct H as [Hs Hl].
  rewrite reviveSession_stringifySession by exact Hs. rewrite IH by exact Hl. reflexivity.
Qed.

End Storage.

(** C6: at initialization, when the storage slot is empty or holds text
    that does not parse, [loadSessionsFromStorage] returns a store with
    an empty session set and no active session (the parse error is
    logged, not raised); when the slot holds an array of sessions, every
    session is rebuilt by [reviveSession], which makes each timestamp
    again a [Date] from its serialized form, and an array written by
    [JSON.stringify] from sessions with valid dates is read back as
    those sessions. *)
Theorem loadSessionsFromStorage_at_initialization
    (toISOString : Z -> string) (Date_parse : string -> Date) :
  (forall t, isTimeValue (ValidDate t) = true -> Date_parse (toISOString t) = ValidDate t) ->
  loadSessionsFromStorage Date_parse None initialStore = (initialStore, [])
  /\ (forall s,
        sessions (fst (loadSessionsFromStorage Date_parse (Some (NotJson s)) initialStore)) = []
        /\ currentSession
             (fst (loadSessionsFromStorage Date_parse (Some (NotJson s)) initialStore)) = None)
  /\ (forall stored,
        sessions (fst (loadSessionsFromStorage Date_parse (Some (JsonSessions stored))
                         initialStore))
        = map (reviveSession Date_parse) stored)
  /\ (forall s m,
        createdAt (reviveSession Date_parse s) = newDate Date_parse (ss_createdAt s)
        /\ updatedAt (reviveSession Date_parse s) = newDate Date_parse (ss_updatedAt s)
        /\ timestamp (reviveMessage Date_parse m) = newDate Date_parse (sm_timestamp m))
  /\ (forall l, forallb sessionDatesValid l = true ->
        sessions (fst (loadSessionsFromStorage Date_parse
                         (Some (stringifySessions toISOString l)) initialStore)) = l).
Proof.
  intros Hrt. split; [reflexivity|]. split; [|split; [|split]].
  - intros s. unfold loadSessionsFromStorage.
    destruct (String.eqb s ""); split; reflexivity.
  - intros stored. unfold loadSessionsFromStorage.
    destruct (map (reviveSession Date_parse) stored); reflexivity.
  - intros s m. repeat split.
  - intros l Hl. unfold loadSessionsFromStorage, stringifySessions.
    rewrite (reviveSessions_stringifySessions toISOString Date_parse Hrt l Hl).
    destruct l; reflexivity.
Qed.

Lemma loadSessionsFromStorage_at_initialization_witness :
  sessions (fst (loadSessionsFromStorage Sample.parseDecimal
                   (Some (stringifySessions Sample.decimalDate
                            [answeredSession; Sample.plainSession "s0"]))
                   initialStore))
  = [answeredSession; Sample.plainSession "s0"].
Proof.
  exact (proj2 (proj2 (proj2 (proj2
           (loadSessionsFromStorage_at_initialization
              Sample.decimalDate Sample.parseDecimal
              (fun t _ => decimal_round_trip t)))))
           [answeredSession; Sample.plainSession "s0"] eq_refl).
Defined.

(** C7 (counterexample): a stored array holds a session whose message has
    a timestamp text that is no date.  Loading it gives a session with an
    Invalid Date; its JSON export writes [null] for that timestamp, and
    reading the export back gives the epoch: the timestamp is not
    reproduced. *)
Lemma export_does_not_reproduce_invalid_date :
  let st := fst (loadSessionsFromStorage Sample.parseDecimal
                   (Some (JsonSessions [foreignStored])) initialStore) in
  option_map (map timestamp) (messagesOf "s1" st) = Some [InvalidDate]
  /\ match exportSession Sample.decimalDate (fun _ => "") (render st) "s1" Fjson with
     | JsonSession x =>
         map timestamp (messages (reviveSession Sample.parseDecimal x)) = [ValidDate 0]
         /\ Some (messages (reviveSession Sample.parseDecimal x)) <> messagesOf "s1" st
     | _ => False
     end.
Proof. vm_compute. repeat split; try reflexivity. discriminate. Qed.

(** C7 (amended): for a session of the store whose message timestamps are
    valid dates, the JSON export, read back by the function that
    [loadSessionsFromStorage] applies to each stored session, gives the
    same messages in the same order; the export of an id that is not in
    the set is the empty string, in both formats. *)
Theorem exportSession_round_trip
    (toISOString : Z -> string) (Date_parse : string -> Date)
    (toLocaleString : Date -> string) (cl : Closure) (sessionId : string) :
  (forall t, isTimeValue (ValidDate t) = true -> Date_parse (toISOString t) = ValidDate t) ->
  (forall s, findSession sessionId (cl_sessions cl) = Some s ->
     forallb messageDatesValid (messages s) = true ->
     exists x,
       exportSession toISOString toLocaleString cl sessionId Fjson = JsonSession x
       /\ messages (reviveSession Date_parse x) = messages s)
  /\ (findSession sessionId (cl_sessions cl) = None ->
      forall format,
        exportSession toISOString toLocaleString cl sessionId format = NotJson "").
Proof.
  intros Hrt. split.
  - intros s Hs Hm. unfold exportSession. rewrite Hs.
    exists (stringifySession toISOString s). split; [reflexivity|].
    unfold reviveSession, stringifySession. simpl.
    apply (reviveMessages_stringifyMessages toISOString Date_parse Hrt), Hm.
  - intros Hs format. unfold exportSession. rewrite Hs. reflexivity.
Qed.

Lemma exportSession_round_trip_witness :
  exists x,
    exportSession Sample.decimalDate (fun _ => "")
      {| cl_sessions := [Sample.plainSession "s0"; answeredSession];
         cl_currentSession := None |} "s1" Fjson
    = JsonSession x
    /\ messages (reviveSession Sample.parseDecimal x) = messages answeredSession.
Proof.
  exact (proj1 (exportSession_round_trip Sample.decimalDate Sample.parseDecimal
                  (fun _ => "")
                  {| cl_sessions := [Sample.plainSession "s0"; answeredSession];
                     cl_currentSession := None |} "s1"
                  (fun t _ => decimal_round_trip t))
           answeredSession eq_refl eq_refl).
Defined.

(** One run of [saveSessionsToStorage] whose write is refused with a
    QuotaExceededError: the store keeps its ten first sessions and the
    write is tried once more with them, [setItem] being called twice in
    all.  If the second write is refused too, this is logged and nothing
    else happens in that run: the slot keeps what it held and the store
    keeps the ten sessions.  The error state, the loading flag and the
    active session of the store are untouched. *)
Lemma saveSessionsToStorage_quota (toISOString : Z -> string) (st : Store)
    (ls : LocalStorage) (e : JsError) :
  refuses ls (stringifySessions toISOString (sessions st)) = Some e ->
  err_name e = "QuotaExceededError" ->
  let out := saveSessionsToStorage toISOString (render st) st ls in
  let st' := fst (fst out) in
  let ls' := snd (fst out) in
  let log := snd out in
  let recent := firstn 10 (sessions st) in
  sessions st' = recent
  /\ (List.length (sessions st') <= 10)%nat
  /\ currentSession st' = currentSession st
  /\ error st' = error st
  /\ isLoading st' = isLoading st
  /\ attempts ls'
     = stringifySessions toISOString recent
       :: stringifySessions toISOString (sessions st) :: attempts ls
  /\ (refuses ls (stringifySessions toISOString recent) = None ->
      slot ls' = Some (stringifySessions toISOString recent) /\ log = [saveError])
  /\ (refuses ls (stringifySessions toISOString recent) <> None ->
      slot ls' = slot ls /\ log = [saveError; retryError]).
Proof.
  intros Hq Hname. cbv zeta. unfold saveSessionsToStorage, setItem.
  cbn [render cl_sessions]. rewrite Hq, Hname, String.eqb_refl.
  cbn [refuses].
  assert (Hlen : (List.length (firstn 10 (sessions st)) <= 10)%nat)
    by apply firstn_le_length.
  remember (firstn 10 (sessions st)) as recent eqn:Hrecent.
  destruct (refuses ls (stringifySessions toISOString recent)) as [e'|];
    cbn [fst snd sessions currentSession error isLoading setSessions attempts slot].
  - split; [reflexivity|]. split; [exact Hlen|]. do 4 (split; [reflexivity|]).
    split; [discriminate|]. intros _. split; reflexivity.
  - split; [reflexivity|]. split; [exact Hlen|]. do 4 (split; [reflexivity|]).
    split; [intros _; split; reflexivity|]. intros Hno. contradiction Hno. reflexivity.
Qed.

Lemma repeat_snoc2 {A : Type} (x : A) (n : nat) (l : list A) :
  (repeat x n ++ x :: x :: l = repeat x (S (S n)) ++ l)%list.
Proof.
  induction n as [|n IH]; [reflexivity|].
  cbn [repeat app]. rewrite IH. reflexivity.
Qed.

Lemma autoSaveCondition_firstn (options : Options) (st st' : Store) :
  autoSaveCondition options st = true ->
  sessions st' = firstn 10 (sessions st) ->
  autoSaveCondition options st' = true.
Proof.
  unfold autoSaveCondition. intros H E. rewrite E.
  apply andb_true_iff in H. destruct H as [Ho Hl]. rewrite Ho. cbn [andb].
  destruct (sessions st) as [|x l]; [discriminate Hl | reflexivity].
Qed.

(** One firing of the timeout on a storage that refuses every write with
    a QuotaExceededError: the write and its retry are made and logged,
    the set is cut to its ten first sessions, and the timeout is set
    again. *)
Lemma timeoutFires_on_full_storage (options : Options) (toISOString : Z -> string)
    (v : Saver) :
  autoSaveCondition options (sv_store v) = true ->
  sv_timeout v = true ->
  (forall t, option_map err_name (refuses (sv_storage v) t) = Some "QuotaExceededError") ->
  let v' := timeoutFires options toISOString v in
  let recent := firstn 10 (sessions (sv_store v)) in
  sv_timeout v' = true
  /\ sessions (sv_store v') = recent
  /\ currentSession (sv_store v') = currentSession (sv_store v)
  /\ error (sv_store v') = error (sv_store v)
  /\ isLoading (sv_store v') = isLoading (sv_store v)
  /\ attempts (sv_storage v')
     = stringifySessions toISOString recent
       :: stringifySessions toISOString (sessions (sv_store v))
       :: attempts (sv_storage v)
  /\ slot (sv_storage v') = slot (sv_storage v)
  /\ refuses (sv_storage v') = refuses (sv_storage v)
  /\ sv_console v' = (sv_console v ++ [saveError; retryError])%list.
Proof.
  intros Hc Ht Hfull v' recent.
  assert (R : forall t, exists e, refuses (sv_storage v) t = Some e
                                  /\ err_name e = "QuotaExceededError").
  { intros t. specialize (Hfull t).
    destruct (refuses (sv_storage v) t) as [e|]; [|discriminate].
    exists e. split; [reflexivity|]. injection Hfull as H. exact H. }
  destruct (R (stringifySessions toISOString (sessions (sv_store v)))) as (e & He & Hn).
  destruct (R (stringifySessions toISOString recent)) as (e' & He' & _).
  pose proof (saveSessionsToStorage_quota toISOString (sv_store v) (sv_storage v) e He Hn)
    as Q. cbv zeta in Q. fold recent in Q.
  destruct Q as (Q1 & _ & Q3 & Q4 & Q5 & Q6 & _ & Q8).
  destruct Q8 as [Q8 Q9]; [rewrite He'; discriminate|].
  assert (Hr : refuses (snd (fst (saveSessionsToStorage toISOString (render (sv_store v))
                                    (sv_store v) (sv_storage v))))
               = refuses (sv_storage v)).
  { unfold saveSessionsToStorage, setItem. cbn [render cl_sessions].
    rewrite He, Hn, String.eqb_refl. cbn [refuses]. fold recent.
    rewrite He'. reflexivity. }
  assert (Htr : truncates toISOString (render (sv_store v)) (sv_storage v) = true).
  { unfold truncates, setItem. cbn [render cl_sessions]. rewrite He. cbn [fst].
    rewrite Hn. reflexivity. }
  unfold v', timeoutFires. rewrite Ht. cbv zeta. rewrite Htr.
  destruct (saveSessionsToStorage toISOString (render (sv_store v)) (sv_store v)
              (sv_storage v)) as [[st ls] lines].
  cbn [fst snd] in Q1, Q3, Q4, Q5, Q6, Q8, Q9, Hr.
  cbn [sv_store sv_storage sv_console sv_timeout andb].
  split; [apply (autoSaveCondition_firstn options (sv_store v)); assumption|].
  rewrite Q9. repeat split; assumption.
Qed.

(** C10 (the code retries without end): with a storage that refuses every
    write with a QuotaExceededError, the failed write and its one retry
    are repeated each time the timeout of the auto-save effect fires,
    because [setSessions(recentSessions)] gives [sessions] a new array and
    so sets the timeout again.  After [n + 1] firings [setItem] has been
    called [2 n + 2] times, each firing has logged both failures, the
    timeout is pending again, the slot holds what it held, and the store
    keeps the ten first sessions of the list it had, with its active
    session, its error and its loading flag untouched. *)
Theorem autosave_retries_without_end (options : Options) (toISOString : Z -> string)
    (v : Saver) (n : nat) :
  autoSaveCondition options (sv_store v) = true ->
  sv_timeout v = true ->
  (forall t, option_map err_name (refuses (sv_storage v) t) = Some "QuotaExceededError") ->
  let v' := timeoutFiresTimes options toISOString (S n) v in
  let recent := firstn 10 (sessions (sv_store v)) in
  sv_timeout v' = true
  /\ sessions (sv_store v') = recent
  /\ currentSession (sv_store v') = currentSession (sv_store v)
  /\ error (sv_store v') = error (sv_store v)
  /\ isLoading (sv_store v') = isLoading (sv_store v)
  /\ attempts (sv_storage v')
     = (repeat (stringifySessions toISOString recent) (2 * n + 1)
        ++ stringifySessions toISOString (sessions (sv_store v))
           :: attempts (sv_storage v))%list
  /\ List.length (attempts (sv_storage v'))
     = (List.length (attempts (sv_storage v)) + 2 * (n + 1))%nat
  /\ slot (sv_storage v') = slot (sv_storage v)
  /\ sv_console v'
     = (sv_console v ++ List.concat (repeat [saveError; retryError] (S n)))%list.
Proof.
  revert v. induction n as [|n IH]; intros v Hc Ht Hfull v' recent.
  - destruct (timeoutFires_on_full_storage options toISOString v Hc Ht Hfull)
      as (H1 & H2 & H3 & H4 & H5 & H6 & H7 & _ & H9).
    unfold v'. cbn [timeoutFiresTimes].
    split; [exact H1|]. split; [exact H2|]. split; [exact H3|]. split; [exact H4|].
    split; [exact H5|]. split; [exact H6|].
    split; [rewrite H6; cbn [List.length]; lia|].
    split; [exact H7|]. rewrite H9. reflexivity.
  - destruct (timeoutFires_on_full_storage options toISOString v Hc Ht Hfull)
      as (H1 & H2 & H3 & H4 & H5 & H6 & H7 & H8 & H9).
    assert (Hc1 : autoSaveCondition options
                    (sv_store (timeoutFires options toISOString v)) = true)
      by (apply (autoSaveCondition_firstn options (sv_store v)); assumption).
    assert (Hfull1 : forall t,
               option_map err_name
                 (refuses (sv_storage (timeoutFires options toISOString v)) t)
               = Some "QuotaExceededError")
      by (intros t; rewrite H8; apply Hfull).
    specialize (IH (timeoutFires options toISOString v) Hc1 H1 Hfull1).
    cbv zeta in IH.
    change (timeoutFiresTimes options toISOString (S n)
              (timeoutFires options toISOString v)) with v' in IH.
    rewrite H2, firstn_firstn in IH. change (Nat.min 10 10) with 10%nat in IH.
    fold recent in IH.
    destruct IH as (I1 & I2 & I3 & I4 & I5 & I6 & _ & I8 & I9).
    split; [exact I1|]. split; [exact I2|].
    split; [rewrite I3; exact H3|]. split; [rewrite I4; exact H4|].
    split; [rewrite I5; exact H5|].
    assert (Ha : attempts (sv_storage v')
                 = (repeat (stringifySessions toISOString recent) (2 * S n + 1)
                    ++ stringifySessions toISOString (sessions (sv_store v))
                       :: attempts (sv_storage v))%list).
    { rewrite I6, H6. fold recent. rewrite repeat_snoc2. f_equal. f_equal. lia. }
    split; [exact Ha|].
    split; [rewrite Ha, length_app, repeat_length; cbn [List.length]; lia|].
    split; [rewrite I8; exact H7|].
    rewrite I9, H9, <- app_assoc. reflexivity.
Qed.

Lemma autosave_retries_without_end_witness :
  let v := timeoutFiresTimes Sample.options Sample.decimalDate 2 savingOnFullStorage in
  sv_timeout v = true
  /\ map id (sessions (sv_store v))
     = ["s11"; "s10"; "s9"; "s8"; "s7"; "s6"; "s5"; "s4"; "s3"; "s2"]
  /\ List.length (attempts (sv_storage v)) = 4%nat
  /\ sv_console v = [saveError; retryError; saveError; retryError].
Proof.
  destruct (autosave_retries_without_end Sample.options Sample.decimalDate
              savingOnFullStorage 1 eq_refl eq_refl (fun _ => eq_refl))
    as (H1 & H2 & _ & _ & _ & _ & H7 & _ & H9).
  cbv zeta. split; [exact H1|]. split; [rewrite H2; reflexivity|].
  split; [exact H7 | exact H9].
Defined.

(** * Further properties of the hook *)

(** ** What an exchange leaves alone *)

Lemma map_id_replaceSession (u : ChatSession) (l : list ChatSession) :
  map id (replaceSession u l) = map id l.
Proof.
  unfold replaceSession. rewrite map_map. apply map_ext_in. intros s _.
  destruct (String.eqb (id s) (id u)) eqn:E; [|reflexivity].
  apply String.eqb_eq in E. congruence.
Qed.

Lemma others_replaceSession (u : ChatSession) (l : list ChatSession) :
  others (id u) (replaceSession u l) = others (id u) l.
Proof.
  unfold others, replaceSession. induction l as [|s l IH]; simpl; [reflexivity|].
  destruct (String.eqb (id s) (id u)) eqn:E; simpl.
  - rewrite String.eqb_refl. simpl. exact IH.
  - rewrite E. simpl. rewrite IH. reflexivity.
Qed.

Lemma sendMessage_catch_sessions (p : Pending) (e : JsError) (me : MessageEnv) (st : Store) :
  sessions (snd (sendMessage_catch p e me st)) = sessions st
  \/ exists m, sessions (snd (sendMessage_catch p e me st))
               = replaceSession (withMessage (p_updated p) m (me_updatedAt me)) (sessions st).
Proof.
  unfold sendMessage_catch. destruct (String.eqb (err_name e) "AbortError").
  - left. reflexivity.
  - right. eexists. cbv zeta. cbn [snd]. rewrite putSession_sessions. reflexivity.
Qed.

Lemma sendMessage_settle_sessions (em : string) (p : Pending) (r : FetchResult)
    (me : MessageEnv) (st : Store) :
  sessions (snd (sendMessage_settle em p r me st)) = sessions st
  \/ exists m, sessions (snd (sendMessage_settle em p r me st))
               = replaceSession (withMessage (p_updated p) m (me_updatedAt me)) (sessions st).
Proof.
  unfold sendMessage_settle.
  destruct r as [e|resp]; [apply sendMessage_catch_sessions|].
  destruct (negb (ok resp)); [apply sendMessage_catch_sessions|].
  destruct (json resp) as [e|data|thrown];
    [apply sendMessage_catch_sessions| |apply sendMessage_catch_sessions].
  destruct (choices data) as [cs|]; [|apply sendMessage_catch_sessions].
  right. eexists. cbv zeta. cbn [snd sessions setIsLoading].
  rewrite putSession_sessions. reflexivity.
Qed.

(** X1: an exchange touches the sessions of one id only.  When the call
    resolves a target, the ids of the set and the sessions of every other
    id are as before after the synchronous part, and again after the
    answer, whatever the answer is; no session is added, removed or
    moved. *)
Theorem sendMessage_leaves_other_sessions (em : string) (cl : Closure) (content : string)
    (sessionId : option string) (se : SessionEnv) (me : MessageEnv) (st : Store)
    (t : ChatSession) (c : nat) (req : Request) (r : FetchResult) (me' : MessageEnv) :
  resolveTarget cl sessionId = Some t ->
  let st1 := snd (sendMessage_sync cl content sessionId se me st) in
  let p := {| p_controller := c; p_current := cl_currentSession cl;
              p_updated := fst (sendMessage_sync cl content sessionId se me st);
              p_request := req; p_head := None |} in
  let st2 := snd (sendMessage_settle em p r me' st1) in
  sessionIds st1 = sessionIds st
  /\ others (id t) (sessions st1) = others (id t) (sessions st)
  /\ sessionIds st2 = sessionIds st
  /\ others (id t) (sessions st2) = others (id t) (sessions st).
Proof.
  intros Ht st1 p st2.
  assert (Hu : fst (sendMessage_sync cl content sessionId se me st)
               = withMessage t (userMessage content me) (me_updatedAt me)).
  { rewrite sendMessage_sync_updated. unfold targetOf. rewrite Ht. reflexivity. }
  assert (Hs1 : sessions st1
                = replaceSession (withMessage t (userMessage content me) (me_updatedAt me))
                    (sessions st)).
  { unfold st1. rewrite sendMessage_sync_sessions, Hu, Ht. reflexivity. }
  assert (H1 : sessionIds st1 = sessionIds st).
  { unfold sessionIds, sessionIds_of. rewrite Hs1. apply map_id_replaceSession. }
  assert (H2 : others (id t) (sessions st1) = others (id t) (sessions st)).
  { rewrite Hs1.
    apply (others_replaceSession (withMessage t (userMessage content me) (me_updatedAt me))). }
  split; [exact H1|]. split; [exact H2|].
  destruct (sendMessage_settle_sessions em p r me' st1) as [E|[m E]]; fold st2 in E.
  - unfold sessionIds, sessionIds_of in *. rewrite E. split; assumption.
  - unfold sessionIds, sessionIds_of in *. rewrite E. split.
    + rewrite map_id_replaceSession. exact H1.
    + assert (Hid : id (withMessage (p_updated p) m (me_updatedAt me')) = id t).
      { cbn [id withMessage p_updated p]. rewrite Hu. reflexivity. }
      rewrite <- Hid at 1. rewrite others_replaceSession, Hid. exact H2.
Qed.

Lemma sendMessage_leaves_other_sessions_witness :
  others "s1"
    (sessions (snd (sendMessage_settle Sample.engineMessage
       {| p_controller := 0%nat; p_current := None;
          p_updated := fst (sendMessage_sync
                              {| cl_sessions := [answeredSession; Sample.plainSession "s0"];
                                 cl_currentSession := None |}
                              "otra" (Some "s1") (Sample.sessionEnv "s9" 1)
                              (Sample.messageEnv "u2" 2)
                              {| sessions := [answeredSession; Sample.plainSession "s0"];
                                 currentSession := None; isLoading := false;
                                 error := None |});
          p_request := buildRequest Sample.options answeredSession; p_head := None |}
       (Sample.completion "dos" 58) (Sample.messageEnv "a2" 3)
       (snd (sendMessage_sync
               {| cl_sessions := [answeredSession; Sample.plainSession "s0"];
                  cl_currentSession := None |}
               "otra" (Some "s1") (Sample.sessionEnv "s9" 1) (Sample.messageEnv "u2" 2)
               {| sessions := [answeredSession; Sample.plainSession "s0"];
                  currentSession := None; isLoading := false; error := None |})))))
  = [Sample.plainSession "s0"].
Proof.
  exact (proj2 (proj2 (proj2
    (sendMessage_leaves_other_sessions Sample.engineMessage
       {| cl_sessions := [answeredSession; Sample.plainSession "s0"];
          cl_currentSession := None |}
       "otra" (Some "s1") (Sample.sessionEnv "s9" 1) (Sample.messageEnv "u2" 2)
       {| sessions := [answeredSession; Sample.plainSession "s0"];
          currentSession := None; isLoading := false; error := None |}
       answeredSession 0%nat (buildRequest Sample.options answeredSession)
       (Sample.completion "dos" 58) (Sample.messageEnv "a2" 3) eq_refl)))).
Defined.

(** X2: [sendMessage] raises the loading flag and clears the error before
    the request is issued, and every way the call can end (an assistant
    message, an error message, a cancellation) lowers the flag. *)
Theorem sendMessage_loading_flag (em : string) (cl : Closure) (content : string)
    (sessionId : option string) (se : SessionEnv) (me : MessageEnv) (st st' : Store)
    (p : Pending) (r : FetchResult) (me' : MessageEnv) :
  isLoading (snd (sendMessage_sync cl content sessionId se me st)) = true
  /\ error (snd (sendMessage_sync cl content sessionId se me st)) = None
  /\ isLoading (snd (sendMessage_settle em p r me' st')) = false.
Proof.
  split; [apply sendMessage_sync_flags|]. split; [apply sendMessage_sync_flags|].
  destruct (isCancelled r) eqn:Hr.
  - rewrite sendMessage_settle_cancelled by exact Hr. reflexivity.
  - destruct (sendMessage_settle_appends em p r me' st' Hr) as (m & _ & _ & _ & H).
    exact H.
Qed.

Lemma handleApiError_nonempty (e : JsError) : handleApiError e <> "".
Proof.
  unfold handleApiError.
  destruct (includes "API key" (err_message e)); [discriminate|].
  destruct (includes "429" (err_message e)); [discriminate|].
  destruct (includes "insufficient_quota" (err_message e)); [discriminate|].
  destruct (_ && _)%bool; [discriminate|].
  unfold orElse. destruct (String.eqb (err_message e) "") eqn:E; [discriminate|].
  intros H. rewrite H in E. discriminate.
Qed.

Lemma sendMessage_settle_thrown (em : string) (p : Pending) (r : FetchResult)
    (me : MessageEnv) (st : Store) (n : string) :
  thrownName r = Some n ->
  exists e, err_name e = n
            /\ sendMessage_settle em p r me st = sendMessage_catch p e me st.
Proof.
  unfold thrownName, sendMessage_settle. destruct r as [e|resp].
  - intros [= <-]. exists e. split; reflexivity.
  - destruct (negb (ok resp)).
    + intros [= <-]. eexists. split; [|reflexivity]. reflexivity.
    + destruct (json resp) as [e|data|thrown].
      * intros [= <-]. exists e. split; reflexivity.
      * destruct (choices data); [discriminate|].
        intros [= <-]. eexists. split; [|reflexivity]. reflexivity.
      * intros [= <-]. eexists. split; [|reflexivity]. reflexivity.
Qed.

(** X3: every failure that is not a cancellation (a rejected [fetch], a
    non-2xx status, an unreadable body, a body without [choices]) records
    an error text that is never empty, and appends and returns an
    assistant message without token count whose content is [Error: ]
    followed by that text. *)
Theorem failure_records_error_text (em : string) (p : Pending) (r : FetchResult)
    (me : MessageEnv) (st : Store) (n : string) :
  thrownName r = Some n -> n <> "AbortError" ->
  exists text m,
    text <> ""
    /\ error (snd (sendMessage_settle em p r me st)) = Some text
    /\ fst (sendMessage_settle em p r me st) = Some m
    /\ role m = assistant /\ tokens m = None
    /\ content m = "Error: " ++ text
    /\ sessions (snd (sendMessage_settle em p r me st))
       = replaceSession (withMessage (p_updated p) m (me_updatedAt me)) (sessions st).
Proof.
  intros Hn Hne.
  destruct (sendMessage_settle_thrown em p r me st n Hn) as (e & He & E).
  rewrite E.
  assert (Hb : String.eqb (err_name e) "AbortError" = false).
  { apply String.eqb_neq. rewrite He. exact Hne. }
  exists (handleApiError e).
  unfold sendMessage_catch. rewrite Hb. cbv zeta. cbn [fst snd].
  eexists. split; [apply handleApiError_nonempty|].
  rewrite putSession_sessions. unfold putSession.
  destruct (currentIs _ _); repeat split; reflexivity.
Qed.

Lemma failure_records_error_text_witness :
  exists text m,
    text <> ""
    /\ fst (sendMessage_settle Sample.engineMessage
              {| p_controller := 0%nat; p_current := None;
                 p_updated := answeredSession;
                 p_request := buildRequest Sample.options answeredSession;
                 p_head := None |}
              (FetchRejected {| err_name := "TypeError"; err_message := "Failed to fetch" |})
              (Sample.messageEnv "a2" 3) initialStore) = Some m
    /\ content m = "Error: " ++ text.
Proof.
  destruct (failure_records_error_text Sample.engineMessage
              {| p_controller := 0%nat; p_current := None;
                 p_updated := answeredSession;
                 p_request := buildRequest Sample.options answeredSession;
                 p_head := None |}
              (FetchRejected {| err_name := "TypeError"; err_message := "Failed to fetch" |})
              (Sample.messageEnv "a2" 3) initialStore "TypeError" eq_refl)
    as (text & m & H1 & _ & H3 & _ & _ & H6 & _).
  - discriminate.
  - exists text, m. repeat split; assumption.
Defined.

(** ** Token counts *)




(** ** Sessions that come and go *)







Lemma others_clear (i : string) (now : Z) (l : list ChatSession) :
  others i (map (fun session => if String.eqb (id session) i
                                then clearMessages now session else session) l)
  = others i l.
Proof.
  unfold others. induction l as [|s l IH]; [reflexivity|].
  cbn [map filter]. destruct (String.eqb (id s) i) eqn:E.
  - cbn [id clearMessages]. rewrite E. cbn [negb]. exact IH.
  - rewrite E. cbn [negb]. rewrite IH. reflexivity.
Qed.

Lemma tokens_clear (i : string) (now : Z) (l : list ChatSession) :
  sumZ (map sessionTokens
          (filter (fun s => String.eqb (id s) i)
             (map (fun session => if String.eqb (id session) i
                                  then clearMessages now session else session) l))) = 0.
Proof.
  induction l as [|s l IH]; [reflexivity|].
  cbn [map filter]. destruct (String.eqb (id s) i) eqn:E.
  - cbn [id clearMessages]. rewrite E. cbn [map]. unfold sumZ in *.
    cbn [fold_right]. rewrite IH. reflexivity.
  - rewrite E. exact IH.
Qed.

(** X7: [clearSession] keeps every session in its place and empties the
    message list of the sessions of the given id only; the token total of
    that id is zero afterwards and the error is cleared. *)
Theorem clearSession_empties_one_session (st : Store) (i : string) (now : Z) :
  let st' := clearSession (render st) i now st in
  sessionIds st' = sessionIds st
  /\ others i (sessions st') = others i (sessions st)
  /\ (forall s, In s (sessions st') -> id s = i -> messages s = [])
  /\ (i <> "" -> getTotalTokensUsed (render st') (Some i) = 0)
  /\ error st' = None.
Proof.
  intros st'.
  assert (Hs : sessions st'
               = map (fun session => if String.eqb (id session) i
                                     then clearMessages now session else session)
                     (sessions st)).
  { unfold st', clearSession. cbn [render cl_currentSession].
    destruct (currentIs (currentSession st) i); reflexivity. }
  split; [|split; [|split; [|split]]].
  - unfold sessionIds, sessionIds_of. rewrite Hs, map_map. apply map_ext. intros s.
    destruct (String.eqb (id s) i); reflexivity.
  - rewrite Hs. apply others_clear.
  - intros s Hin Hid. rewrite Hs in Hin. apply in_map_iff in Hin.
    destruct Hin as (s0 & E & _). destruct (String.eqb (id s0) i) eqn:E0.
    + subst s. reflexivity.
    + subst s. apply String.eqb_neq in E0. contradiction.
  - intros Hi. unfold getTotalTokensUsed, givenId.
    assert (Hne : String.eqb i "" = false) by (apply String.eqb_neq; exact Hi).
    rewrite Hne. cbn [render cl_sessions]. rewrite Hs, fold_left_add_sumZ.
    rewrite tokens_clear. reflexivity.
  - unfold st', clearSession. reflexivity.
Qed.

Lemma clearSession_empties_one_session_witness :
  getTotalTokensUsed
    (render (clearSession
               (render {| sessions := [answeredSession; Sample.plainSession "s0"];
                          currentSession := Some answeredSession;
                          isLoading := false; error := Some "x" |}) "s1" 9
               {| sessions := [answeredSession; Sample.plainSession "s0"];
                  currentSession := Some answeredSession;
                  isLoading := false; error := Some "x" |})) (Some "s1") = 0.
Proof.
  apply (clearSession_empties_one_session
           {| sessions := [answeredSession; Sample.plainSession "s0"];
              currentSession := Some answeredSession;
              isLoading := false; error := Some "x" |} "s1" 9).
  discriminate.
Defined.

Lemma findSession_id (i : string) (l : list ChatSession) (s : ChatSession) :
  findSession i l = Some s -> findSession (id s) l = Some s.
Proof.
  intros H. destruct (findSession_some i l s H) as [_ E]. rewrite E. exact H.
Qed.



(** ** Export *)

Lemma string_app_assoc (a b c : string) : (a ++ b) ++ c = a ++ (b ++ c).
Proof. induction a as [|x a IH]; simpl; [reflexivity|]. rewrite IH. reflexivity. Qed.

Lemma string_app_empty (a : string) : a ++ "" = a.
Proof. induction a as [|x a IH]; simpl; [reflexivity|]. rewrite IH. reflexivity. Qed.

Lemma fold_left_append_prefix {A : Type} (f : A -> string) (l : list A) (acc : string) :
  exists rest, fold_left (fun markdown x => markdown ++ f x) l acc = acc ++ rest.
Proof.
  revert acc. induction l as [|x l IH]; intros acc; simpl.
  - exists "". symmetry. apply string_app_empty.
  - destruct (IH (acc ++ f x)) as (rest & E). exists (f x ++ rest). rewrite E.
    apply string_app_assoc.
Qed.

(** X9: [exportSession] returns the empty string exactly when no session
    of the set has the given id; for a session of the set the Markdown
    export starts with the title line and the JSON export is the JSON of
    the session. *)
Theorem exportSession_empty_iff_unknown (toISOString : Z -> string)
    (toLocaleString : Date -> string) (cl : Closure) (sessionId : string) (format : Format) :
  (exportSession toISOString toLocaleString cl sessionId format = NotJson ""
   <-> findSession sessionId (cl_sessions cl) = None)
  /\ (forall s, findSession sessionId (cl_sessions cl) = Some s ->
        exportSession toISOString toLocaleString cl sessionId Fjson
        = JsonSession (stringifySession toISOString s)
        /\ exists rest,
             exportSession toISOString toLocaleString cl sessionId Fmarkdown
             = NotJson ("# " ++ title s ++ rest)).
Proof.
  assert (M : forall s, exists rest,
              markdownOf toLocaleString s = "# " ++ title s ++ rest).
  { intros s. unfold markdownOf.
    destruct (fold_left_append_prefix (markdownBlock toLocaleString) (messages s)
                ("# " ++ title s ++ newline ++ newline
                 ++ "*Creado: " ++ toLocaleString (createdAt s) ++ "*" ++ newline ++ newline))
      as (rest & E).
    rewrite E. eexists. cbn [append]. do 2 f_equal. apply string_app_assoc. }
  unfold exportSession. split.
  - destruct (findSession sessionId (cl_sessions cl)) as [s|].
    + split; [|discriminate]. destruct format.
      * discriminate.
      * destruct (M s) as (rest & E). rewrite E. cbn [append]. discriminate.
    + split; reflexivity.
  - intros s Hs. rewrite Hs. split; [reflexivity|].
    destruct (M s) as (rest & E). exists rest. rewrite E. reflexivity.
Qed.

Lemma exportSession_empty_iff_unknown_witness :
  exportSession Sample.decimalDate (fun _ => "ahora")
    {| cl_sessions := [answeredSession]; cl_currentSession := None |} "s1" Fjson
  = JsonSession (stringifySession Sample.decimalDate answeredSession).
Proof.
  exact (proj1 (proj2 (exportSession_empty_iff_unknown Sample.decimalDate
                         (fun _ => "ahora")
                         {| cl_sessions := [answeredSession]; cl_currentSession := None |}
                         "s1" Fjson) answeredSession eq_refl)).
Defined.

(** ** Loading and saving *)

(** X10: whatever the storage slot holds at initialization (nothing, the
    empty string, text that does not parse, a single object, an array of
    sessions), the store that [loadSessionsFromStorage] leaves has its
    active session in its set: the active session is the first loaded
    session, and none when no session was loaded; the loading flag and
    the error stay clear. *)
Theorem loadSessionsFromStorage_selects_first (Date_parse : string -> Date)
    (stored : option Text) :
  let st := fst (loadSessionsFromStorage Date_parse stored initialStore) in
  activeInSet st = true
  /\ currentSession st = hd_error (sessions st)
  /\ isLoading st = false
  /\ error st = None.
Proof.
  unfold loadSessionsFromStorage.
  destruct stored as [[s|l|s]|]; try (repeat split; reflexivity).
  - destruct (String.eqb s ""); repeat split; reflexivity.
  - destruct (map (reviveSession Date_parse) l) as [|first rest] eqn:E;
      [repeat split; reflexivity|].
    cbv zeta. cbn [fst]. unfold activeInSet.
    cbn [currentSession sessions setCurrentSession setSessions hasId existsb hd_error
         isLoading error initialStore].
    rewrite String.eqb_refl. repeat split; reflexivity.
Qed.

(** X11: when the storage accepts the write, [saveSessionsToStorage]
    leaves the store as it is, logs nothing and calls [setItem] once; a
    hook initialized from the slot it wrote has the same sessions in the
    same order (for sessions whose dates are valid) and takes the first
    of them as active session, the active session not being stored. *)
Theorem saveSessionsToStorage_then_load
    (toISOString : Z -> string) (Date_parse : string -> Date)
    (st : Store) (ls : LocalStorage) :
  (forall t, isTimeValue (ValidDate t) = true -> Date_parse (toISOString t) = ValidDate t) ->
  refuses ls (stringifySessions toISOString (sessions st)) = None ->
  forallb sessionDatesValid (sessions st) = true ->
  let out := saveSessionsToStorage toISOString (render st) st ls in
  let ls' := snd (fst out) in
  let reloaded := fst (loadSessionsFromStorage Date_parse (slot ls') initialStore) in
  fst (fst out) = st
  /\ snd out = []
  /\ attempts ls' = stringifySessions toISOString (sessions st) :: attempts ls
  /\ sessions reloaded = sessions st
  /\ currentSession reloaded = hd_error (sessions st).
Proof.
  intros Hrt Hok Hvalid. cbv zeta.
  unfold saveSessionsToStorage, setItem. cbn [render cl_sessions]. rewrite Hok.
  cbn [fst snd slot attempts].
  split; [reflexivity|]. split; [reflexivity|]. split; [reflexivity|].
  pose proof (loadSessionsFromStorage_selects_first Date_parse
                (Some (stringifySessions toISOString (sessions st)))) as (_ & Hc & _).
  cbv zeta in Hc.
  assert (Hs : sessions (fst (loadSessionsFromStorage Date_parse
                                (Some (stringifySessions toISOString (sessions st)))
                                initialStore)) = sessions st).
  { unfold loadSessionsFromStorage, stringifySessions.
    rewrite (reviveSessions_stringifySessions toISOString Date_parse Hrt _ Hvalid).
    destruct (sessions st); reflexivity. }
  split; [exact Hs|]. rewrite Hc, Hs. reflexivity.
Qed.

Lemma saveSessionsToStorage_then_load_witness :
  sessions
    (fst (loadSessionsFromStorage Sample.parseDecimal
            (slot (snd (fst (saveSessionsToStorage Sample.decimalDate
                               (render {| sessions := [Sample.plainSession "s0"; answeredSession];
                                          currentSession := Some answeredSession;
                                          isLoading := false; error := None |})
                               {| sessions := [Sample.plainSession "s0"; answeredSession];
                                  currentSession := Some answeredSession;
                                  isLoading := false; error := None |}
                               {| slot := None; refuses := fun _ => None;
                                  attempts := [] |}))))
            initialStore))
  = [Sample.plainSession "s0"; answeredSession].
Proof.
  exact (proj1 (proj2 (proj2 (proj2
    (saveSessionsToStorage_then_load Sample.decimalDate Sample.parseDecimal
       {| sessions := [Sample.plainSession "s0"; answeredSession];
          currentSession := Some answeredSession; isLoading := false; error := None |}
       {| slot := None; refuses := fun _ => None; attempts := [] |}
       (fun t _ => decimal_round_trip t) eq_refl eq_refl))))).
Defined.

(** X12: a refused write loses sessions only when it is refused with a
    QuotaExceededError and the set holds more than ten sessions.  Any
    other refusal is logged and not retried, and leaves the store and the
    slot as they were; a QuotaExceededError with ten sessions or fewer is
    retried with the same sessions and leaves the set whole. *)
Theorem saveSessionsToStorage_refused (toISOString : Z -> string) (st : Store)
    (ls : LocalStorage) (e : JsError) :
  refuses ls (stringifySessions toISOString (sessions st)) = Some e ->
  let out := saveSessionsToStorage toISOString (render st) st ls in
  (err_name e <> "QuotaExceededError" ->
     fst (fst out) = st
     /\ slot (snd (fst out)) = slot ls
     /\ attempts (snd (fst out))
        = stringifySessions toISOString (sessions st) :: attempts ls
     /\ snd out = [saveError])
  /\ (err_name e = "QuotaExceededError" ->
      (List.length (sessions st) <= 10)%nat ->
      sessions (fst (fst out)) = sessions st
      /\ slot (snd (fst out)) = slot ls).
Proof.
  intros Hq. cbv zeta. unfold saveSessionsToStorage, setItem.
  cbn [render cl_sessions]. rewrite Hq. split.
  - intros Hne. apply String.eqb_neq in Hne. rewrite Hne.
    cbn [fst snd slot attempts]. repeat split; reflexivity.
  - intros Hname Hlen. rewrite Hname, String.eqb_refl. cbn [refuses].
    rewrite (firstn_all2 (sessions st) Hlen), Hq.
    cbn [fst snd sessions setSessions slot]. split; reflexivity.
Qed.

Lemma saveSessionsToStorage_refused_witness :
  fst (fst (saveSessionsToStorage Sample.decimalDate
              (render {| sessions := [answeredSession]; currentSession := None;
                         isLoading := false; error := None |})
              {| sessions := [answeredSession]; currentSession := None;
                 isLoading := false; error := None |}
              {| slot := None;
                 refuses := fun _ => Some {| err_name := "SecurityError";
                                             err_message := "denied" |};
                 attempts := [] |}))
  = {| sessions := [answeredSession]; currentSession := None;
       isLoading := false; error := None |}.
Proof.
  refine (proj1 (proj1 (saveSessionsToStorage_refused Sample.decimalDate
            {| sessions := [answeredSession]; currentSession := None;
               isLoading := false; error := None |}
            {| slot := None;
               refuses := fun _ => Some {| err_name := "SecurityError";
                                           err_message := "denied" |};
               attempts := [] |}
            {| err_name := "SecurityError"; err_message := "denied" |} eq_refl) _)).
  discriminate.
Defined.

(** ** The loading flag and the waiting calls *)

Lemma filter_filter_swap {A : Type} (f g : A -> bool) (l : list A) :
  filter f (filter g l) = filter g (filter f l).
Proof.
  induction l as [|x l IH]; simpl; [reflexivity|].
  destruct (g x) eqn:G; destruct (f x) eqn:F; simpl;
    rewrite ?G, ?F, IH; reflexivity.
Qed.

(** X13: the loading flag does not follow the live request.  When
    [sendMessage] is called twice with no answer in between, the flag is
    up after the second call; the answer to the superseded first call
    then lowers it, although the second request is still waiting and not
    aborted. *)
Theorem superseded_call_lowers_loading_flag (options : Options) (em : string) (h : Hook) :
  reachable options em h ->
  forall cl1 c1 sid1 se1 me1 cl2 c2 sid2 se2 me2 r1 e1,
    let h1 := sendMessage_call options cl1 c1 sid1 se1 me1 h in
    let h2 := sendMessage_call options cl2 c2 sid2 se2 me2 h1 in
    isLoading (store h2) = true
    /\ exists g,
         deliver em (controllers h) r1 e1 h2 = Some (None, g)
         /\ isLoading (store g) = false
         /\ map p_controller (liveRequests g) = [S (controllers h)].
Proof.
  intros Hreach cl1 c1 sid1 se1 me1 cl2 c2 sid2 se2 me2 r1 e1 h1 h2.
  pose proof (reachable_orderly options em h Hreach) as Ho.
  pose proof (orderly_sendMessage_call options cl1 c1 sid1 se1 me1 h Ho) as Ho1.
  fold h1 in Ho1.
  destruct (sendMessage_call_fields options cl1 c1 sid1 se1 me1 h)
    as (Hr1 & _ & Hi1 & Hc1 & _). fold h1 in Hr1, Hi1, Hc1.
  destruct (sendMessage_call_fields options cl2 c2 sid2 se2 me2 h1)
    as (_ & Ha2 & Hi2 & _ & Hs2). fold h2 in Ha2, Hi2, Hs2.
  split.
  { rewrite Hs2. apply sendMessage_sync_flags. }
  assert (Hab1 : isAborted h2 (controllers h) = true).
  { apply isAborted_In. rewrite Ha2. unfold abortPrevious. rewrite Hr1. left. reflexivity. }
  assert (Hp1 : pendingOf (controllers h) h2
                = Some {| p_controller := controllers h;
                          p_current := cl_currentSession cl1;
                          p_updated := withMessage (targetOf cl1 sid1 se1)
                                         (userMessage c1 me1) (me_updatedAt me1);
                          p_request := buildRequest options
                                         (withMessage (targetOf cl1 sid1 se1)
                                            (userMessage c1 me1) (me_updatedAt me1));
                          p_head := None |}).
  { unfold pendingOf. rewrite Hi2, Hi1, <- app_assoc.
    rewrite find_app_skip.
    - simpl. rewrite Nat.eqb_refl. reflexivity.
    - intros x Hx. destruct Ho as (H1 & _). apply H1 in Hx. apply Nat.eqb_neq. lia. }
  destruct (deliver_aborted em (controllers h) r1 e1 h2 _ Hp1 eq_refl Hab1)
    as (g & Eg & Sg & Ag & Ig).
  exists g. split; [exact Eg|]. split; [rewrite Sg; reflexivity|].
  pose proof (sendMessage_call_live options cl2 c2 sid2 se2 me2 h1 Ho1) as Hlive.
  fold h2 in Hlive. rewrite Hc1 in Hlive.
  unfold liveRequests in *. rewrite Ig.
  assert (Hsame : forall p, isAborted g (p_controller p) = isAborted h2 (p_controller p)).
  { intros p. unfold isAborted. rewrite Ag. reflexivity. }
  rewrite (filter_ext _ (fun p => negb (isAborted h2 (p_controller p))))
    by (intros p; rewrite Hsame; reflexivity).
  rewrite filter_filter_swap.
  destruct (filter (fun p => negb (isAborted h2 (p_controller p))) (inflight h2))
    as [|q [|q' l]]; try discriminate.
  injection Hlive as Hq. simpl. rewrite Hq.
  replace (Nat.eqb (S (controllers h)) (controllers h)) with false
    by (symmetry; apply Nat.eqb_neq; lia).
  simpl. rewrite Hq. reflexivity.
Qed.

Lemma superseded_call_lowers_loading_flag_witness :
  reachable Sample.options Sample.engineMessage initialHook
  /\ exists g,
       deliver Sample.engineMessage 0%nat (Sample.completion "uno" 42)
         (Sample.messageEnv "a1" 4)
         (sendMessage_call Sample.options (render (store Sample.firstCall)) "otra" None
            (Sample.sessionEnv "s2" 3) (Sample.messageEnv "u2" 3) Sample.firstCall)
       = Some (None, g)
       /\ isLoading (store g) = false
       /\ map p_controller (liveRequests g) = [1%nat].
Proof.
  split; [constructor|].
  exact (proj2 (superseded_call_lowers_loading_flag Sample.options Sample.engineMessage
                  initialHook (reachable_init Sample.options Sample.engineMessage)
                  (render initialStore) "hola" None (Sample.sessionEnv "s1" 1)
                  (Sample.messageEnv "u1" 2)
                  (render (store Sample.firstCall)) "otra" None (Sample.sessionEnv "s2" 3)
                  (Sample.messageEnv "u2" 3)
                  (Sample.completion "uno" 42) (Sample.messageEnv "a1" 4))).
Defined.

(** ** The order of the sessions *)

Lemma sendMessage_resume_sessionIds (em : string) (k : nat) (a : Arrival) (me : MessageEnv)
    (h : Hook) (pr : Progress) (h1 : Hook) :
  sendMessage_resume em k a me h = Some (pr, h1) ->
  sessionIds (store h1) = sessionIds (store h).
Proof.
  assert (F : forall p r, Some (finish em p r me h) = Some (pr, h1) ->
             sessionIds (store h1) = sessionIds (store h)).
  { intros p r E. assert (E' : finish em p r me h = (pr, h1)) by congruence.
    rewrite finish_unfold in E'.
    assert (E2 : snd (sendMessage_settle em p r me (store h)) = store h1).
    { apply (f_equal (fun x => store (snd x))) in E'. exact E'. }
    rewrite <- E2. unfold sessionIds, sessionIds_of.
    destruct (sendMessage_settle_sessions em p r me (store h)) as [E3|[m E3]]; rewrite E3;
      [reflexivity | apply map_id_replaceSession]. }
  unfold sendMessage_resume. destruct (pendingOf k h) as [p|]; [|discriminate].
  destruct (p_head p) as [hd|]; destruct a as [e|hd'|j]; try discriminate.
  - apply F.
  - apply F.
  - destruct (isAborted h (p_controller p)); [apply F|].
    unfold waitForBody. intros E.
    assert (E' : store h = store h1).
    { apply (f_equal (fun x => match x with
                               | Some (_, g) => store g
                               | None => store h
                               end)) in E. exact E. }
    rewrite E'. reflexivity.
Qed.

Lemma map_id_filter_other (i : string) (l : list ChatSession) :
  map id (filter (fun s => negb (String.eqb (id s) i)) l)
  = filter (fun j => negb (String.eqb j i)) (map id l).
Proof.
  induction l as [|s l IH]; [reflexivity|]. cbn [filter map].
  destruct (String.eqb (id s) i); cbn [negb map]; rewrite IH; reflexivity.
Qed.

(** No operation of the hook reorders the sessions: an event leaves the
    ids of the set as they are, puts the id of a new session in front, or
    removes an id.  The list is thus in order of creation, the newest
    session first, whatever session was used last. *)
Lemma step_keeps_order (options : Options) (em : string) (cl : Closure) (e : Event)
    (h : Hook) :
  let ids := sessionIds (store h) in
  let ids' := sessionIds (store (step options em cl e h)) in
  ids' = ids
  \/ (exists i, ids' = i :: ids)
  \/ (exists i, ids' = filter (fun j => negb (String.eqb j i)) ids).
Proof.
  cbv zeta. destruct e as [t se|text sessionId se me|k a me|i|i|i now]; cbn [step].
  - right. left. exists (se_id se). reflexivity.
  - destruct (sendMessage_call_fields options cl text sessionId se me h)
      as (_ & _ & _ & _ & Hs).
    rewrite Hs. unfold sessionIds, sessionIds_of.
    rewrite sendMessage_sync_sessions, map_id_replaceSession.
    destruct (resolveTarget cl sessionId); [left; reflexivity|].
    right. left. exists (se_id se). reflexivity.
  - left. destruct (sendMessage_resume em k a me h) as [[pr h1]|] eqn:E;
      [|reflexivity].
    exact (sendMessage_resume_sessionIds em k a me h pr h1 E).
  - left. unfold selectSession. cbn [store withStore].
    destruct (findSession i (cl_sessions cl)); reflexivity.
  - right. right. exists i. cbn [store withStore]. unfold deleteSession, sessionIds,
      sessionIds_of. cbv zeta.
    destruct (currentIs (cl_currentSession cl) i);
      cbn [sessions setSessions setCurrentSession]; apply map_id_filter_other.
  - left. cbn [store withStore]. unfold clearSession, sessionIds, sessionIds_of. cbv zeta.
    destruct (currentIs (cl_currentSession cl) i);
      cbn [sessions setSessions setCurrentSession setError];
      rewrite map_map; apply map_ext; intros s;
      destruct (String.eqb (id s) i); reflexivity.
Qed.

(** The first ten sessions are not the ten used last: here the session
    the truncation drops is the one that was updated last. *)
Lemma truncation_drops_session_used_last :
  let st := sv_store (timeoutFires Sample.options Sample.decimalDate savingOnFullStorage) in
  hasId "s1" (sessions (sv_store savingOnFullStorage)) = true
  /\ hasId "s1" (sessions st) = false
  /\ forallb (fun s => match updatedAt s with
                       | ValidDate t => t <? 50
                       | InvalidDate => false
                       end) (sessions st) = true
  /\ option_map updatedAt (findSession "s1" (sessions (sv_store savingOnFullStorage)))
     = Some (ValidDate 50).
Proof. vm_compute. repeat split; reflexivity. Qed.

Lemma hasId_findSession_some (i : string) (l : list ChatSession) :
  hasId i l = true -> findSession i l <> None.
Proof.
  unfold hasId, findSession. induction l as [|s l IH]; simpl; [discriminate|].
  destruct (String.eqb (id s) i); [discriminate | exact IH].
Qed.

Lemma targetInSet_after_call (cl : Closure) (content : string) (sessionId : option string)
    (se : SessionEnv) (me : MessageEnv) (st : Store) :
  targetInSet cl sessionId st = true ->
  hasId (id (targetOf cl sessionId se))
    (sessions (snd (sendMessage_sync cl content sessionId se me st))) = true.
Proof.
  unfold targetInSet, targetOf. intros H.
  rewrite sendMessage_sync_sessions, sendMessage_sync_updated.
  change (id (match resolveTarget cl sessionId with
              | Some t => t
              | None => newSession None se
              end))
    with (id (withMessage (targetOf cl sessionId se) (userMessage content me)
                (me_updatedAt me))).
  rewrite hasId_replaceSession. unfold targetOf. cbn [id withMessage].
  destruct (resolveTarget cl sessionId) as [t|]; [exact H|].
  simpl. rewrite String.eqb_refl. reflexivity.
Qed.

(** X23: one live request at a time, and one assistant message for two
    calls.  In a hook reached from the initial one, at most one waiting
    call has a controller that was not aborted.  When [sendMessage] is
    called twice with no answer in between, the second call, whose target
    is in the set, aborts the controller of the first and is the only live
    request; whatever the network answers to the first call and in
    whichever order the two answers arrive, the first call returns null,
    the second call (its answer not being a cancellation) returns one
    assistant message, and the stored session of the second call's target
    ends as that target followed by the second user message and that one
    assistant message, no other session being touched. *)
Theorem one_request_at_a_time (options : Options) (em : string) (h : Hook) :
  reachable options em h ->
  (List.length (liveRequests h) <= 1)%nat
  /\ forall cl1 c1 sid1 se1 me1 cl2 c2 sid2 se2 me2 r1 r2 e1 e2,
       isCancelled r2 = false ->
       let h1 := sendMessage_call options cl1 c1 sid1 se1 me1 h in
       let h2 := sendMessage_call options cl2 c2 sid2 se2 me2 h1 in
       let k1 := controllers h in
       let k2 := S k1 in
       let t2 := targetOf cl2 sid2 se2 in
       targetInSet cl2 sid2 (store h1) = true ->
       map p_controller (liveRequests h1) = [k1]
       /\ isAborted h2 k1 = true
       /\ map p_controller (liveRequests h2) = [k2]
       /\ exists m hA hB,
            role m = assistant
            /\ answerBoth em (k1, r1, e1) (k2, r2, e2) h2 = Some (None, Some m, hA)
            /\ answerBoth em (k2, r2, e2) (k1, r1, e1) h2 = Some (Some m, None, hB)
            /\ sessions (store hB) = sessions (store hA)
            /\ messagesOf (id t2) (store hA)
               = Some (messages t2 ++ [userMessage c2 me2; m])%list
            /\ others (id t2) (sessions (store hA)) = others (id t2) (sessions (store h2))
            /\ sessionIds (store hA) = sessionIds (store h2).
Proof.
  intros Hreach. pose proof (reachable_orderly options em h Hreach) as Ho.
  split; [apply orderly_one_live, Ho|].
  intros cl1 c1 sid1 se1 me1 cl2 c2 sid2 se2 me2 r1 r2 e1 e2 Hr2 h1 h2 k1 k2 t2 Hin.
  set (u2 := withMessage t2 (userMessage c2 me2) (me_updatedAt me2)).
  pose proof (orderly_sendMessage_call options cl1 c1 sid1 se1 me1 h Ho) as Ho1.
  fold h1 in Ho1.
  destruct (sendMessage_call_fields options cl1 c1 sid1 se1 me1 h)
    as (Hr1 & Ha1 & Hi1 & Hc1 & _). fold h1 k1 in Hr1, Ha1, Hi1, Hc1.
  destruct (sendMessage_call_fields options cl2 c2 sid2 se2 me2 h1)
    as (_ & Ha2 & Hi2 & _ & Hs2). fold h2 t2 u2 in Ha2, Hi2, Hs2.
  rewrite Hc1 in Hi2. fold k2 in Hi2.
  assert (Hab1 : isAborted h2 k1 = true).
  { apply isAborted_In. rewrite Ha2. unfold abortPrevious. rewrite Hr1. left. reflexivity. }
  assert (Hab2 : isAborted h2 k2 = false).
  { apply isAborted_fresh. intros x Hx. rewrite Ha2 in Hx.
    apply (abortPrevious_below h1 x Ho1) in Hx. rewrite Hc1 in Hx. exact Hx. }
  assert (Hold : forall k (x : Pending), (controllers h <= k)%nat ->
             In x (inflight h) -> Nat.eqb (p_controller x) k = false).
  { intros k x Hk Hx. destruct Ho as (H1 & _). apply H1 in Hx. apply Nat.eqb_neq. lia. }
  split; [apply sendMessage_call_live, Ho|].
  split; [exact Hab1|].
  split; [unfold h2, k2; rewrite <- Hc1; apply sendMessage_call_live, Ho1|].
  destruct (answerBoth_superseded em h2 k1 k2
           {| p_controller := k1; p_current := cl_currentSession cl1;
              p_updated := withMessage (targetOf cl1 sid1 se1) (userMessage c1 me1)
                             (me_updatedAt me1);
              p_request := buildRequest options
                             (withMessage (targetOf cl1 sid1 se1) (userMessage c1 me1)
                                (me_updatedAt me1));
              p_head := None |}
           {| p_controller := k2; p_current := cl_currentSession cl2;
              p_updated := u2; p_request := buildRequest options u2; p_head := None |}
           r1 r2 e1 e2) as (m & hA & hB & Hm & HA & HB & HsA & HsB).
  - unfold k2. lia.
  - unfold pendingOf. rewrite Hi2, Hi1, <- app_assoc.
    rewrite find_app_skip by (intros x Hx; apply Hold; [unfold k1; lia | exact Hx]).
    simpl. rewrite Nat.eqb_refl. reflexivity.
  - unfold pendingOf. rewrite Hi2, Hi1, <- app_assoc.
    rewrite find_app_skip by (intros x Hx; apply Hold; [unfold k2, k1; lia | exact Hx]).
    simpl. replace (Nat.eqb k1 k2) with false
      by (symmetry; apply Nat.eqb_neq; unfold k2; lia).
    rewrite Nat.eqb_refl. reflexivity.
  - reflexivity.
  - reflexivity.
  - exact Hab1.
  - exact Hab2.
  - exact Hr2.
  - cbn [p_updated] in HsA.
    assert (Hset : hasId (id t2) (sessions (store h2)) = true).
    { rewrite Hs2. apply targetInSet_after_call, Hin. }
    exists m, hA, hB. split; [exact Hm|]. split; [exact HA|]. split; [exact HB|].
    split; [exact HsB|].
    change (id t2) with (id (withMessage u2 m (me_updatedAt e2))).
    split; [|split].
    + unfold messagesOf. rewrite HsA.
      rewrite findSession_replaceSession
        by (apply hasId_findSession_some; exact Hset).
      cbn [option_map messages withMessage u2]. rewrite <- app_assoc. reflexivity.
    + rewrite HsA. apply others_replaceSession.
    + unfold sessionIds, sessionIds_of. rewrite HsA. apply map_id_replaceSession.
Qed.

Lemma one_request_at_a_time_witness :
  reachable Sample.options Sample.engineMessage createdHook
  /\ isCancelled (Sample.completion "dos" 58) = false
  /\ exists m hA hB,
       role m = assistant
       /\ answerBoth Sample.engineMessage
            (0%nat, Sample.completion "uno" 42, Sample.messageEnv "a1" 4)
            (1%nat, Sample.completion "dos" 58, Sample.messageEnv "a2" 5)
            (sendMessage_call Sample.options (render (store createdThenSent)) "otra" None
               (Sample.sessionEnv "s3" 3) (Sample.messageEnv "u2" 3) createdThenSent)
          = Some (None, Some m, hA)
       /\ answerBoth Sample.engineMessage
            (1%nat, Sample.completion "dos" 58, Sample.messageEnv "a2" 5)
            (0%nat, Sample.completion "uno" 42, Sample.messageEnv "a1" 4)
            (sendMessage_call Sample.options (render (store createdThenSent)) "otra" None
               (Sample.sessionEnv "s3" 3) (Sample.messageEnv "u2" 3) createdThenSent)
          = Some (Some m, None, hB)
       /\ sessions (store hB) = sessions (store hA)
       /\ messagesOf "s1" (store hA)
          = Some [userMessage "hola" (Sample.messageEnv "u1" 2);
                  userMessage "otra" (Sample.messageEnv "u2" 3); m].
Proof.
  assert (R : reachable Sample.options Sample.engineMessage createdHook)
    by (apply reachable_step; constructor).
  split; [exact R|]. split; [reflexivity|].
  destruct (proj2 (one_request_at_a_time Sample.options Sample.engineMessage createdHook R)
              (render (store createdHook)) "hola" None (Sample.sessionEnv "s2" 2)
              (Sample.messageEnv "u1" 2)
              (render (store createdThenSent)) "otra" None (Sample.sessionEnv "s3" 3)
              (Sample.messageEnv "u2" 3)
              (Sample.completion "uno" 42) (Sample.completion "dos" 58)
              (Sample.messageEnv "a1" 4) (Sample.messageEnv "a2" 5) eq_refl eq_refl)
    as (_ & _ & _ & m & hA & hB & H1 & H2 & H3 & H4 & H5 & _).
  exists m, hA, hB. repeat split; assumption.
Defined.

(** * Properties of the Angular service *)

Section ServiceFacts.

Variable toISOString : Z -> string.
Variable Date_parse : string -> Date.

Lemma service_save_fields (s : ChatService.Service) :
  ChatService._sessions (ChatService.saveSessionsToStorage toISOString s)
  = ChatService._sessions s
  /\ ChatService._currentSession (ChatService.saveSessionsToStorage toISOString s)
     = ChatService._currentSession s
  /\ ChatService._isLoading (ChatService.saveSessionsToStorage toISOString s)
     = ChatService._isLoading s
  /\ ChatService._error (ChatService.saveSessionsToStorage toISOString s)
     = ChatService._error s
  /\ ChatService.issued (ChatService.saveSessionsToStorage toISOString s)
     = ChatService.issued s.
Proof.
  unfold ChatService.saveSessionsToStorage.
  destruct (setItem _ _) as [[e|] ls]; repeat split.
Qed.

Lemma service_addMessage_fields (i : string) (m : ChatMessage) (now : Z)
    (s : ChatService.Service) :
  ChatService._sessions (ChatService.addMessageToSession toISOString i m now s)
  = map (fun session => if String.eqb (id session) i
                        then withMessage session m now else session)
        (ChatService._sessions s)
  /\ ChatService._currentSession (ChatService.addMessageToSession toISOString i m now s)
     = match ChatService._currentSession s with
       | Some c => if String.eqb (id c) i
                   then Some (ChatService.appended c m) else Some c
       | None => None
       end
  /\ ChatService._isLoading (ChatService.addMessageToSession toISOString i m now s)
     = ChatService._isLoading s
  /\ ChatService._error (ChatService.addMessageToSession toISOString i m now s)
     = ChatService._error s
  /\ ChatService.issued (ChatService.addMessageToSession toISOString i m now s)
     = ChatService.issued s.
Proof.
  unfold ChatService.addMessageToSession. cbv zeta.
  destruct (service_save_fields
              (ChatService.next
                 (map (fun session => if String.eqb (id session) i
                                      then withMessage session m now else session)
                      (ChatService._sessions s))
                 match ChatService._currentSession s with
                 | Some c => if String.eqb (id c) i
                             then Some (ChatService.appended c m) else Some c
                 | None => None
                 end s)) as (H1 & H2 & H3 & H4 & H5).
  rewrite H1, H2, H3, H4, H5. repeat split.
Qed.

(** Where the service finds or creates the session of a call. *)
Lemma service_sendMessage_unfold (content : string) (sessionId : option string)
    (se : SessionEnv) (me : MessageEnv) (s : ChatService.Service) :
  let session := match ChatService.resolved sessionId s with
                 | Some t => t
                 | None => newSession None se
                 end in
  let s0 := match ChatService.resolved sessionId s with
            | Some _ => s
            | None => snd (ChatService.createNewSession toISOString None se s)
            end in
  let out := ChatService.sendMessage toISOString content sessionId se me s in
  ChatService.i_session (fst out) = id session
  /\ req_messages (ChatService.i_request (fst out)) = apiMessages session
  /\ ChatService._sessions (snd out)
     = map (fun x => if String.eqb (id x) (id session)
                     then withMessage x (userMessage content me) (me_updatedAt me) else x)
           (ChatService._sessions s0)
  /\ ChatService._isLoading (snd out) = true
  /\ ChatService._error (snd out) = None
  /\ ChatService.issued (snd out) = (ChatService.issued s ++ [fst out])%list.
Proof.
  cbv zeta. unfold ChatService.sendMessage.
  destruct (ChatService.resolved sessionId s) as [t|];
    cbn [fst snd ChatService.createNewSession ChatService.i_session ChatService.i_request
         req_messages ChatService._sessions ChatService._isLoading ChatService._error
         ChatService.issued ChatService.setFlags].
  - destruct (service_addMessage_fields (id t) (userMessage content me) (me_updatedAt me) s)
      as (H1 & _ & _ & _ & H5).
    rewrite H1, H5. repeat split.
  - destruct (service_addMessage_fields (id (newSession None se))
                (userMessage content me) (me_updatedAt me)
                (ChatService.saveSessionsToStorage toISOString
                   (ChatService.next (newSession None se :: ChatService._sessions s)
                      (Some (newSession None se)) s)))
      as (H1 & _ & _ & _ & H5).
    rewrite H1, H5.
    destruct (service_save_fields
                (ChatService.next (newSession None se :: ChatService._sessions s)
                   (Some (newSession None se)) s)) as (_ & _ & _ & _ & H5').
    rewrite H5'. repeat split.
Qed.

End ServiceFacts.

Lemma findSession_map (f : ChatSession -> ChatSession) (j : string) (l : list ChatSession) :
  (forall x, id (f x) = id x) ->
  findSession j (map f l) = option_map f (findSession j l).
Proof.
  intros Hf. unfold findSession. induction l as [|x l IH]; simpl; [reflexivity|].
  rewrite Hf. destruct (String.eqb (id x) j); [reflexivity | exact IH].
Qed.

Lemma id_addMessage (i : string) (m : ChatMessage) (now : Z) (x : ChatSession) :
  id (if String.eqb (id x) i then withMessage x m now else x) = id x.
Proof. destruct (String.eqb (id x) i); reflexivity. Qed.



(** X14: in the service, [sendMessage] appends the user message to the
    stored session of its target, whatever copy of it the service holds
    as current session: the stored session of that id has its earlier
    messages followed by the new one.  When no target is found, the new
    session is put in front of the set with the user message as its only
    message. *)
Theorem service_sendMessage_appends (toISOString : Z -> string) (content : string)
    (sessionId : option string) (se : SessionEnv) (me : MessageEnv)
    (s : ChatService.Service) :
  let out := ChatService.sendMessage toISOString content sessionId se me s in
  (forall t e, ChatService.resolved sessionId s = Some t ->
     findSession (id t) (ChatService._sessions s) = Some e ->
     findSession (id t) (ChatService._sessions (snd out))
     = Some (withMessage e (userMessage content me) (me_updatedAt me))
     /\ sessionIds_of (ChatService._sessions (snd out))
        = sessionIds_of (ChatService._sessions s))
  /\ (ChatService.resolved sessionId s = None ->
      hasId (se_id se) (ChatService._sessions s) = false ->
      ChatService._sessions (snd out)
      = withMessage (newSession None se) (userMessage content me) (me_updatedAt me)
        :: ChatService._sessions s).
Proof.
  cbv zeta.
  destruct (service_sendMessage_unfold toISOString content sessionId se me s)
    as (_ & _ & Hs & _). cbv zeta in Hs. split.
  - intros t e Ht He. rewrite Ht in Hs. rewrite Hs. split.
    + rewrite findSession_map by (intros x; apply id_addMessage).
      rewrite He. cbn [option_map].
      destruct (findSession_some (id t) _ e He) as [_ Hid].
      rewrite Hid, String.eqb_refl. reflexivity.
    + unfold sessionIds_of. rewrite map_map. apply map_ext. intros x. apply id_addMessage.
  - intros Hn Hfresh. rewrite Hn in Hs. rewrite Hs.
    destruct (service_save_fields toISOString
                (ChatService.next (newSession None se :: ChatService._sessions s)
                   (Some (newSession None se)) s)) as (H1 & _).
    cbn [snd ChatService.createNewSession]. rewrite H1.
    cbn [ChatService._sessions ChatService.next map newSession id].
    rewrite String.eqb_refl. f_equal.
    clear - Hfresh. induction (ChatService._sessions s) as [|x l IH]; [reflexivity|].
    simpl in Hfresh. apply orb_false_iff in Hfresh. destruct Hfresh as [Hx Hl].
    cbn [map]. rewrite Hx, IH by exact Hl. reflexivity.
Qed.

Lemma service_sendMessage_appends_witness :
  findSession "s1"
    (ChatService._sessions
       (snd (ChatService.sendMessage Sample.decimalDate "otra" None
               (Sample.sessionEnv "s9" 1) (Sample.messageEnv "u2" 2) sampleService)))
  = Some (withMessage answeredSession (userMessage "otra" (Sample.messageEnv "u2" 2)) 2).
Proof.
  exact (proj1 (proj1 (service_sendMessage_appends Sample.decimalDate "otra" None
                         (Sample.sessionEnv "s9" 1) (Sample.messageEnv "u2" 2)
                         sampleService)
                  answeredSession answeredSession eq_refl eq_refl)).
Defined.

(** X15: the request of the service does not carry the message being
    sent.  Its history is read from the session object found before the
    user message was added, so the request has the messages of that
    object and nothing more: for a target whose stored session has the
    same messages, the stored session after the call is the request's
    history followed by the user message, and for a session created by
    the call the request has no message at all. *)
Theorem service_request_lacks_user_message (toISOString : Z -> string) (content : string)
    (sessionId : option string) (se : SessionEnv) (me : MessageEnv)
    (s : ChatService.Service) :
  let out := ChatService.sendMessage toISOString content sessionId se me s in
  (forall t e, ChatService.resolved sessionId s = Some t ->
     findSession (id t) (ChatService._sessions s) = Some e ->
     messages e = messages t ->
     req_messages (ChatService.i_request (fst out)) = apiMessages t
     /\ exists e', findSession (id t) (ChatService._sessions (snd out)) = Some e'
                   /\ apiMessages e'
                      = (req_messages (ChatService.i_request (fst out))
                         ++ [{| api_role := user; api_content := content |}])%list)
  /\ (ChatService.resolved sessionId s = None ->
      req_messages (ChatService.i_request (fst out)) = []).
Proof.
  cbv zeta.
  destruct (service_sendMessage_unfold toISOString content sessionId se me s)
    as (_ & Hr & _). cbv zeta in Hr. split.
  - intros t e Ht He Hm. rewrite Ht in Hr. split; [exact Hr|].
    destruct (proj1 (service_sendMessage_appends toISOString content sessionId se me s)
                t e Ht He) as [Hf _].
    eexists. split; [exact Hf|].
    rewrite apiMessages_withMessage, Hr. unfold apiMessages. rewrite Hm. reflexivity.
  - intros Hn. rewrite Hn in Hr. exact Hr.
Qed.

Lemma service_request_lacks_user_message_witness :
  map api_content
    (req_messages
       (ChatService.i_request
          (fst (ChatService.sendMessage Sample.decimalDate "otra" None
                  (Sample.sessionEnv "s9" 1) (Sample.messageEnv "u2" 2) sampleService))))
  = ["hola"; "uno"].
Proof.
  rewrite (proj1 (proj1 (service_request_lacks_user_message Sample.decimalDate "otra" None
                           (Sample.sessionEnv "s9" 1) (Sample.messageEnv "u2" 2)
                           sampleService)
                    answeredSession answeredSession eq_refl eq_refl eq_refl)).
  reflexivity.
Defined.

Section ServiceInvariants.

Variable toISOString : Z -> string.
Variable Date_parse : string -> Date.
Variable engineMessage : string.

Lemma inStep_intro (l : list ChatSession) (c : option ChatSession) (s : ChatService.Service) :
  match c with
  | Some x => option_map messages (findSession (id x) l) = Some (messages x)
  | None => True
  end ->
  ChatService.inStep (ChatService.saveSessionsToStorage toISOString (ChatService.next l c s)).
Proof.
  intros H. unfold ChatService.inStep.
  destruct (service_save_fields toISOString (ChatService.next l c s)) as (H1 & H2 & _).
  rewrite H1, H2. exact H.
Qed.

Lemma inStep_addMessageToSession (i : string) (m : ChatMessage) (now : Z)
    (s : ChatService.Service) :
  ChatService.inStep s ->
  ChatService.inStep (ChatService.addMessageToSession toISOString i m now s).
Proof.
  intros H. unfold ChatService.addMessageToSession. cbv zeta. apply inStep_intro.
  unfold ChatService.inStep in H.
  destruct (ChatService._currentSession s) as [c|]; [|exact I].
  destruct (String.eqb (id c) i) eqn:E.
  - cbn [id ChatService.appended messages].
    rewrite findSession_map by (intros x; apply id_addMessage).
    destruct (findSession (id c) (ChatService._sessions s)) as [e|] eqn:F;
      [|discriminate].
    cbn [option_map] in *. injection H as H.
    destruct (findSession_some (id c) _ e F) as [_ Hid].
    rewrite Hid, E. cbn [messages withMessage]. rewrite H. reflexivity.
  - rewrite findSession_map by (intros x; apply id_addMessage).
    destruct (findSession (id c) (ChatService._sessions s)) as [e|] eqn:F;
      [|discriminate].
    cbn [option_map] in *. injection H as H.
    destruct (findSession_some (id c) _ e F) as [_ Hid].
    rewrite Hid, E. rewrite H. reflexivity.
Qed.

Lemma inStep_setFlags (b : bool) (e : option string) (s : ChatService.Service) :
  ChatService.inStep s -> ChatService.inStep (ChatService.setFlags b e s).
Proof. intros H. exact H. Qed.

Lemma inStep_createNewSession (t : option string) (se : SessionEnv)
    (s : ChatService.Service) :
  ChatService.inStep (snd (ChatService.createNewSession toISOString t se s)).
Proof.
  unfold ChatService.createNewSession. cbn [snd]. apply inStep_intro.
  unfold findSession. cbn [find]. rewrite String.eqb_refl. reflexivity.
Qed.

Lemma inStep_selectSession (i : string) (s : ChatService.Service) :
  ChatService.inStep s -> ChatService.inStep (ChatService.selectSession i s).
Proof.
  intros H. unfold ChatService.selectSession.
  destruct (findSession i (ChatService._sessions s)) as [x|] eqn:F; [|exact H].
  unfold ChatService.inStep. cbn [ChatService._currentSession ChatService._sessions
    ChatService.next].
  rewrite (findSession_id i _ x F). reflexivity.
Qed.

Lemma findSession_others (i j : string) (l : list ChatSession) :
  String.eqb j i = false ->
  findSession j (filter (fun x => negb (String.eqb (id x) i)) l) = findSession j l.
Proof.
  intros Hji. unfold findSession. induction l as [|x l IH]; simpl; [reflexivity|].
  destruct (String.eqb (id x) i) eqn:E; simpl.
  - rewrite IH. destruct (String.eqb (id x) j) eqn:Ej; [|reflexivity].
    apply String.eqb_eq in E, Ej. subst. rewrite String.eqb_refl in Hji. discriminate.
  - rewrite IH. reflexivity.
Qed.

Lemma inStep_deleteSession (i : string) (s : ChatService.Service) :
  ChatService.inStep s -> ChatService.inStep (ChatService.deleteSession toISOString i s).
Proof.
  intros H. unfold ChatService.deleteSession. cbv zeta.
  unfold ChatService.inStep in H.
  destruct (ChatService._currentSession s) as [c|] eqn:Hc; cbn [currentIs].
  - destruct (String.eqb (id c) i) eqn:E.
    + cbn [ChatService.next]. apply (inStep_intro _ _ s).
      destruct (filter _ (ChatService._sessions s)) as [|x l]; cbn [firstOrNull hd_error];
        [exact I|].
      unfold findSession. cbn [find]. rewrite String.eqb_refl. reflexivity.
    + apply inStep_intro. rewrite findSession_others by exact E. exact H.
  - apply inStep_intro. exact I.
Qed.

Lemma id_clear (i : string) (now : Z) (x : ChatSession) :
  id (if String.eqb (id x) i then clearMessages now x else x) = id x.
Proof. destruct (String.eqb (id x) i); reflexivity. Qed.

Lemma inStep_clearSession (i : string) (now : Z) (s : ChatService.Service) :
  ChatService.inStep s -> ChatService.inStep (ChatService.clearSession toISOString i now s).
Proof.
  intros H. unfold ChatService.clearSession. cbv zeta. apply inStep_intro.
  unfold ChatService.inStep in H.
  destruct (ChatService._currentSession s) as [c|]; [|exact I].
  destruct (findSession (id c) (ChatService._sessions s)) as [e|] eqn:F; [|discriminate].
  cbn [option_map] in H. injection H as H.
  destruct (findSession_some (id c) _ e F) as [_ Hid].
  destruct (String.eqb (id c) i) eqn:E.
  - cbn [id emptied messages].
    rewrite findSession_map by (intros x; apply id_clear).
    rewrite F. cbn [option_map]. rewrite Hid, E. reflexivity.
  - rewrite findSession_map by (intros x; apply id_clear).
    rewrite F. cbn [option_map]. rewrite Hid, E, H. reflexivity.
Qed.

Lemma inStep_sendMessage (content : string) (sessionId : option string)
    (se : SessionEnv) (me : MessageEnv) (s : ChatService.Service) :
  ChatService.inStep s ->
  ChatService.inStep (snd (ChatService.sendMessage toISOString content sessionId se me s)).
Proof.
  intros H. unfold ChatService.sendMessage.
  destruct (ChatService.resolved sessionId s) as [t|]; cbn [snd].
  - exact (inStep_addMessageToSession (id t) (userMessage content me) (me_updatedAt me) s H).
  - exact (inStep_addMessageToSession (id (newSession None se)) (userMessage content me)
             (me_updatedAt me) _ (inStep_createNewSession None se s)).
Qed.

Lemma inStep_sendMessage_pipe (i : ChatService.Issued) (o : ChatService.Outcome)
    (me : MessageEnv) (s : ChatService.Service) :
  ChatService.inStep s ->
  ChatService.inStep (snd (ChatService.sendMessage_pipe toISOString engineMessage i o me s)).
Proof.
  intros H.
  assert (C : forall e,
            ChatService.inStep (snd (ChatService.sendMessage_catchError toISOString i e me s))).
  { intros e. unfold ChatService.sendMessage_catchError. cbn [snd].
    apply inStep_addMessageToSession. exact H. }
  unfold ChatService.sendMessage_pipe. destruct o as [data|e]; [|apply C].
  destruct (choices data) as [cs|]; [|apply C].
  cbn [snd]. apply inStep_setFlags, inStep_addMessageToSession, H.
Qed.

Lemma inStep_step (e : ChatService.Event) (s : ChatService.Service) :
  ChatService.inStep s -> ChatService.inStep (ChatService.step toISOString engineMessage e s).
Proof.
  intros H. destruct e; cbn [ChatService.step].
  - apply inStep_createNewSession.
  - apply inStep_sendMessage, H.
  - destruct (nth_error (ChatService.issued s) k); [apply inStep_sendMessage_pipe|]; exact H.
  - apply inStep_selectSession, H.
  - apply inStep_deleteSession, H.
  - apply inStep_clearSession, H.
Qed.

Lemma inStep_construct (ls : LocalStorage) :
  ChatService.inStep (ChatService.construct Date_parse ls).
Proof.
  unfold ChatService.construct, ChatService.loadSessionsFromStorage, ChatService.inStep.
  cbn [ChatService.localStorage].
  destruct (slot ls) as [[t|l|x]|]; try exact I.
  destruct (String.eqb t ""); exact I.
Qed.

Lemma inStep_run (es : list ChatService.Event) (s : ChatService.Service) :
  ChatService.inStep s -> ChatService.inStep (ChatService.run toISOString engineMessage es s).
Proof.
  revert s. induction es as [|e es IH]; intros s H; [exact H|].
  cbn [ChatService.run]. apply IH, inStep_step, H.
Qed.

End ServiceInvariants.

(** X16: in the service the active copy never falls behind.  After any
    sequence of method calls and answers, in any order, on a service
    constructed from any storage, the active session (when there is one)
    is in the set and has the messages of the stored session of its
    id. *)
Theorem service_active_copy_in_step (toISOString : Z -> string) (Date_parse : string -> Date)
    (engineMessage : string) (ls : LocalStorage) (es : list ChatService.Event) :
  let s := ChatService.run toISOString engineMessage es (ChatService.construct Date_parse ls) in
  match ChatService._currentSession s with
  | Some c =>
      hasId (id c) (ChatService._sessions s) = true
      /\ option_map messages (findSession (id c) (ChatService._sessions s))
         = Some (messages c)
  | None => True
  end.
Proof.
  cbv zeta.
  pose proof (inStep_run toISOString engineMessage es _ (inStep_construct Date_parse ls)) as H.
  unfold ChatService.inStep in H.
  destruct (ChatService._currentSession _) as [c|]; [|exact I].
  split; [|exact H].
  destruct (findSession (id c) _) as [e|] eqn:F; [|discriminate].
  destruct (findSession_some _ _ _ F) as [Hin Hid]. rewrite <- Hid. apply hasId_In, Hin.
Qed.

Section ServiceStorage.

Variable toISOString : Z -> string.
Variable engineMessage : string.

Lemma service_save_mirrored (s : ChatService.Service) :
  ChatService.accepting s ->
  ChatService.mirrored toISOString (ChatService.saveSessionsToStorage toISOString s)
  /\ ChatService.accepting (ChatService.saveSessionsToStorage toISOString s).
Proof.
  intros Ha. unfold ChatService.mirrored, ChatService.accepting,
    ChatService.saveSessionsToStorage, setItem in *.
  rewrite Ha. cbn [ChatService.localStorage ChatService._sessions slot refuses].
  split; [reflexivity | exact Ha].
Qed.

Lemma service_addMessage_mirrored (i : string) (m : ChatMessage) (now : Z)
    (s : ChatService.Service) :
  ChatService.accepting s ->
  ChatService.mirrored toISOString (ChatService.addMessageToSession toISOString i m now s)
  /\ ChatService.accepting (ChatService.addMessageToSession toISOString i m now s).
Proof.
  intros Ha. unfold ChatService.addMessageToSession. cbv zeta.
  apply service_save_mirrored. exact Ha.
Qed.

Lemma service_step_storage (e : ChatService.Event) (s : ChatService.Service) :
  ChatService.accepting s ->
  ChatService.accepting (ChatService.step toISOString engineMessage e s)
  /\ (ChatService.changesSessions s e = true ->
      ChatService.mirrored toISOString (ChatService.step toISOString engineMessage e s))
  /\ (ChatService.mirrored toISOString s ->
      ChatService.mirrored toISOString (ChatService.step toISOString engineMessage e s)).
Proof.
  intros Ha.
  assert (K : forall (P : Prop) s',
            ChatService.mirrored toISOString s' /\ ChatService.accepting s' ->
            ChatService.accepting s'
            /\ (P -> ChatService.mirrored toISOString s')
            /\ (ChatService.mirrored toISOString s -> ChatService.mirrored toISOString s')).
  { intros P s' [Hm Hacc]. split; [exact Hacc|]. split; intros _; exact Hm. }
  destruct e as [t se|text sessionId se me|k o me|sessionId|sessionId|sessionId now];
    cbn [ChatService.step].
  - apply K. unfold ChatService.createNewSession. cbn [snd].
    apply service_save_mirrored. exact Ha.
  - apply K. unfold ChatService.sendMessage.
    destruct (ChatService.resolved sessionId s) as [t|]; cbn [snd].
    + exact (service_addMessage_mirrored (id t) (userMessage text me)
               (me_updatedAt me) s Ha).
    + apply (service_addMessage_mirrored (id (newSession None se))
               (userMessage text me) (me_updatedAt me)).
      unfold ChatService.createNewSession. cbn [snd].
      apply service_save_mirrored. exact Ha.
  - cbn [ChatService.changesSessions].
    destruct (nth_error (ChatService.issued s) k) as [i|];
      [|split; [exact Ha | split; [discriminate | intros H; exact H]]].
    apply K.
    assert (C : forall x,
              ChatService.mirrored toISOString
                (snd (ChatService.sendMessage_catchError toISOString i x me s))
              /\ ChatService.accepting
                   (snd (ChatService.sendMessage_catchError toISOString i x me s))).
    { intros x. unfold ChatService.sendMessage_catchError. cbn [snd].
      apply service_addMessage_mirrored. exact Ha. }
    unfold ChatService.sendMessage_pipe. destruct o as [data|x]; [|apply C].
    destruct (choices data) as [cs|]; [|apply C].
    cbn [snd].
    exact (service_addMessage_mirrored (ChatService.i_session i) _ (me_updatedAt me) s Ha).
  - unfold ChatService.selectSession.
    destruct (findSession sessionId (ChatService._sessions s));
      (split; [exact Ha | split; [discriminate | intros H; exact H]]).
  - apply K. unfold ChatService.deleteSession. cbv zeta.
    apply service_save_mirrored.
    destruct (currentIs (ChatService._currentSession s) sessionId); exact Ha.
  - apply K. unfold ChatService.clearSession. cbv zeta.
    apply service_save_mirrored. exact Ha.
Qed.

End ServiceStorage.

(** X17: the service keeps the storage slot equal to the JSON of its
    sessions.  On a storage that accepts every write, each method that
    changes the sessions ([createNewSession], [sendMessage], the handling
    of an answer, [deleteSession], [clearSession]) leaves the slot
    holding the JSON of the sessions it leaves, and [selectSession]
    keeps it so. *)
Theorem service_storage_mirrors_sessions (toISOString : Z -> string)
    (engineMessage : string) (e : ChatService.Event) (s : ChatService.Service) :
  ChatService.accepting s ->
  let s' := ChatService.step toISOString engineMessage e s in
  ChatService.accepting s'
  /\ (ChatService.changesSessions s e = true ->
      slot (ChatService.localStorage s')
      = Some (stringifySessions toISOString (ChatService._sessions s')))
  /\ (slot (ChatService.localStorage s)
      = Some (stringifySessions toISOString (ChatService._sessions s)) ->
      slot (ChatService.localStorage s')
      = Some (stringifySessions toISOString (ChatService._sessions s'))).
Proof.
  intros Ha. exact (service_step_storage toISOString engineMessage e s Ha).
Qed.

Lemma service_storage_mirrors_sessions_witness :
  slot (ChatService.localStorage
          (ChatService.step Sample.decimalDate Sample.engineMessage
             (ChatService.Edelete "s0") sampleService))
  = Some (stringifySessions Sample.decimalDate [answeredSession]).
Proof.
  exact (proj1 (proj2 (service_storage_mirrors_sessions Sample.decimalDate
                         Sample.engineMessage (ChatService.Edelete "s0") sampleService
                         (fun _ => eq_refl))) eq_refl).
Defined.

(** X18: a service constructed from the storage another one mirrored (a
    page reload) has the same sessions in the same order, for sessions
    whose dates are valid, and no active session: the active session is
    not stored and the constructor selects none. *)
Theorem service_reload (toISOString : Z -> string) (Date_parse : string -> Date)
    (s : ChatService.Service) :
  (forall t, isTimeValue (ValidDate t) = true -> Date_parse (toISOString t) = ValidDate t) ->
  slot (ChatService.localStorage s)
  = Some (stringifySessions toISOString (ChatService._sessions s)) ->
  forallb sessionDatesValid (ChatService._sessions s) = true ->
  ChatService._sessions (ChatService.construct Date_parse (ChatService.localStorage s))
  = ChatService._sessions s
  /\ ChatService._currentSession
       (ChatService.construct Date_parse (ChatService.localStorage s)) = None.
Proof.
  intros Hrt Hm Hv. unfold ChatService.construct, ChatService.loadSessionsFromStorage.
  cbn [ChatService.localStorage]. rewrite Hm. unfold stringifySessions.
  cbn [ChatService._sessions ChatService._currentSession ChatService.next].
  split; [|reflexivity].
  apply (reviveSessions_stringifySessions toISOString Date_parse Hrt), Hv.
Qed.

Lemma service_reload_witness :
  ChatService._sessions
    (ChatService.construct Sample.parseDecimal
       (ChatService.localStorage
          (ChatService.step Sample.decimalDate Sample.engineMessage
             (ChatService.Eclear "s0" 5) sampleService)))
  = [answeredSession; clearMessages 5 (Sample.plainSession "s0")].
Proof.
  exact (proj1 (service_reload Sample.decimalDate Sample.parseDecimal
                  (ChatService.step Sample.decimalDate Sample.engineMessage
                     (ChatService.Eclear "s0" 5) sampleService)
                  (fun t _ => decimal_round_trip t) eq_refl eq_refl)).
Defined.

(** X19: [handleError] of the service returns the provider's message
    whenever the error carries one, whatever the status; without one the
    statuses 401, 429 and 0 give their own texts and any other error its
    own message, or a fixed text when that is empty.  The text is never
    empty. *)
Theorem service_handleError (e : ChatService.HttpFailure) :
  ChatService.handleError e <> ""
  /\ (forall m, ChatService.hf_provider e = Some m -> m <> "" ->
        ChatService.handleError e = m)
  /\ (orElse (ChatService.hf_provider e) "" = "" ->
      (ChatService.hf_status e = Some 429 ->
       ChatService.handleError e = rateLimitMessage)
      /\ (ChatService.hf_status e = Some 401 ->
          ChatService.handleError e = "API key inválida o expirada")
      /\ (ChatService.hf_status e = Some 0 ->
          ChatService.handleError e = connectionMessage)
      /\ (ChatService.hf_status e <> Some 401 -> ChatService.hf_status e <> Some 429 ->
          ChatService.hf_status e <> Some 0 ->
          ChatService.handleError e
          = orElse (Some (ChatService.hf_message e)) "Error desconocido")).
Proof.
  assert (B : ChatService.byStatus e <> "").
  { unfold ChatService.byStatus.
    destruct (ChatService.hf_status e) as [[|p|p]|];
      try discriminate;
      try (unfold orElse; destruct (String.eqb (ChatService.hf_message e) "") eqn:E;
           [discriminate | intros H; rewrite H in E; discriminate]).
    - do 9 (destruct p as [p|p|]; try discriminate;
            try (unfold orElse; destruct (String.eqb (ChatService.hf_message e) "") eqn:E;
                 [discriminate | intros H; rewrite H in E; discriminate])). }
  split; [|split].
  - unfold ChatService.handleError. destruct (ChatService.hf_provider e) as [m|]; [|exact B].
    destruct (String.eqb m "") eqn:E; [exact B|].
    intros H. rewrite H in E. discriminate.
  - intros m Hm Hne. unfold ChatService.handleError. rewrite Hm.
    apply String.eqb_neq in Hne. rewrite Hne. reflexivity.
  - intros Hp.
    assert (H : ChatService.handleError e = ChatService.byStatus e).
    { unfold ChatService.handleError, orElse in *.
      destruct (ChatService.hf_provider e) as [m|]; [|reflexivity].
      destruct (String.eqb m "") eqn:E; [reflexivity|]. subst m. discriminate. }
    rewrite H. unfold ChatService.byStatus.
    split; [intros ->; reflexivity|]. split; [intros ->; reflexivity|].
    split; [intros ->; reflexivity|].
    intros H1 H2 H3. destruct (ChatService.hf_status e) as [[|p|p]|]; try reflexivity.
    + contradiction H3. reflexivity.
    + do 9 (destruct p as [p|p|]; try reflexivity).
      * contradiction H2. reflexivity.
      * contradiction H1. reflexivity.
Qed.

Lemma service_handleError_witness :
  ChatService.handleError
    {| ChatService.hf_provider := Some "Rate limit reached for requests";
       ChatService.hf_status := Some 429; ChatService.hf_message := "Http failure" |}
  = "Rate limit reached for requests".
Proof.
  exact (proj1 (proj2 (service_handleError
           {| ChatService.hf_provider := Some "Rate limit reached for requests";
              ChatService.hf_status := Some 429; ChatService.hf_message := "Http failure" |}))
           "Rate limit reached for requests" eq_refl ltac:(discriminate)).
Defined.

(** * Properties of the Java examples *)

Section JavaFacts.

Import CopilotExamples.

Lemma wrap32_int (z : Z) : isInt z -> wrap32 z = z.
Proof.
  unfold isInt, wrap32. intros H. rewrite Z.mod_small by lia. lia.
Qed.

Lemma mod6_step (i j : Z) :
  i mod 6 = 5 -> i <= j < i + 6 -> j mod 6 = 1 \/ j mod 6 = 5 -> j = i \/ j = i + 2.
Proof.
  intros Hi Hj Hr.
  pose proof (Z.div_mod i 6 ltac:(lia)) as Ei.
  pose proof (Z.div_mod j 6 ltac:(lia)) as Ej.
  destruct Hr as [Hr|Hr]; rewrite Hr in Ej; rewrite Hi in Ei; lia.
Qed.

(** A divisor of a number that neither 2 nor 3 divides is 1 or 5 modulo
    6. *)
Lemma divisor_mod6 (m n : Z) :
  (m | n) -> n mod 2 <> 0 -> n mod 3 <> 0 -> m mod 6 = 1 \/ m mod 6 = 5.
Proof.
  intros Hd H2 H3.
  pose proof (Z.div_mod m 6 ltac:(lia)) as Em.
  pose proof (Z.mod_pos_bound m 6 ltac:(lia)) as Hb.
  assert (N2 : ~ (2 | m)).
  { intros D. apply H2. apply Z.mod_divide; [lia|]. eapply Z.divide_trans; eauto. }
  assert (N3 : ~ (3 | m)).
  { intros D. apply H3. apply Z.mod_divide; [lia|]. eapply Z.divide_trans; eauto. }
  assert (C : m mod 6 = 0 \/ m mod 6 = 1 \/ m mod 6 = 2 \/ m mod 6 = 3
              \/ m mod 6 = 4 \/ m mod 6 = 5) by lia.
  destruct C as [C|[C|[C|[C|[C|C]]]]]; auto; exfalso; rewrite C in Em.
  - apply N2. exists (3 * (m / 6)). lia.
  - apply N2. exists (3 * (m / 6) + 1). lia.
  - apply N3. exists (2 * (m / 6) + 1). lia.
  - apply N2. exists (3 * (m / 6) + 2). lia.
Qed.

(** A proper divisor comes with one whose square is at most the
    number. *)
Lemma small_divisor (d n : Z) :
  1 < d < n -> (d | n) -> exists m, 1 < m /\ m * m <= n /\ (m | n).
Proof.
  intros Hd [e He].
  assert (He1 : 1 < e) by nia.
  destruct (Z_le_gt_dec d e) as [L|G].
  - exists d. split; [lia|]. split; [nia|]. exists e. exact He.
  - exists e. split; [lia|]. split; [nia|]. exists d. lia.
Qed.

Lemma no_small_divisor_prime (i n : Z) :
  3 < n -> n mod 2 <> 0 -> n mod 3 <> 0 -> n < i * i -> 0 <= i ->
  (forall j, 5 <= j < i -> j mod 6 = 1 \/ j mod 6 = 5 -> ~ (j | n)) ->
  Z.prime n.
Proof.
  intros Hn H2 H3 Hi Hi0 Hno. split; [lia|].
  intros d Hd Hdiv.
  destruct (small_divisor d n Hd Hdiv) as (m & Hm1 & Hmm & Hmd).
  pose proof (divisor_mod6 m n Hmd H2 H3) as Hr.
  pose proof (Z.div_mod m 6 ltac:(lia)) as Em.
  assert (H5 : 5 <= m) by (destruct Hr as [Hr|Hr]; rewrite Hr in Em; lia).
  apply (Hno m); [|exact Hr | exact Hmd]. nia.
Qed.

Lemma isPrime_loop_correct (steps : nat) :
  forall i n,
    3 < n < squareLimit -> n mod 2 <> 0 -> n mod 3 <> 0 ->
    5 <= i <= 46337 -> i mod 6 = 5 ->
    (forall j, 5 <= j < i -> j mod 6 = 1 \/ j mod 6 = 5 -> ~ (j | n)) ->
    46337 < i + 6 * Z.of_nat steps ->
    exists b, isPrime_loop steps i n = Done b /\ (b = true <-> Z.prime n).
Proof.
  unfold squareLimit.
  induction steps as [|steps IH]; intros i n Hn H2 H3 Hi Hi6 Hno Hsteps.
  - simpl in Hsteps. lia.
  - cbn [isPrime_loop].
    rewrite (wrap32_int (i * i)) by (unfold isInt; nia).
    destruct (i * i <=? n) eqn:Hsq.
    + apply Z.leb_le in Hsq.
      replace (i =? 0) with false by (symmetry; apply Z.eqb_neq; lia).
      rewrite (Z.rem_mod_nonneg n i) by lia.
      destruct (n mod i =? 0) eqn:Hdi.
      { exists false. split; [reflexivity|]. split; [discriminate|].
        intros Hp. exfalso. apply Z.eqb_eq in Hdi.
        apply Z.mod_divide in Hdi; [|lia].
        destruct (Z.divide_prime_r i n Hp Hdi) as [E|[E|[E|E]]]; nia. }
      rewrite (wrap32_int (i + 2)) by (unfold isInt; lia).
      replace (i + 2 =? 0) with false by (symmetry; apply Z.eqb_neq; lia).
      rewrite (Z.rem_mod_nonneg n (i + 2)) by lia.
      destruct (n mod (i + 2) =? 0) eqn:Hd2.
      { exists false. split; [reflexivity|]. split; [discriminate|].
        intros Hp. exfalso. apply Z.eqb_eq in Hd2.
        apply Z.mod_divide in Hd2; [|lia].
        destruct (Z.divide_prime_r (i + 2) n Hp Hd2) as [E|[E|[E|E]]]; nia. }
      rewrite (wrap32_int (i + 6)) by (unfold isInt; lia).
      pose proof (Z.div_mod i 6 ltac:(lia)) as Ei. rewrite Hi6 in Ei.
      assert (Hlt : i < 46337) by nia.
      apply IH; try assumption.
      * lia.
      * replace (i + 6) with (i + 1 * 6) by lia. rewrite Z.mod_add by lia. exact Hi6.
      * intros j Hj Hr Hdiv.
        destruct (Z_lt_ge_dec j i) as [L|G]; [apply (Hno j); auto; lia|].
        destruct (mod6_step i j Hi6 ltac:(lia) Hr) as [E|E]; subst j.
        -- apply Z.eqb_neq in Hdi. apply Hdi. apply Z.mod_divide; [lia | exact Hdiv].
        -- apply Z.eqb_neq in Hd2. apply Hd2. apply Z.mod_divide; [lia | exact Hdiv].
      * rewrite Nat2Z.inj_succ in Hsteps. lia.
    + apply Z.leb_gt in Hsq. exists true. split; [reflexivity|].
      split; [intros _|reflexivity].
      apply (no_small_divisor_prime i n); try assumption; lia.
Qed.

(** X20: [isPrime] decides primality for every [int] below the square of
    46337 (2147117569): it returns, within 7725 turns of its loop, [true]
    for the primes and [false] for every other number, negative numbers,
    0 and 1 included.  Below that bound no product or sum of the loop
    leaves the range of [int]. *)
Theorem isPrime_correct (n : Z) (steps : nat) :
  isInt n -> n < squareLimit -> 7725 <= Z.of_nat steps ->
  exists b, isPrime steps n = Done b /\ (b = true <-> Z.prime n).
Proof.
  intros Hint Hn Hsteps. unfold isPrime.
  destruct (n <=? 1) eqn:H1.
  { apply Z.leb_le in H1. exists false. split; [reflexivity|].
    split; [discriminate|]. intros Hp. apply Z.prime_ge_2 in Hp. lia. }
  apply Z.leb_gt in H1.
  destruct (n <=? 3) eqn:H3.
  { apply Z.leb_le in H3. exists true. split; [reflexivity|].
    split; [intros _|reflexivity].
    assert (E : n = 2 \/ n = 3) by lia.
    destruct E as [->| ->]; [apply Z.prime_2 | apply Z.prime_3]. }
  apply Z.leb_gt in H3.
  rewrite (Z.rem_mod_nonneg n 2), (Z.rem_mod_nonneg n 3) by lia.
  destruct (n mod 2 =? 0) eqn:E2.
  { exists false. split; [reflexivity|]. split; [discriminate|].
    intros Hp. exfalso. apply Z.eqb_eq in E2. apply Z.mod_divide in E2; [|lia].
    destruct (Z.divide_prime_r 2 n Hp E2) as [E|[E|[E|E]]]; lia. }
  destruct (n mod 3 =? 0) eqn:E3.
  { exists false. split; [reflexivity|]. split; [discriminate|].
    intros Hp. exfalso. apply Z.eqb_eq in E3. apply Z.mod_divide in E3; [|lia].
    destruct (Z.divide_prime_r 3 n Hp E3) as [E|[E|[E|E]]]; lia. }
  cbn [orb]. apply Z.eqb_neq in E2, E3.
  apply isPrime_loop_correct; try assumption; try lia.
  reflexivity.
Qed.

Lemma isPrime_correct_witness :
  exists b, isPrime (Z.to_nat 7725) 2147117527 = Done b /\ (b = true <-> Z.prime 2147117527).
Proof.
  apply isPrime_correct; [unfold isInt; lia | unfold squareLimit; lia | lia].
Defined.

Lemma isPrime_loop_finds_divisor (steps : nat) :
  forall i n p,
    isInt n -> 5 <= i <= p -> i mod 6 = 5 ->
    p mod 6 = 1 \/ p mod 6 = 5 -> p * p <= n -> (p | n) ->
    p < i + 6 * Z.of_nat steps ->
    isPrime_loop steps i n = Done false.
Proof.
  induction steps as [|steps IH]; intros i n p Hn Hi Hi6 Hp6 Hpp Hdiv Hsteps.
  - simpl in Hsteps. lia.
  - unfold isInt in Hn.
    assert (Hp : p <= 46340) by nia.
    pose proof (Z.div_mod i 6 ltac:(lia)) as Ei. rewrite Hi6 in Ei.
    assert (Hi' : i <= 46337).
    { pose proof (Z.div_mod p 6 ltac:(lia)) as Ep.
      destruct Hp6 as [Hp6|Hp6]; rewrite Hp6 in Ep; lia. }
    cbn [isPrime_loop].
    rewrite (wrap32_int (i * i)) by (unfold isInt; nia).
    replace (i * i <=? n) with true by (symmetry; apply Z.leb_le; nia).
    replace (i =? 0) with false by (symmetry; apply Z.eqb_neq; lia).
    rewrite (Z.rem_mod_nonneg n i) by nia.
    destruct (n mod i =? 0) eqn:Hdi; [reflexivity|].
    rewrite (wrap32_int (i + 2)) by (unfold isInt; lia).
    replace (i + 2 =? 0) with false by (symmetry; apply Z.eqb_neq; lia).
    rewrite (Z.rem_mod_nonneg n (i + 2)) by nia.
    destruct (n mod (i + 2) =? 0) eqn:Hd2; [reflexivity|].
    rewrite (wrap32_int (i + 6)) by (unfold isInt; lia).
    assert (Hnext : i + 6 <= p).
    { destruct (Z_lt_ge_dec p (i + 6)) as [L|G]; [exfalso|lia].
      destruct (mod6_step i p Hi6 ltac:(lia) Hp6) as [E|E]; subst p.
      - apply Z.eqb_neq in Hdi. apply Hdi. apply Z.mod_divide; [lia | exact Hdiv].
      - apply Z.eqb_neq in Hd2. apply Hd2. apply Z.mod_divide; [lia | exact Hdiv]. }
    apply (IH (i + 6) n p); try assumption.
    + lia.
    + replace (i + 6) with (i + 1 * 6) by lia. rewrite Z.mod_add by lia. exact Hi6.
    + rewrite Nat2Z.inj_succ in Hsteps. lia.
Qed.

(** X21: whatever the overflow, [isPrime] returns [false] for every
    [int] that has a divisor other than 1 and itself, within 7725 turns
    of its loop: the divisor is found before a square leaves the range of
    [int]. *)
Theorem isPrime_rejects_composites (n d : Z) (steps : nat) :
  isInt n -> 1 < d < n -> (d | n) -> 7725 <= Z.of_nat steps ->
  isPrime steps n = Done false.
Proof.
  intros Hint Hd Hdiv Hsteps. unfold isPrime.
  destruct (n <=? 1) eqn:H1; [reflexivity|]. apply Z.leb_gt in H1.
  destruct (n <=? 3) eqn:H3.
  { exfalso. apply Z.leb_le in H3. destruct Hdiv as [e He].
    assert (E : d = 2 /\ n = 3) by lia. destruct E; subst; lia. }
  apply Z.leb_gt in H3.
  rewrite (Z.rem_mod_nonneg n 2), (Z.rem_mod_nonneg n 3) by lia.
  destruct (n mod 2 =? 0) eqn:E2; [reflexivity|].
  destruct (n mod 3 =? 0) eqn:E3; [reflexivity|].
  cbn [orb]. apply Z.eqb_neq in E2, E3.
  destruct (small_divisor d n Hd Hdiv) as (m & Hm1 & Hmm & Hmd).
  pose proof (divisor_mod6 m n Hmd E2 E3) as Hr.
  pose proof (Z.div_mod m 6 ltac:(lia)) as Em.
  assert (H5 : 5 <= m) by (destruct Hr as [Hr|Hr]; rewrite Hr in Em; lia).
  apply (isPrime_loop_finds_divisor steps 5 n m); try assumption.
  - lia.
  - reflexivity.
  - unfold isInt in Hint. nia.
Qed.

Lemma isPrime_rejects_composites_witness :
  isPrime (Z.to_nat 7725) 2147210243 = Done false.
Proof.
  apply (isPrime_rejects_composites 2147210243 46337 (Z.to_nat 7725)).
  - unfold isInt. lia.
  - lia.
  - exists 46339. reflexivity.
  - lia.
Defined.

Lemma wrap32_isInt (z : Z) : isInt (wrap32 z).
Proof.
  unfold isInt, wrap32.
  pose proof (Z.mod_pos_bound (z + 2147483648) 4294967296 ltac:(lia)). lia.
Qed.

Lemma noDivisorFrom_sound (count : nat) :
  forall d n j,
    0 < d -> noDivisorFrom count d n = true ->
    d <= j < d + Z.of_nat count -> ~ (j | n).
Proof.
  induction count as [|count IH]; intros d n j Hd H Hj Hdiv.
  - simpl in Hj. lia.
  - cbn [noDivisorFrom] in H. apply andb_prop in H. destruct H as [H0 H].
    rewrite Nat2Z.inj_succ in Hj.
    destruct (Z.eq_dec j d) as [->|N].
    + apply Z.mod_divide in Hdiv; [|lia]. rewrite Hdiv in H0. discriminate.
    + apply (IH (d + 1) n j); auto; lia.
Qed.

Lemma prime_MAX_VALUE : Z.prime MAX_VALUE.
Proof.
  unfold Z.prime. split; [unfold MAX_VALUE; lia|]. intros d Hd Hdiv.
  destruct (small_divisor d MAX_VALUE Hd Hdiv) as (m & Hm1 & Hmm & Hmd).
  unfold MAX_VALUE in Hmm.
  apply (noDivisorFrom_sound (Z.to_nat 46340) 2 MAX_VALUE m);
    [lia | vm_compute; reflexivity | rewrite Z2Nat.id by lia; nia | exact Hmd].
Qed.

Lemma isPrime_loop_MAX_VALUE (steps : nat) :
  forall i,
    5 <= i <= MAX_VALUE - 2 -> i mod 6 = 5 ->
    MAX_VALUE - 2 < i + 6 * Z.of_nat steps ->
    isPrime_loop steps i MAX_VALUE = Done false.
Proof.
  pose proof prime_MAX_VALUE as Hp.
  assert (Hm : MAX_VALUE = 2147483647) by reflexivity.
  induction steps as [|steps IH]; intros i Hi Hi6 Hsteps.
  - simpl in Hsteps. lia.
  - cbn [isPrime_loop].
    pose proof (wrap32_isInt (i * i)) as Hsq. unfold isInt in Hsq.
    replace (wrap32 (i * i) <=? MAX_VALUE) with true
      by (symmetry; apply Z.leb_le; lia).
    replace (i =? 0) with false by (symmetry; apply Z.eqb_neq; lia).
    rewrite (Z.rem_mod_nonneg MAX_VALUE i) by lia.
    destruct (MAX_VALUE mod i =? 0) eqn:Hdi; [reflexivity|].
    rewrite (wrap32_int (i + 2)) by (unfold isInt; lia).
    replace (i + 2 =? 0) with false by (symmetry; apply Z.eqb_neq; lia).
    rewrite (Z.rem_mod_nonneg MAX_VALUE (i + 2)) by lia.
    destruct (MAX_VALUE mod (i + 2) =? 0) eqn:Hd2; [reflexivity|].
    assert (Hne : i + 2 <> MAX_VALUE).
    { intros E. rewrite E, Z.mod_same in Hd2 by lia. discriminate. }
    pose proof (Z.div_mod i 6 ltac:(lia)) as Ei. rewrite Hi6 in Ei.
    rewrite (wrap32_int (i + 6)) by (unfold isInt; lia).
    apply IH.
    + lia.
    + replace (i + 6) with (i + 1 * 6) by lia. rewrite Z.mod_add by lia. exact Hi6.
    + rewrite Nat2Z.inj_succ in Hsteps. lia.
Qed.

(** The bound of [isPrime_correct] is needed: the largest [int],
    2147483647, is prime, and [isPrime] returns [false] for it.  Every
    wrapped square is at most that number, so the loop goes on until
    [i + 2] is the number itself. *)
Lemma isPrime_MAX_VALUE (steps : nat) :
  357913941 <= Z.of_nat steps ->
  Z.prime MAX_VALUE /\ isPrime steps MAX_VALUE = Done false.
Proof.
  intros Hsteps. split; [exact prime_MAX_VALUE|].
  change (isPrime steps MAX_VALUE) with (isPrime_loop steps 5 MAX_VALUE).
  apply isPrime_loop_MAX_VALUE.
  - unfold MAX_VALUE. lia.
  - reflexivity.
  - unfold MAX_VALUE. lia.
Qed.

Lemma includes_empty (hay : string) : includes "" hay = true.
Proof.
  destruct hay; reflexivity.
Qed.

Lemma lowerAscii_idempotent (c : ascii) : lowerAscii (lowerAscii c) = lowerAscii c.
Proof.
  destruct c as [[] [] [] [] [] [] [] []]; reflexivity.
Qed.

Lemma toLowerCaseAscii_idempotent (s : string) :
  toLowerCaseAscii (toLowerCaseAscii s) = toLowerCaseAscii s.
Proof.
  induction s as [|c s IH]; [reflexivity|].
  cbn [toLowerCaseAscii]. rewrite lowerAscii_idempotent, IH. reflexivity.
Qed.

(** X22: a search of the library does not depend on the case of the
    keyword's letters (when lowering a lowered string changes nothing),
    the empty keyword finds every book in the order of insertion, and a
    book added later comes last among the results, if it matches. *)
Theorem searchByKeyword_keyword_case
  (toLowerCase : string -> string) (books : list Book) (b : Book)
  (keyword : string) :
  toLowerCase "" = "" ->
  (forall s, toLowerCase (toLowerCase s) = toLowerCase s) ->
  searchByKeyword toLowerCase books (toLowerCase keyword)
  = searchByKeyword toLowerCase books keyword
  /\ searchByKeyword toLowerCase books "" = books
  /\ searchByKeyword toLowerCase (addBook b books) keyword
     = (searchByKeyword toLowerCase books keyword
        ++ (if matchesKeyword toLowerCase b keyword then [b] else []))%list.
Proof.
  intros Hempty Hidem. unfold searchByKeyword, addBook, matchesKeyword.
  split; [|split].
  - apply filter_ext. intros book. rewrite Hidem. reflexivity.
  - rewrite Hempty. induction books as [|x books IH]; [reflexivity|].
    cbn [filter]. rewrite includes_empty. cbn [orb].
    f_equal. exact IH.
  - rewrite filter_app. cbn [filter].
    destruct (includes (toLowerCase keyword) (toLowerCase (book_title b))
              || includes (toLowerCase keyword) (toLowerCase (book_author b)));
      reflexivity.
Qed.

Lemma searchByKeyword_keyword_case_witness :
  searchByKeyword toLowerCaseAscii [sicp] (toLowerCaseAscii "MARTIN")
  = searchByKeyword toLowerCaseAscii [sicp] "MARTIN"
  /\ searchByKeyword toLowerCaseAscii [sicp] "" = [sicp]
  /\ searchByKeyword toLowerCaseAscii (addBook cleanCode [sicp]) "MARTIN"
     = (searchByKeyword toLowerCaseAscii [sicp] "MARTIN"
        ++ (if matchesKeyword toLowerCaseAscii cleanCode "MARTIN"
            then [cleanCode] else []))%list.
Proof.
  exact (searchByKeyword_keyword_case toLowerCaseAscii [sicp] cleanCode "MARTIN"
           eq_refl toLowerCaseAscii_idempotent).
Defined.

End JavaFacts.
